(** * Payment reconciliation: verification and submission

    A shallow embedding of [lib/verification.ts] ([checkTransactionUsed],
    [verifyPayment], [updateBookingStatus]) and of the submission handler
    [app/api/payments/submit-payment/route.ts] ([POST]), together with the
    parts of [lib/config.ts] and [lib/web3-client.ts] they read.  Around
    them: the other exports of [lib/web3-client.ts], the phase flags and the
    request body of the payment page ([handlePay]), the rejection handler
    [app/api/admin/bookings/[bookingId]/reject/route.ts] and the loyalty
    check [app/api/user/check-loyalty/route.ts], which read or write the
    same [booking] table.

    The Prisma tables are finite maps keyed by the unique [bookingId]; the
    blockchain node, the clock and the mail service are fields of an
    environment record; every await of the source becomes a step of an
    explicit state-passing function, and the effects that leave the process
    (RPC calls, sleeps, e-mails) are appended to a trace.

    Conventions.
    - The Prisma schema is not among the sources.  The status values, and
      which columns are nullable, are read off the code that uses them.  The
      three hash columns carry no uniqueness constraint in the model: the
      guard searches them with [findFirst], filtered by status and paid flag.
    - Amounts are JavaScript numbers; the model keeps them as exact
      rationals.  The one conversion the verifier applies to them, viem's
      [parseUnits] on their decimal string, is a field of the environment.
    - The arguments [bookingId], [txHash] and [chainId] of the source
      functions are named [key], [hash] and [chain] here, the column names
      being taken by the projections of [Booking]. *)

From Stdlib Require Import ZArith QArith.QArith_base QArith.Qreduction.
From Stdlib Require Import String Ascii List Bool Lia.
From stdpp Require Import base option list gmap strings pretty fin_maps.

Local Open Scope Z_scope.
Local Open Scope string_scope.

(** ** JavaScript values *)

(** [a || d] on a nullable string: [null], [undefined] and the empty string
    are falsy. *)
Definition orElse (a : option string) (d : string) : string :=
  match a with
  | Some (String c s) => String c s
  | _ => d
  end.

Definition truthyString (s : string) : bool :=
  match s with
  | EmptyString => false
  | String _ _ => true
  end.

Definition truthyOptString (a : option string) : bool :=
  match a with
  | Some s => truthyString s
  | None => false
  end.

(** Amounts are Prisma [Float] columns, JavaScript numbers.  They are kept as
    exact rationals; [!x] holds for [null] and for zero. *)
Definition truthyNumber (a : option Q) : bool :=
  match a with
  | Some q => negb (Qnum q =? 0)%Z
  | None => false
  end.

(** [x || 0] on a nullable number. *)
Definition orZero (a : option Q) : Q :=
  match a with
  | Some q => if (Qnum q =? 0)%Z then 0%Q else q
  | None => 0%Q
  end.

Definition lowerAscii (c : ascii) : ascii :=
  let n := N_of_ascii c in
  if ((65 <=? n) && (n <=? 90))%N then ascii_of_N (n + 32) else c.

(** [String.prototype.toLowerCase], on the ASCII range. *)
Fixpoint toLowerCase (s : string) : string :=
  match s with
  | EmptyString => EmptyString
  | String c r => String (lowerAscii c) (toLowerCase r)
  end.

(** [s.slice(n)] for a non-negative [n]. *)
Fixpoint slice (n : nat) (s : string) : string :=
  match n, s with
  | O, _ => s
  | S k, String _ r => slice k r
  | S _, EmptyString => EmptyString
  end.

Definition hexDigit (c : ascii) : option Z :=
  let n := N_of_ascii c in
  if ((48 <=? n) && (n <=? 57))%N then Some (Z.of_N n - 48)
  else if ((97 <=? n) && (n <=? 102))%N then Some (Z.of_N n - 87)
  else if ((65 <=? n) && (n <=? 70))%N then Some (Z.of_N n - 55)
  else None.

Definition isHexDigit (c : ascii) : bool :=
  match hexDigit c with Some _ => true | None => false end.

Fixpoint hexValue (acc : Z) (s : string) : option Z :=
  match s with
  | EmptyString => Some acc
  | String c r =>
      match hexDigit c with
      | Some d => hexValue (16 * acc + d) r
      | None => None
      end
  end.

(** [BigInt(s)] on a [0x]-prefixed hexadecimal string, the form viem gives to
    [log.data]; [None] is the [SyntaxError] raised on anything else. *)
Definition BigInt (s : string) : option Z :=
  match s with
  | String "0" (String "x" (String c r)) => hexValue 0 (String c r)
  | String "0" (String "X" (String c r)) => hexValue 0 (String c r)
  | _ => None
  end.

Fixpoint allChars (p : ascii -> bool) (s : string) : bool :=
  match s with
  | EmptyString => true
  | String c r => p c && allChars p r
  end.

(** The test [/^0x[a-fA-F0-9]{64}$/] of the submission handler. *)
Definition isTxHashFormat (s : string) : bool :=
  match s with
  | String "0" (String "x" r) => (String.length r =? 64)%nat && allChars isHexDigit r
  | _ => false
  end.

(** ** Bookings *)

Inductive BookingStatus :=
  | WAITLISTED | PENDING | RESERVED | CONFIRMED | CANCELLED | EXPIRED | FAILED.

Global Instance BookingStatus_eq_dec : EqDecision BookingStatus.
Proof. solve_decision. Defined.

Definition statusName (s : BookingStatus) : string :=
  match s with
  | WAITLISTED => "WAITLISTED"
  | PENDING => "PENDING"
  | RESERVED => "RESERVED"
  | CONFIRMED => "CONFIRMED"
  | CANCELLED => "CANCELLED"
  | EXPIRED => "EXPIRED"
  | FAILED => "FAILED"
  end.

(** The columns of the [Booking] table that verification and submission read
    or write.  [userEmail] is [booking.user?.email] and [stay] tells whether
    the included [stay] relation is present. *)
Record Booking := {
  id : string;
  bookingId : string;
  userId : option string;
  userEmail : option string;
  stay : bool;
  status : BookingStatus;
  requiresReservation : bool;
  paymentToken : option string;
  paymentAmount : option Q;
  txHash : option string;
  chainId : option Z;
  reservationAmount : option Q;
  reservationToken : option string;
  reservationTxHash : option string;
  reservationPaid : bool;
  reservationPaidAt : option Z;
  reservationChainId : option Z;
  remainingAmount : option Q;
  remainingToken : option string;
  remainingTxHash : option string;
  remainingPaid : bool;
  remainingPaidAt : option Z;
  remainingChainId : option Z;
  confirmedAt : option Z;
  totalPaid : option Q;
  blockNumber : option Z;
  senderAddress : option string;
  receiverAddress : option string;
  gasUsed : option string;
  gasFeeUSD : option Q
}.

Definition set_status (v : BookingStatus) (b : Booking) : Booking :=
  let '(Build_Booking x0 x1 x2 x3 x4 x5 x6 x7 x8 x9 x10 x11 x12 x13 x14 x15
    x16 x17 x18 x19 x20 x21 x22 x23 x24 x25 x26 x27 x28 x29) := b in
  Build_Booking x0 x1 x2 x3 x4 v x6 x7 x8 x9 x10 x11 x12 x13 x14 x15 x16 x17
    x18 x19 x20 x21 x22 x23 x24 x25 x26 x27 x28 x29.

Definition set_txHash (v : option string) (b : Booking) : Booking :=
  let '(Build_Booking x0 x1 x2 x3 x4 x5 x6 x7 x8 x9 x10 x11 x12 x13 x14 x15
    x16 x17 x18 x19 x20 x21 x22 x23 x24 x25 x26 x27 x28 x29) := b in
  Build_Booking x0 x1 x2 x3 x4 x5 x6 x7 x8 v x10 x11 x12 x13 x14 x15 x16 x17
    x18 x19 x20 x21 x22 x23 x24 x25 x26 x27 x28 x29.

Definition set_chainId (v : option Z) (b : Booking) : Booking :=
  let '(Build_Booking x0 x1 x2 x3 x4 x5 x6 x7 x8 x9 x10 x11 x12 x13 x14 x15
    x16 x17 x18 x19 x20 x21 x22 x23 x24 x25 x26 x27 x28 x29) := b in
  Build_Booking x0 x1 x2 x3 x4 x5 x6 x7 x8 x9 v x11 x12 x13 x14 x15 x16 x17
    x18 x19 x20 x21 x22 x23 x24 x25 x26 x27 x28 x29.

Definition set_reservationToken (v : option string) (b : Booking) : Booking :=
  let '(Build_Booking x0 x1 x2 x3 x4 x5 x6 x7 x8 x9 x10 x11 x12 x13 x14 x15
    x16 x17 x18 x19 x20 x21 x22 x23 x24 x25 x26 x27 x28 x29) := b in
  Build_Booking x0 x1 x2 x3 x4 x5 x6 x7 x8 x9 x10 x11 v x13 x14 x15 x16 x17
    x18 x19 x20 x21 x22 x23 x24 x25 x26 x27 x28 x29.

Definition set_reservationTxHash (v : option string) (b : Booking) : Booking :=
  let '(Build_Booking x0 x1 x2 x3 x4 x5 x6 x7 x8 x9 x10 x11 x12 x13 x14 x15
    x16 x17 x18 x19 x20 x21 x22 x23 x24 x25 x26 x27 x28 x29) := b in
  Build_Booking x0 x1 x2 x3 x4 x5 x6 x7 x8 x9 x10 x11 x12 v x14 x15 x16 x17
    x18 x19 x20 x21 x22 x23 x24 x25 x26 x27 x28 x29.

Definition set_reservationPaid (v : bool) (b : Booking) : Booking :=
  let '(Build_Booking x0 x1 x2 x3 x4 x5 x6 x7 x8 x9 x10 x11 x12 x13 x14 x15
    x16 x17 x18 x19 x20 x21 x22 x23 x24 x25 x26 x27 x28 x29) := b in
  Build_Booking x0 x1 x2 x3 x4 x5 x6 x7 x8 x9 x10 x11 x12 x13 v x15 x16 x17
    x18 x19 x20 x21 x22 x23 x24 x25 x26 x27 x28 x29.

Definition set_reservationPaidAt (v : option Z) (b : Booking) : Booking :=
  let '(Build_Booking x0 x1 x2 x3 x4 x5 x6 x7 x8 x9 x10 x11 x12 x13 x14 x15
    x16 x17 x18 x19 x20 x21 x22 x23 x24 x25 x26 x27 x28 x29) := b in
  Build_Booking x0 x1 x2 x3 x4 x5 x6 x7 x8 x9 x10 x11 x12 x13 x14 v x16 x17
    x18 x19 x20 x21 x22 x23 x24 x25 x26 x27 x28 x29.

Definition set_reservationChainId (v : option Z) (b : Booking) : Booking :=
  let '(Build_Booking x0 x1 x2 x3 x4 x5 x6 x7 x8 x9 x10 x11 x12 x13 x14 x15
    x16 x17 x18 x19 x20 x21 x22 x23 x24 x25 x26 x27 x28 x29) := b in
  Build_Booking x0 x1 x2 x3 x4 x5 x6 x7 x8 x9 x10 x11 x12 x13 x14 x15 v x17
    x18 x19 x20 x21 x22 x23 x24 x25 x26 x27 x28 x29.

Definition set_remainingToken (v : option string) (b : Booking) : Booking :=
  let '(Build_Booking x0 x1 x2 x3 x4 x5 x6 x7 x8 x9 x10 x11 x12 x13 x14 x15
    x16 x17 x18 x19 x20 x21 x22 x23 x24 x25 x26 x27 x28 x29) := b in
  Build_Booking x0 x1 x2 x3 x4 x5 x6 x7 x8 x9 x10 x11 x12 x13 x14 x15 x16
    x17 v x19 x20 x21 x22 x23 x24 x25 x26 x27 x28 x29.

Definition set_remainingTxHash (v : option string) (b : Booking) : Booking :=
  let '(Build_Booking x0 x1 x2 x3 x4 x5 x6 x7 x8 x9 x10 x11 x12 x13 x14 x15
    x16 x17 x18 x19 x20 x21 x22 x23 x24 x25 x26 x27 x28 x29) := b in
  Build_Booking x0 x1 x2 x3 x4 x5 x6 x7 x8 x9 x10 x11 x12 x13 x14 x15 x16
    x17 x18 v x20 x21 x22 x23 x24 x25 x26 x27 x28 x29.

Definition set_remainingPaid (v : bool) (b : Booking) : Booking :=
  let '(Build_Booking x0 x1 x2 x3 x4 x5 x6 x7 x8 x9 x10 x11 x12 x13 x14 x15
    x16 x17 x18 x19 x20 x21 x22 x23 x24 x25 x26 x27 x28 x29) := b in
  Build_Booking x0 x1 x2 x3 x4 x5 x6 x7 x8 x9 x10 x11 x12 x13 x14 x15 x16
    x17 x18 x19 v x21 x22 x23 x24 x25 x26 x27 x28 x29.

Definition set_remainingPaidAt (v : option Z) (b : Booking) : Booking :=
  let '(Build_Booking x0 x1 x2 x3 x4 x5 x6 x7 x8 x9 x10 x11 x12 x13 x14 x15
    x16 x17 x18 x19 x20 x21 x22 x23 x24 x25 x26 x27 x28 x29) := b in
  Build_Booking x0 x1 x2 x3 x4 x5 x6 x7 x8 x9 x10 x11 x12 x13 x14 x15 x16
    x17 x18 x19 x20 v x22 x23 x24 x25 x26 x27 x28 x29.

Definition set_remainingChainId (v : option Z) (b : Booking) : Booking :=
  let '(Build_Booking x0 x1 x2 x3 x4 x5 x6 x7 x8 x9 x10 x11 x12 x13 x14 x15
    x16 x17 x18 x19 x20 x21 x22 x23 x24 x25 x26 x27 x28 x29) := b in
  Build_Booking x0 x1 x2 x3 x4 x5 x6 x7 x8 x9 x10 x11 x12 x13 x14 x15 x16
    x17 x18 x19 x20 x21 v x23 x24 x25 x26 x27 x28 x29.

Definition set_confirmedAt (v : option Z) (b : Booking) : Booking :=
  let '(Build_Booking x0 x1 x2 x3 x4 x5 x6 x7 x8 x9 x10 x11 x12 x13 x14 x15
    x16 x17 x18 x19 x20 x21 x22 x23 x24 x25 x26 x27 x28 x29) := b in
  Build_Booking x0 x1 x2 x3 x4 x5 x6 x7 x8 x9 x10 x11 x12 x13 x14 x15 x16
    x17 x18 x19 x20 x21 x22 v x24 x25 x26 x27 x28 x29.

Definition set_totalPaid (v : option Q) (b : Booking) : Booking :=
  let '(Build_Booking x0 x1 x2 x3 x4 x5 x6 x7 x8 x9 x10 x11 x12 x13 x14 x15
    x16 x17 x18 x19 x20 x21 x22 x23 x24 x25 x26 x27 x28 x29) := b in
  Build_Booking x0 x1 x2 x3 x4 x5 x6 x7 x8 x9 x10 x11 x12 x13 x14 x15 x16
    x17 x18 x19 x20 x21 x22 x23 v x25 x26 x27 x28 x29.

Definition set_blockNumber (v : option Z) (b : Booking) : Booking :=
  let '(Build_Booking x0 x1 x2 x3 x4 x5 x6 x7 x8 x9 x10 x11 x12 x13 x14 x15
    x16 x17 x18 x19 x20 x21 x22 x23 x24 x25 x26 x27 x28 x29) := b in
  Build_Booking x0 x1 x2 x3 x4 x5 x6 x7 x8 x9 x10 x11 x12 x13 x14 x15 x16
    x17 x18 x19 x20 x21 x22 x23 x24 v x26 x27 x28 x29.

Definition set_senderAddress (v : option string) (b : Booking) : Booking :=
  let '(Build_Booking x0 x1 x2 x3 x4 x5 x6 x7 x8 x9 x10 x11 x12 x13 x14 x15
    x16 x17 x18 x19 x20 x21 x22 x23 x24 x25 x26 x27 x28 x29) := b in
  Build_Booking x0 x1 x2 x3 x4 x5 x6 x7 x8 x9 x10 x11 x12 x13 x14 x15 x16
    x17 x18 x19 x20 x21 x22 x23 x24 x25 v x27 x28 x29.

Definition set_receiverAddress (v : option string) (b : Booking) : Booking :=
  let '(Build_Booking x0 x1 x2 x3 x4 x5 x6 x7 x8 x9 x10 x11 x12 x13 x14 x15
    x16 x17 x18 x19 x20 x21 x22 x23 x24 x25 x26 x27 x28 x29) := b in
  Build_Booking x0 x1 x2 x3 x4 x5 x6 x7 x8 x9 x10 x11 x12 x13 x14 x15 x16
    x17 x18 x19 x20 x21 x22 x23 x24 x25 x26 v x28 x29.

Definition set_gasUsed (v : option string) (b : Booking) : Booking :=
  let '(Build_Booking x0 x1 x2 x3 x4 x5 x6 x7 x8 x9 x10 x11 x12 x13 x14 x15
    x16 x17 x18 x19 x20 x21 x22 x23 x24 x25 x26 x27 x28 x29) := b in
  Build_Booking x0 x1 x2 x3 x4 x5 x6 x7 x8 x9 x10 x11 x12 x13 x14 x15 x16
    x17 x18 x19 x20 x21 x22 x23 x24 x25 x26 x27 v x29.

Definition set_gasFeeUSD (v : option Q) (b : Booking) : Booking :=
  let '(Build_Booking x0 x1 x2 x3 x4 x5 x6 x7 x8 x9 x10 x11 x12 x13 x14 x15
    x16 x17 x18 x19 x20 x21 x22 x23 x24 x25 x26 x27 x28 x29) := b in
  Build_Booking x0 x1 x2 x3 x4 x5 x6 x7 x8 x9 x10 x11 x12 x13 x14 x15 x16
    x17 x18 x19 x20 x21 x22 x23 x24 x25 x26 x27 x28 v.

(** [data: { ... }] of a Prisma update: the listed columns are assigned in
    turn, the others are kept. *)
Definition applyData (data : list (Booking -> Booking)) (b : Booking) : Booking :=
  fold_left (fun acc assign => assign acc) data b.

(** ** Chain data, as viem returns it *)

Record Log := {
  address : string;
  topics : list string;
  data : string
}.

Record Receipt := {
  receiptStatus : string;
  receiptBlockNumber : Z;
  receiptGasUsed : Z;
  logs : list Log
}.

Inductive ReceiptResult :=
  | ReceiptFound (receipt : Receipt)
  | ReceiptNull
  | ReceiptError (message : string).

Record Transaction := {
  from : string;
  gasPrice : option Z
}.

Inductive TransactionResult :=
  | TransactionFound (tx : Transaction)
  | TransactionError (message : string).

(** ** Static configuration ([lib/config.ts]) *)

Record TokenConfig := {
  tokenAddress : string;
  decimals : Z;
  symbol : string;
  tokenName : string
}.

Record ChainConfig := {
  name : string;
  configChainId : Z;
  nativeSymbol : string;
  tokens : gmap string TokenConfig
}.

Definition treasuryAddress : string := "0x8895691124df317aBa77549843f257F61a7C911a".

Definition MONAD_TESTNET_USDC : string := "0xf817257fed379853cDe0fa4F97AB987181B1E5Ea".
Definition MONAD_TESTNET_USDT : string := "0x88b8E2161DEDC77EF4ab7585569D2415a1C1055D".

Definition monadTestnetConfig : ChainConfig :=
  {| name := "Monad Testnet";
     configChainId := 10143;
     nativeSymbol := "MON";
     tokens :=
       {[ "USDC" := {| tokenAddress := MONAD_TESTNET_USDC; decimals := 6;
                       symbol := "USDC"; tokenName := "USD Coin" |};
          "USDT" := {| tokenAddress := MONAD_TESTNET_USDT; decimals := 6;
                       symbol := "USDT"; tokenName := "Tether USD" |} ]} |}.

Definition chainConfig : gmap Z ChainConfig := {[ 10143 := monadTestnetConfig ]}.

Definition TRANSFER_TOPIC : string :=
  "0xddf252ad1be2c89b69c2b068fc378daa952ba7f163c4a11628f55a4df523b3ef".

(** ** Mail, activity log, effects *)

Inductive EmailKind := ReservationConfirmedEmail | ConfirmationEmail.

Record Email := {
  kind : EmailKind;
  recipientEmail : string;
  emailBookingId : string;
  emailAmount : option Q;
  emailToken : option string;
  emailTxHash : string;
  emailChainId : Z
}.

Inductive JSON :=
  | JNull
  | JBool (b : bool)
  | JNumber (q : Q)
  | JString (s : string).

Definition jsonNumber (a : option Q) : JSON :=
  match a with Some q => JNumber q | None => JNull end.

Definition jsonString (a : option string) : JSON :=
  match a with Some s => JString s | None => JNull end.

Record ActivityLog := {
  logBookingId : string;
  logUserId : option string;
  action : string;
  entity : string;
  entityId : string;
  details : list (string * JSON)
}.

(** What leaves the process: RPC reads, timer waits and mail dispatches. *)
Inductive Effect :=
  | FetchReceipt (chainId : Z) (hash : string)
  | FetchTransaction (chainId : Z) (hash : string)
  | Sleep (ms : Z)
  | SendEmail (mail : Email).

(** ** The environment *)

(** [clients] is the table of [lib/web3-client.ts] ([false] for a client
    whose construction failed).  The last argument of the two RPC reads is
    the attempt number of the calling verification: it stands for the time of
    the call.  [parseUnits x d] is viem's [parseUnits(x.toString(), d)], with
    [None] for the error it raises on a string that is no decimal number.
    [sendEmail] answers [Some message] when the mail service throws. *)
Record Env := {
  clients : gmap Z bool;
  getTransactionReceipt : Z -> string -> nat -> ReceiptResult;
  getTransaction : Z -> string -> nat -> TransactionResult;
  parseUnits : Q -> Z -> option Z;
  now : Z;
  sendEmail : Email -> option string
}.

Definition getPublicClient (env : Env) (chainId : Z) : bool :=
  match clients env !! chainId with
  | Some ready => ready
  | None => false
  end.

(** ** The store *)

Record World := {
  bookings : gmap string Booking;
  activityLog : list ActivityLog;
  trace : list Effect
}.

Definition withBookings (m : gmap string Booking) (w : World) : World :=
  {| bookings := m; activityLog := activityLog w; trace := trace w |}.

(** [db.activityLog.create] *)
Definition activityLogCreate (entry : ActivityLog) (w : World) : World :=
  {| bookings := bookings w; activityLog := activityLog w ++ [entry]; trace := trace w |}.

Definition emit (e : Effect) (w : World) : World :=
  {| bookings := bookings w; activityLog := activityLog w; trace := trace w ++ [e] |}.

(** The message of the error Prisma raises when the row of an update is
    missing. *)
Definition recordNotFound : string := "Record to update not found.".

(** [db.booking.update({ where: { bookingId }, data })]; [None] when no row
    has this [bookingId]. *)
Definition bookingUpdate (key : string) (data : list (Booking -> Booking))
    (w : World) : option World :=
  match bookings w !! key with
  | Some b => Some (withBookings (<[key := applyData data b]> (bookings w)) w)
  | None => None
  end.

(** Helper to update booking status. *)
Definition updateBookingStatus (key : string) (newStatus : BookingStatus)
    (details : list (string * JSON)) (w : World) : option World :=
  match bookingUpdate key [set_status newStatus] w with
  | None => None
  | Some w1 =>
      match bookings w1 !! key with
      | Some booking =>
          Some (activityLogCreate
                  {| logBookingId := id booking;
                     logUserId := userId booking;
                     action := "payment_" +:+ toLowerCase (statusName newStatus);
                     entity := "booking";
                     entityId := id booking;
                     details := details |} w1)
      | None => Some w1
      end
  end.

(** ** Idempotency guard *)

Definition usesTransaction (hash : string) (b : Booking) : bool :=
  bool_decide (txHash b = Some hash) && bool_decide (status b = CONFIRMED)
  || bool_decide (reservationTxHash b = Some hash) && reservationPaid b
  || bool_decide (remainingTxHash b = Some hash) && remainingPaid b.

(** Check if a transaction hash has already been used: [findFirst] over the
    table with the three-way [OR] filter, then [!!existingBooking]. *)
Definition checkTransactionUsed (hash : string) (w : World) : bool :=
  bool_decide (map_Exists (fun _ b => usesTransaction hash b = true) (bookings w)).

(** ** Verification ([verifyPayment]) *)

(** The error strings of [verifyPayment], under the names of the failure
    reasons they stand for. *)
Definition PaymentNotLocked : string := "Payment details not locked".
Definition VerificationTimeout : string := "Transaction timeout - not mined after retries".
Definition TransactionReverted : string := "Transaction failed on blockchain".
Definition NoTransferEvent : string := "No transfer events in transaction".
Definition AmountMismatch : string := "Payment amount mismatch on blockchain".
Definition WrongRecipient : string := "Transfer not sent to correct treasury address".
Definition PhaseOrderViolation : string :=
  "Cannot verify remaining payment - reservation not paid yet".

(** How a pass through the [try] block ends: by [return], by [continue], or
    by an exception that the [catch] clause receives. *)
Inductive Completion :=
  | Returned
  | Continued
  | Thrown (message : string).

(** What the phase checks of step 2 decide. *)
Inductive Gate :=
  | Proceed
  | AlreadyVerified
  | Violation (message : string).

Record Expectation := {
  isReservationPayment : bool;
  expectedAmount : option Q;
  expectedToken : string;
  gate : Gate
}.

(** Steps 1-2 of an attempt, on the booking read at its start: the phase, the
    expected amount and token, and the phase's own checks. *)
Definition resolvePayment (isRemainingPayment : bool) (booking : Booking) : Expectation :=
  let isReservationPayment :=
    requiresReservation booking && negb (reservationPaid booking)
    && negb isRemainingPayment in
  if isReservationPayment then
    {| isReservationPayment := isReservationPayment;
       expectedAmount := reservationAmount booking;
       expectedToken :=
         orElse (reservationToken booking) (orElse (paymentToken booking) "USDC");
       gate :=
         if bool_decide (status booking = RESERVED) || reservationPaid booking
         then AlreadyVerified else Proceed |}
  else if isRemainingPayment then
    {| isReservationPayment := isReservationPayment;
       expectedAmount := remainingAmount booking;
       expectedToken :=
         orElse (remainingToken booking) (orElse (paymentToken booking) "USDC");
       gate :=
         if negb (reservationPaid booking) then Violation PhaseOrderViolation
         else if bool_decide (status booking = CONFIRMED) || remainingPaid booking
         then AlreadyVerified else Proceed |}
  else
    {| isReservationPayment := isReservationPayment;
       expectedAmount := paymentAmount booking;
       expectedToken := orElse (paymentToken booking) "USDC";
       gate :=
         if bool_decide (status booking = CONFIRMED)
         then AlreadyVerified else Proceed |}.

(** Step 3: [!paymentToken || !expectedAmount]. *)
Definition lockedAmount (x : Expectation) : option Q :=
  if negb (truthyString (expectedToken x)) || negb (truthyNumber (expectedAmount x))
  then None else expectedAmount x.

(** Step 8: the filter on the emitting contract and the first topic. *)
Definition isTransferLog (tokenAddressLower : string) (log : Log) : bool :=
  bool_decide (toLowerCase (address log) = tokenAddressLower)
  && bool_decide (topics log !! 0%nat = Some TRANSFER_TOPIC).

(** [`0x${log.topics[2]?.slice(26)}`] *)
Definition toAddress (log : Log) : string :=
  "0x" +:+ match topics log !! 2%nat with
           | Some topic => slice 26 topic
           | None => "undefined"
           end.

Definition isToTreasury (log : Log) : bool :=
  bool_decide (toLowerCase (toAddress log) = toLowerCase treasuryAddress).

(** [Number(gasFeeWei) / 1e18 * nativePriceUsd], with the price of the
    testnet's native token, which is 0. *)
Definition gasFeeUSDOf (receipt : Receipt) (tx : Transaction) : Q :=
  let gasPrice := default 0 (gasPrice tx) in
  let gasFeeWei := receiptGasUsed receipt * gasPrice in
  let gasFeeNative := Qmake gasFeeWei (Z.to_pos (10 ^ 18)) in
  let nativePriceUsd := 0%Q in
  Qred (Qmult gasFeeNative nativePriceUsd).

Section Verification.

Variable env : Env.
Variables (key hash : string) (chain : Z) (isRemainingPayment : bool).
Variables (maxRetries : nat) (retryDelayMs : Z).

Definition phaseFlags (x : Expectation) : list (string * JSON) :=
  [("isReservationPayment", JBool (isReservationPayment x));
   ("isRemainingPayment", JBool isRemainingPayment)].

(** [await updateBookingStatus(bookingId, FAILED, details); return;] inside
    the [try] block. *)
Definition markFailed (details : list (string * JSON)) (retryCount : nat)
    (w : World) : Completion * nat * World :=
  match updateBookingStatus key FAILED details w with
  | Some w' => (Returned, retryCount, w')
  | None => (Thrown recordNotFound, retryCount, w)
  end.

(** The mail dispatch after a successful update: guarded by
    [booking.user?.email && booking.stay], and with its own [try]. *)
Definition dispatch (booking : Booking) (mail : string -> Email)
    (onError : string -> World -> World) (w : World) : World :=
  match userEmail booking with
  | Some recipient =>
      if truthyString recipient && stay booking then
        let w1 := emit (SendEmail (mail recipient)) w in
        match sendEmail env (mail recipient) with
        | None => w1
        | Some message => onError message w1
        end
      else w
  | None => w
  end.

Definition reservationData (paymentToken : string) (receipt : Receipt)
    (tx : Transaction) : list (Booking -> Booking) :=
  [ set_status RESERVED;
    set_reservationPaid true;
    set_reservationTxHash (Some hash);
    set_reservationPaidAt (Some (now env));
    set_reservationChainId (Some chain);
    set_reservationToken (Some paymentToken);
    set_blockNumber (Some (receiptBlockNumber receipt));
    set_senderAddress (Some (from tx));
    set_receiverAddress (Some treasuryAddress);
    set_gasUsed (Some (pretty (receiptGasUsed receipt)));
    set_gasFeeUSD (Some (gasFeeUSDOf receipt tx)) ].

Definition remainingData (booking : Booking) (amount : Q) (paymentToken : string)
    : list (Booking -> Booking) :=
  [ set_status CONFIRMED;
    set_remainingPaid true;
    set_remainingTxHash (Some hash);
    set_remainingPaidAt (Some (now env));
    set_remainingChainId (Some chain);
    set_remainingToken (Some paymentToken);
    set_confirmedAt (Some (now env));
    set_totalPaid (Some (Qplus (orZero (reservationAmount booking)) amount)) ].

Definition fullData (booking : Booking) (receipt : Receipt) (tx : Transaction)
    : list (Booking -> Booking) :=
  [ set_status CONFIRMED;
    set_confirmedAt (Some (now env));
    set_blockNumber (Some (receiptBlockNumber receipt));
    set_senderAddress (Some (from tx));
    set_receiverAddress (Some treasuryAddress);
    set_gasUsed (Some (pretty (receiptGasUsed receipt)));
    set_gasFeeUSD (Some (gasFeeUSDOf receipt tx));
    set_totalPaid (paymentAmount booking) ].

Definition successLog (booking : Booking) (name : string)
    (details : list (string * JSON)) : ActivityLog :=
  {| logBookingId := id booking;
     logUserId := userId booking;
     action := name;
     entity := "booking";
     entityId := id booking;
     details := details |}.

(** The success path of step 9, from the gas computation on: the update for
    the phase, the activity log entry and the mail. *)
Definition confirmPayment (booking : Booking) (x : Expectation) (amount : Q)
    (receipt : Receipt) (retryCount : nat) (w : World) : Completion * nat * World :=
  let token := expectedToken x in
  let w := emit (FetchTransaction chain hash) w in
  match getTransaction env chain hash retryCount with
  | TransactionError message => (Thrown message, retryCount, w)
  | TransactionFound tx =>
      let gasUsed := pretty (receiptGasUsed receipt) in
      let gasFeeUSD := gasFeeUSDOf receipt tx in
      let blockNumber := JNumber (inject_Z (receiptBlockNumber receipt)) in
      if isReservationPayment x then
        match bookingUpdate key (reservationData token receipt tx) w with
        | None => (Thrown recordNotFound, retryCount, w)
        | Some w =>
            let w := activityLogCreate
              (successLog booking "reservation_paid"
                 [("txHash", JString hash);
                  ("chainId", JNumber (inject_Z chain));
                  ("amount", JNumber amount);
                  ("token", JString token);
                  ("blockNumber", blockNumber);
                  ("gasUsed", JString gasUsed);
                  ("gasFeeUSD", JNumber gasFeeUSD);
                  ("remainingAmount", jsonNumber (remainingAmount booking))]) w in
            let w := dispatch booking
              (fun recipient =>
                 {| kind := ReservationConfirmedEmail;
                    recipientEmail := recipient;
                    emailBookingId := bookingId booking;
                    emailAmount := Some amount;
                    emailToken := Some token;
                    emailTxHash := hash;
                    emailChainId := chain |})
              (fun message =>
                 activityLogCreate
                   (successLog booking "email_failed"
                      [("error", JString message);
                       ("type", JString "reservation_confirmation_email")])) w in
            (Returned, retryCount, w)
        end
      else if isRemainingPayment then
        match bookingUpdate key (remainingData booking amount token) w with
        | None => (Thrown recordNotFound, retryCount, w)
        | Some w =>
            let totalPaid := Qplus (orZero (reservationAmount booking)) amount in
            let w := activityLogCreate
              (successLog booking "remaining_payment_confirmed"
                 [("txHash", JString hash);
                  ("chainId", JNumber (inject_Z chain));
                  ("amount", JNumber amount);
                  ("token", JString token);
                  ("blockNumber", blockNumber);
                  ("reservationAmount", jsonNumber (reservationAmount booking));
                  ("totalPaid", JNumber totalPaid)]) w in
            let w := dispatch booking
              (fun recipient =>
                 {| kind := ConfirmationEmail;
                    recipientEmail := recipient;
                    emailBookingId := bookingId booking;
                    emailAmount := Some totalPaid;
                    emailToken := Some token;
                    emailTxHash := hash;
                    emailChainId := chain |})
              (fun _ w => w) w in
            (Returned, retryCount, w)
        end
      else
        match bookingUpdate key (fullData booking receipt tx) w with
        | None => (Thrown recordNotFound, retryCount, w)
        | Some w =>
            let w := activityLogCreate
              (successLog booking "payment_confirmed"
                 [("txHash", JString hash);
                  ("chainId", JNumber (inject_Z chain));
                  ("amount", jsonNumber (paymentAmount booking));
                  ("token", jsonString (paymentToken booking));
                  ("blockNumber", blockNumber);
                  ("gasUsed", JString gasUsed);
                  ("gasFeeUSD", JNumber gasFeeUSD)]) w in
            let w := dispatch booking
              (fun recipient =>
                 {| kind := ConfirmationEmail;
                    recipientEmail := recipient;
                    emailBookingId := bookingId booking;
                    emailAmount := paymentAmount booking;
                    emailToken := paymentToken booking;
                    emailTxHash := hash;
                    emailChainId := chain |})
              (fun _ w => w) w in
            (Returned, retryCount, w)
        end
  end.

(** Steps 7-9 up to the amount comparison: the chain and token lookup, the
    base-unit amount, the log filter and the scan for the first transfer to
    the treasury. *)
Definition matchTransfer (booking : Booking) (x : Expectation) (amount : Q)
    (receipt : Receipt) (retryCount : nat) (w : World) : Completion * nat * World :=
  match chainConfig !! chain with
  | None =>
      (Thrown ("Chain " +:+ pretty chain +:+ " not configured"), retryCount, w)
  | Some chainInfo =>
      match tokens chainInfo !! expectedToken x with
      | None =>
          (Thrown ("Token " +:+ expectedToken x +:+ " not configured for chain "
                   +:+ pretty chain), retryCount, w)
      | Some tokenInfo =>
          match parseUnits env amount (decimals tokenInfo) with
          | None => (Thrown "Invalid decimal number", retryCount, w)
          | Some expectedBaseUnits =>
              let tokenAddressLower := toLowerCase (tokenAddress tokenInfo) in
              let transferLogs :=
                List.filter (isTransferLog tokenAddressLower) (logs receipt) in
              if (length transferLogs =? 0)%nat then
                markFailed
                  ([("error", JString NoTransferEvent);
                    ("chainId", JNumber (inject_Z chain));
                    ("tokenAddress", JString (tokenAddress tokenInfo));
                    ("txHash", JString hash)] ++ phaseFlags x) retryCount w
              else
                match List.find isToTreasury transferLogs with
                | Some log =>
                    match BigInt (data log) with
                    | None => (Thrown "Cannot convert to a BigInt", retryCount, w)
                    | Some transferredValue =>
                        if bool_decide (transferredValue <> expectedBaseUnits) then
                          markFailed
                            ([("error", JString AmountMismatch);
                              ("onChain",
                               JNumber (Qmake transferredValue
                                          (Z.to_pos (10 ^ decimals tokenInfo))));
                              ("expected", JNumber amount)] ++ phaseFlags x)
                            retryCount w
                        else confirmPayment booking x amount receipt retryCount w
                    end
                | None =>
                    markFailed
                      ([("error", JString WrongRecipient);
                        ("expectedTreasury", JString treasuryAddress)]
                       ++ phaseFlags x) retryCount w
                end
          end
      end
  end.

(** The body of the [try] block of one loop iteration.  The second component
    of the result is [retryCount] as the block leaves it. *)
Definition tryBlock (retryCount : nat) (w : World) : Completion * nat * World :=
  match bookings w !! key with
  | None => (Thrown "Booking not found", retryCount, w)
  | Some booking =>
      let x := resolvePayment isRemainingPayment booking in
      match gate x with
      | AlreadyVerified => (Returned, retryCount, w)
      | Violation message => (Thrown message, retryCount, w)
      | Proceed =>
          match lockedAmount x with
          | None =>
              markFailed (("error", JString PaymentNotLocked) :: phaseFlags x)
                retryCount w
          | Some amount =>
              if negb (getPublicClient env chain) then
                (Thrown ("No client configured for chain " +:+ pretty chain),
                 retryCount, w)
              else
                let w := emit (FetchReceipt chain hash) w in
                match getTransactionReceipt env chain hash retryCount with
                | ReceiptError message => (Thrown message, retryCount, w)
                | ReceiptNull =>
                    let retryCount := S retryCount in
                    if (retryCount <? maxRetries)%nat then
                      (Continued, retryCount, emit (Sleep retryDelayMs) w)
                    else
                      markFailed
                        (("error", JString VerificationTimeout) :: phaseFlags x)
                        retryCount w
                | ReceiptFound receipt =>
                    if negb (truthyString (receiptStatus receipt))
                       || negb (bool_decide (receiptStatus receipt = "success"))
                    then
                      markFailed
                        (("error", JString TransactionReverted) :: phaseFlags x)
                        retryCount w
                    else matchTransfer booking x amount receipt retryCount w
                end
          end
      end
  end.

(** How one iteration of the [while] loop ends: the function returns, the
    loop goes on with a new [retryCount], or an exception leaves the [catch]
    clause and rejects the promise. *)
Inductive Step :=
  | Exit
  | Next (retryCount : nat)
  | Escaped (message : string).

(** One iteration: the [try] block and the [catch] clause. *)
Definition iteration (retryCount : nat) (w : World) : Step * World :=
  match tryBlock retryCount w with
  | (Returned, _, w') => (Exit, w')
  | (Continued, retryCount', w') => (Next retryCount', w')
  | (Thrown message, retryCount', w') =>
      let retryCount' := S retryCount' in
      if (maxRetries <=? retryCount')%nat then
        match updateBookingStatus key FAILED
                [("error", JString message);
                 ("attempts", JNumber (inject_Z (Z.of_nat retryCount')))] w' with
        | Some w'' => (Next retryCount', w'')
        | None => (Escaped recordNotFound, w')
        end
      else (Next retryCount', emit (Sleep retryDelayMs) w')
  end.

Inductive Outcome :=
  | Resolved
  | Rejected (message : string).

(** [while (retryCount < maxRetries) { ... }].  Every iteration that goes on
    raises [retryCount], so [maxRetries] units of fuel are enough. *)
Fixpoint retryLoop (fuel : nat) (retryCount : nat) (w : World) : Outcome * World :=
  match fuel with
  | O => (Resolved, w)
  | S fuel' =>
      if (retryCount <? maxRetries)%nat then
        match iteration retryCount w with
        | (Exit, w') => (Resolved, w')
        | (Next retryCount', w') => retryLoop fuel' retryCount' w'
        | (Escaped message, w') => (Rejected message, w')
        end
      else (Resolved, w)
  end.

(** Verify a payment transaction on the blockchain with retries. *)
Definition verifyPayment (w : World) : Outcome * World :=
  retryLoop maxRetries 0 w.

End Verification.

(** ** Submission ([POST /api/payments/submit-payment]) *)

(** The JSON body; a missing property is [None]. *)
Record SubmitBody := {
  bodyBookingId : option string;
  bodyTxHash : option string;
  bodyChainId : option Z;
  bodyPaymentToken : option string;
  bodyIsRemainingPayment : option bool
}.

(** [NextResponse.json(body, { status })] *)
Record Response := {
  httpStatus : Z;
  responseBody : list (string * JSON)
}.

(** The call [verifyPayment(bookingId, txHash, chainId, isRemainingPayment,
    10, 3000)] that the handler starts without awaiting it. *)
Record VerificationCall := {
  callBookingId : string;
  callTxHash : string;
  callChainId : Z;
  callIsRemainingPayment : bool;
  callMaxRetries : nat;
  callRetryDelayMs : Z
}.

Definition errorResponse (code : Z) (message : string)
    (more : list (string * JSON)) : Response :=
  {| httpStatus := code; responseBody := ("error", JString message) :: more |}.

(** Step 2: [!bookingId || !txHash || !chainId || !paymentToken]. *)
Definition requiredFields (body : SubmitBody) : option (string * string * Z * string) :=
  match bodyBookingId body, bodyTxHash body, bodyChainId body, bodyPaymentToken body with
  | Some key, Some hash, Some chain, Some token =>
      if truthyString key && truthyString hash && negb (chain =? 0)%Z
         && truthyString token
      then Some (key, hash, chain, token)
      else None
  | _, _, _, _ => None
  end.

Definition tokenMismatch (expected : option string) (token : string) : option Response :=
  match expected with
  | Some want =>
      if truthyString want && negb (bool_decide (want = token)) then
        Some (errorResponse 400
                ("Payment token mismatch. Expected: " +:+ want +:+ ", Got: " +:+ token)
                [("expectedToken", JString want)])
      else None
  | None => None
  end.

Definition statusConflict (what : string) (booking : Booking) : Response :=
  errorResponse 409
    ("Cannot submit " +:+ what +:+ ". Booking status is: " +:+ statusName (status booking))
    [("currentStatus", JString (statusName (status booking)))].

(** "Determine payment type and validate status": the response of the first
    check that fails, [None] when the submission may go on. *)
Definition validateSubmission (booking : Booking) (isRemainingPayment : bool)
    (token : string) : option Response :=
  if requiresReservation booking then
    if isRemainingPayment then
      if negb (reservationPaid booking) then
        Some (errorResponse 400
                "Cannot submit remaining payment - reservation not paid yet" [])
      else if negb (bool_decide (status booking = RESERVED)) then
        Some (statusConflict "remaining payment" booking)
      else if remainingPaid booking then
        Some (errorResponse 409 "Remaining payment already processed" [])
      else tokenMismatch (remainingToken booking) token
    else
      if negb (bool_decide (status booking = PENDING)) then
        Some (statusConflict "reservation payment" booking)
      else if reservationPaid booking then
        Some (errorResponse 409 "Reservation already paid" [])
      else tokenMismatch (reservationToken booking) token
  else
    if negb (bool_decide (status booking = PENDING)) then
      Some (statusConflict "payment" booking)
    else if negb (truthyOptString (paymentToken booking))
            || negb (truthyNumber (paymentAmount booking)) then
      Some (errorResponse 400
              "Payment details were not locked. Please retry or contact support." [])
    else None.

(** Step 5: the columns written before verification starts. *)
Definition submissionData (booking : Booking) (hash : string) (chain : Z)
    (isRemainingPayment : bool) : list (Booking -> Booking) :=
  set_chainId (Some chain)
  :: (if isRemainingPayment then [set_remainingTxHash (Some hash)]
      else if requiresReservation booking then [set_reservationTxHash (Some hash)]
      else [set_txHash (Some hash)]).

Definition paymentTypeOf (booking : Booking) (isRemainingPayment : bool) : string :=
  if isRemainingPayment then "remaining"
  else if requiresReservation booking then "reservation" else "full".

Definition responseMessage (booking : Booking) (isRemainingPayment : bool) : string :=
  if isRemainingPayment then "Remaining payment submitted for verification"
  else if requiresReservation booking
       then "Reservation payment submitted for verification"
       else "Transaction submitted for verification".

(** The handler: its response, the store it leaves, and the verification it
    started, if any. *)
Definition POST (body : SubmitBody) (w : World)
    : Response * World * option VerificationCall :=
  let isRemainingPayment := default false (bodyIsRemainingPayment body) in
  match requiredFields body with
  | None =>
      (errorResponse 400
         "Missing required fields: bookingId, txHash, chainId, paymentToken" [],
       w, None)
  | Some (key, hash, chain, token) =>
      if negb (isTxHashFormat hash) then
        (errorResponse 400 "Invalid transaction hash format" [], w, None)
      else if checkTransactionUsed hash w then
        (errorResponse 409 "This transaction has already been used for another payment"
           [("code", JString "TRANSACTION_ALREADY_USED")], w, None)
      else
        match bookings w !! key with
        | None => (errorResponse 404 "Booking not found" [], w, None)
        | Some booking =>
            match validateSubmission booking isRemainingPayment token with
            | Some response => (response, w, None)
            | None =>
                match bookingUpdate key
                        (submissionData booking hash chain isRemainingPayment) w with
                | None => (errorResponse 500 "Internal server error" [], w, None)
                | Some w1 =>
                    let w2 :=
                      activityLogCreate
                        {| logBookingId := id booking;
                           logUserId := None;
                           action := if isRemainingPayment
                                     then "remaining_payment_submitted"
                                     else "payment_submitted";
                           entity := "booking";
                           entityId := id booking;
                           details :=
                             [("txHash", JString hash);
                              ("chainId", JNumber (inject_Z chain));
                              ("token", JString token);
                              ("isReservation",
                               JBool (requiresReservation booking
                                      && negb isRemainingPayment));
                              ("isRemainingPayment", JBool isRemainingPayment);
                              ("amount",
                               jsonNumber
                                 (if isRemainingPayment then remainingAmount booking
                                  else if requiresReservation booking
                                       then reservationAmount booking
                                       else paymentAmount booking))] |} w1 in
                    ({| httpStatus := 200;
                        responseBody :=
                          [("success", JBool true);
                           ("bookingId", JString (bookingId booking));
                           ("status", JString "verifying");
                           ("message", JString (responseMessage booking isRemainingPayment));
                           ("paymentType",
                            JString (paymentTypeOf booking isRemainingPayment))] |},
                     w2,
                     Some {| callBookingId := key;
                             callTxHash := hash;
                             callChainId := chain;
                             callIsRemainingPayment := isRemainingPayment;
                             callMaxRetries := 10;
                             callRetryDelayMs := 3000 |})
                end
            end
        end
  end.

(** ** The server: submissions and the verifications they started *)

Definition runVerification (env : Env) (call : VerificationCall) (w : World)
    : Outcome * World :=
  verifyPayment env (callBookingId call) (callTxHash call) (callChainId call)
    (callIsRemainingPayment call) (callMaxRetries call) (callRetryDelayMs call) w.

(** The store, the verifications started and not yet run, and the responses
    given so far. *)
Record Server := {
  world : World;
  pending : list VerificationCall;
  responses : list Response
}.

(** A request arrives, or the [n]-th pending verification runs to its end. *)
Inductive Action :=
  | Submit (body : SubmitBody)
  | Run (n : nat).

Definition act (env : Env) (s : Server) (a : Action) : Server :=
  match a with
  | Submit body =>
      let '(response, w, call) := POST body (world s) in
      {| world := w;
         pending := pending s ++ option_list call;
         responses := responses s ++ [response] |}
  | Run n =>
      match pending s !! n with
      | Some call =>
          {| world := snd (runVerification env call (world s));
             pending := delete n (pending s);
             responses := responses s |}
      | None => s
      end
  end.

Definition serve (env : Env) (s : Server) (actions : list Action) : Server :=
  fold_left (act env) actions s.

(** ** Consumed transaction hashes *)

Inductive Phase := FullPayment | ReservationPhase | RemainingPhase.

(** The row binds [hash] in a terminal used state of [phase]. *)
Definition binds (hash : string) (phase : Phase) (b : Booking) : bool :=
  match phase with
  | FullPayment =>
      bool_decide (txHash b = Some hash) && bool_decide (status b = CONFIRMED)
  | ReservationPhase =>
      bool_decide (reservationTxHash b = Some hash) && reservationPaid b
  | RemainingPhase =>
      bool_decide (remainingTxHash b = Some hash) && remainingPaid b
  end.

(** [hash] is consumed for the booking under [key] and [phase]. *)
Definition consumed (hash key : string) (phase : Phase) (w : World) : bool :=
  match bookings w !! key with
  | Some b => binds hash phase b
  | None => false
  end.

(** ** Sample data *)

(** The base-unit amount [x * 10^d] when it is an integer: what [parseUnits]
    yields for an amount with at most [d] fractional digits. *)
Definition scaleExact (x : Q) (d : Z) : option Z :=
  let n := Qnum x * 10 ^ d in
  if (n mod Zpos (Qden x) =? 0)%Z then Some (n / Zpos (Qden x)) else None.

Definition sampleHash : string :=
  "0x1111111111111111111111111111111111111111111111111111111111111111".

Definition samplePayer : string := "0x2222222222222222222222222222222222222222".

(** A 32-byte topic holding a 20-byte address. *)
Definition addressTopic (addr : string) : string :=
  "0x000000000000000000000000" +:+ slice 2 addr.

(** A [Transfer] log of the USDC contract to [recipient], of [value] given as
    32 bytes of hexadecimal. *)
Definition sampleTransfer (recipient value : string) : Log :=
  {| address := MONAD_TESTNET_USDC;
     topics := [TRANSFER_TOPIC; addressTopic samplePayer; addressTopic recipient];
     data := value |}.

(** 30000000 base units: 30 USDC. *)
Definition thirtyUSDC : string :=
  "0x0000000000000000000000000000000000000000000000000000000001c9c380".

(** 29999999 base units. *)
Definition thirtyUSDCLessOne : string :=
  "0x0000000000000000000000000000000000000000000000000000000001c9c37f".

Definition sampleReceipt (outcome : string) (entries : list Log) : Receipt :=
  {| receiptStatus := outcome;
     receiptBlockNumber := 4242;
     receiptGasUsed := 65000;
     logs := entries |}.

(** A node that answers every receipt request with [answer]. *)
Definition sampleEnv (answer : ReceiptResult) : Env :=
  {| clients := {[ 10143 := true ]};
     getTransactionReceipt := fun _ _ _ => answer;
     getTransaction := fun _ _ _ =>
       TransactionFound {| from := samplePayer; gasPrice := Some 50 |};
     parseUnits := scaleExact;
     now := 1700000000000;
     sendEmail := fun _ => None |}.

Definition sampleBooking (key : string) (current : BookingStatus)
    (reservation : bool) : Booking :=
  {| id := "row-" +:+ key;
     bookingId := key;
     userId := Some "user-1";
     userEmail := Some "guest@example.org";
     stay := true;
     status := current;
     requiresReservation := reservation;
     paymentToken := Some "USDC";
     paymentAmount := Some (inject_Z 30);
     txHash := None;
     chainId := None;
     reservationAmount := if reservation then Some (inject_Z 30) else None;
     reservationToken := None;
     reservationTxHash := None;
     reservationPaid := false;
     reservationPaidAt := None;
     reservationChainId := None;
     remainingAmount := if reservation then Some (inject_Z 270) else None;
     remainingToken := None;
     remainingTxHash := None;
     remainingPaid := false;
     remainingPaidAt := None;
     remainingChainId := None;
     confirmedAt := None;
     totalPaid := None;
     blockNumber := None;
     senderAddress := None;
     receiverAddress := None;
     gasUsed := None;
     gasFeeUSD := None |}.

Definition sampleWorld (rows : list Booking) : World :=
  {| bookings := list_to_map (map (fun b => (bookingId b, b)) rows);
     activityLog := [];
     trace := [] |}.

Definition sampleBody (key : string) (remaining : bool) : SubmitBody :=
  {| bodyBookingId := Some key;
     bodyTxHash := Some sampleHash;
     bodyChainId := Some 10143;
     bodyPaymentToken := Some "USDC";
     bodyIsRemainingPayment := Some remaining |}.

(** ** Specification vocabulary *)

(** Every column but [status] agrees. *)
Definition sameExceptStatus (b b' : Booking) : Prop :=
  id b' = id b /\ bookingId b' = bookingId b /\ userId b' = userId b
  /\ userEmail b' = userEmail b /\ stay b' = stay b
  /\ requiresReservation b' = requiresReservation b
  /\ paymentToken b' = paymentToken b /\ paymentAmount b' = paymentAmount b
  /\ txHash b' = txHash b /\ chainId b' = chainId b
  /\ reservationAmount b' = reservationAmount b
  /\ reservationToken b' = reservationToken b
  /\ reservationTxHash b' = reservationTxHash b
  /\ reservationPaid b' = reservationPaid b
  /\ reservationPaidAt b' = reservationPaidAt b
  /\ reservationChainId b' = reservationChainId b
  /\ remainingAmount b' = remainingAmount b
  /\ remainingToken b' = remainingToken b
  /\ remainingTxHash b' = remainingTxHash b
  /\ remainingPaid b' = remainingPaid b
  /\ remainingPaidAt b' = remainingPaidAt b
  /\ remainingChainId b' = remainingChainId b
  /\ confirmedAt b' = confirmedAt b /\ totalPaid b' = totalPaid b
  /\ blockNumber b' = blockNumber b /\ senderAddress b' = senderAddress b
  /\ receiverAddress b' = receiverAddress b /\ gasUsed b' = gasUsed b
  /\ gasFeeUSD b' = gasFeeUSD b.

(** The activity log entry that [updateBookingStatus] writes for [FAILED]. *)
Definition failureEntry (booking : Booking) (details : list (string * JSON))
    : ActivityLog :=
  {| logBookingId := id booking;
     logUserId := userId booking;
     action := "payment_failed";
     entity := "booking";
     entityId := id booking;
     details := details |}.

(** The store after a terminal failure of the booking under [key]. *)
Definition failedWorld (key : string) (booking : Booking)
    (details : list (string * JSON)) (w : World) : World :=
  {| bookings := <[key := set_status FAILED booking]> (bookings w);
     activityLog := activityLog w ++ [failureEntry booking details];
     trace := trace w |}.



(** Receipts of the sample transaction: as paid, one base unit short,
    reverted, without any log, and paid to another address. *)
Definition okReceipt : Receipt :=
  sampleReceipt "success" [sampleTransfer treasuryAddress thirtyUSDC].

Definition shortReceipt : Receipt :=
  sampleReceipt "success" [sampleTransfer treasuryAddress thirtyUSDCLessOne].

Definition revertedReceipt : Receipt :=
  sampleReceipt "reverted" [sampleTransfer treasuryAddress thirtyUSDC].

Definition silentReceipt : Receipt := sampleReceipt "success" [].

Definition elsewhereReceipt : Receipt :=
  sampleReceipt "success" [sampleTransfer samplePayer thirtyUSDC].

(** A pending full-payment booking of 30 USDC. *)
Definition oneBooking : World := sampleWorld [sampleBooking "A" PENDING false].

(** A pending full-payment booking "A" of 30 USDC and a pending reservation
    booking "B" with a reservation of 30 USDC. *)
Definition twoBookings : World :=
  sampleWorld [sampleBooking "A" PENDING false; sampleBooking "B" PENDING true].

(** Booking "A" confirmed with the sample hash, next to a pending "B". *)
Definition spentWorld : World :=
  sampleWorld [set_status CONFIRMED
                 (set_txHash (Some sampleHash) (sampleBooking "A" PENDING false));
               sampleBooking "B" PENDING false].

(** A reservation booking past its reservation payment, with no
    [remainingToken]. *)
Definition reservedBooking : Booking :=
  set_reservationPaid true (set_status RESERVED (sampleBooking "B" PENDING true)).


Definition freshServer (w : World) : Server :=
  {| world := w; pending := []; responses := [] |}.


(** The reservation of "B" verified once, and verified a second time. *)
Definition verifiedOnce : World :=
  snd (verifyPayment (sampleEnv (ReceiptFound okReceipt)) "B" sampleHash 10143
         false 10 3000 (sampleWorld [sampleBooking "B" PENDING true])).

Definition verifiedTwice : World :=
  snd (verifyPayment (sampleEnv (ReceiptFound okReceipt)) "B" sampleHash 10143
         false 10 3000 verifiedOnce).

(** A submission whose verification runs to its end before anything else
    happens, and a sequence of such submissions, each with the node as it is
    at that time. *)
Definition submitAndVerify (env : Env) (body : SubmitBody) (w : World) : World :=
  match POST body w with
  | (_, w1, Some call) => snd (runVerification env call w1)
  | (_, w1, None) => w1
  end.

Definition serveSequential (requests : list (Env * SubmitBody)) (w : World) : World :=
  fold_left (fun acc request => submitAndVerify (fst request) (snd request) acc)
    requests w.




(** What a successful verification of [hash] makes of the row [b], on the
    columns that decide consumption. *)
Definition Settled (isRemainingPayment : bool) (hash : string) (b b' : Booking) : Prop :=
  requiresReservation b' = requiresReservation b
  /\ txHash b' = txHash b
  /\ if isReservationPayment (resolvePayment isRemainingPayment b) then
       status b' = RESERVED
       /\ reservationPaid b' = true /\ reservationTxHash b' = Some hash
       /\ remainingPaid b' = remainingPaid b
       /\ remainingTxHash b' = remainingTxHash b
     else if isRemainingPayment then
       status b' = CONFIRMED
       /\ remainingPaid b' = true /\ remainingTxHash b' = Some hash
       /\ reservationPaid b' = reservationPaid b
       /\ reservationTxHash b' = reservationTxHash b
     else
       status b' = CONFIRMED
       /\ reservationPaid b' = reservationPaid b
       /\ reservationTxHash b' = reservationTxHash b
       /\ remainingPaid b' = remainingPaid b
       /\ remainingTxHash b' = remainingTxHash b.

(** The two ways a verification changes the table: the row is marked
    failed, or it is settled. *)
Inductive Changed (isRemainingPayment : bool) (hash key : string)
    (m m' : gmap string Booking) : Prop :=
  | ChangedFailed (b : Booking) :
      m !! key = Some b ->
      m' = <[key := set_status FAILED b]> m ->
      Changed isRemainingPayment hash key m m'
  | ChangedSettled (b b' : Booking) :
      m !! key = Some b ->
      gate (resolvePayment isRemainingPayment b) = Proceed ->
      Settled isRemainingPayment hash b b' ->
      m' = <[key := b']> m ->
      Changed isRemainingPayment hash key m m'.



(** The same two submissions, each verified before the next is checked. *)
Definition sequentialRequests : list (Env * SubmitBody) :=
  [(sampleEnv (ReceiptFound okReceipt), sampleBody "A" false);
   (sampleEnv (ReceiptFound okReceipt), sampleBody "B" false)].

(** ** Vocabulary for what verification writes and calls *)

(** The [data] objects that [verifyPayment] passes to [db.booking.update],
    for a row [b] and a transaction [hash]. *)
Inductive VerificationWrite (hash : string) (b : Booking)
    : list (Booking -> Booking) -> Prop :=
  | WriteFailed :
      VerificationWrite hash b [set_status FAILED]
  | WriteReservation (env : Env) (chain : Z) (token : string) (receipt : Receipt)
      (tx : Transaction) :
      VerificationWrite hash b (reservationData env hash chain token receipt tx)
  | WriteRemaining (env : Env) (chain : Z) (amount : Q) (token : string) :
      VerificationWrite hash b (remainingData env hash chain b amount token)
  | WriteFull (env : Env) (receipt : Receipt) (tx : Transaction) :
      VerificationWrite hash b (fullData env b receipt tx).

(** The table after a step of a verification is the table before it, or
    the table with the row under [key] rewritten by one of the four
    updates. *)
Definition Wrote (hash key : string) (m m' : gmap string Booking) : Prop :=
  m' = m
  \/ exists b data,
       m !! key = Some b
       /\ VerificationWrite hash b data
       /\ m' = <[key := applyData data b]> m.

(** What the approval locked stays, and what was paid stays paid. *)
Definition keepsObligation (b b' : Booking) : Prop :=
  id b' = id b /\ bookingId b' = bookingId b /\ userId b' = userId b
  /\ userEmail b' = userEmail b /\ stay b' = stay b
  /\ requiresReservation b' = requiresReservation b
  /\ paymentToken b' = paymentToken b /\ paymentAmount b' = paymentAmount b
  /\ reservationAmount b' = reservationAmount b
  /\ remainingAmount b' = remainingAmount b
  /\ txHash b' = txHash b /\ chainId b' = chainId b
  /\ (reservationPaid b = true -> reservationPaid b' = true)
  /\ (remainingPaid b = true -> remainingPaid b' = true)
  /\ (status b' = status b \/ status b' = FAILED \/ status b' = RESERVED
      \/ status b' = CONFIRMED).

Definition isFetch (e : Effect) : bool :=
  match e with FetchReceipt _ _ => true | _ => false end.

Definition isTransactionRead (e : Effect) : bool :=
  match e with FetchTransaction _ _ => true | _ => false end.

Definition isSleep (e : Effect) : bool :=
  match e with Sleep _ => true | _ => false end.

Definition isMail (e : Effect) : bool :=
  match e with SendEmail _ => true | _ => false end.

Definition countIf (p : Effect -> bool) (t : list Effect) : nat :=
  length (List.filter p t).

(** The effects one pass through the [try] block can add to the trace. *)
Inductive AttemptTrace (chain : Z) (hash : string) (delay : Z)
    : Completion -> list Effect -> Prop :=
  | TraceNone (c : Completion) :
      c <> Continued -> AttemptTrace chain hash delay c []
  | TraceFetch (c : Completion) :
      c <> Continued -> AttemptTrace chain hash delay c [FetchReceipt chain hash]
  | TraceWait :
      AttemptTrace chain hash delay Continued
        [FetchReceipt chain hash; Sleep delay]
  | TraceRead (c : Completion) :
      c <> Continued ->
      AttemptTrace chain hash delay c
        [FetchReceipt chain hash; FetchTransaction chain hash]
  | TraceMail (mail : Email) :
      AttemptTrace chain hash delay Returned
        [FetchReceipt chain hash; FetchTransaction chain hash; SendEmail mail].

(** The update, the activity log action and the mail of the success path,
    by phase. *)
Definition settlementData (env : Env) (hash : string) (chain : Z)
    (isRemainingPayment : bool) (booking : Booking) (amount : Q)
    (receipt : Receipt) (tx : Transaction) : list (Booking -> Booking) :=
  let x := resolvePayment isRemainingPayment booking in
  if isReservationPayment x then
    reservationData env hash chain (expectedToken x) receipt tx
  else if isRemainingPayment then
    remainingData env hash chain booking amount (expectedToken x)
  else fullData env booking receipt tx.

Definition settlementAction (isRemainingPayment : bool) (booking : Booking) : string :=
  if isReservationPayment (resolvePayment isRemainingPayment booking)
  then "reservation_paid"
  else if isRemainingPayment then "remaining_payment_confirmed"
  else "payment_confirmed".

Definition settlementMail (hash : string) (chain : Z) (isRemainingPayment : bool)
    (booking : Booking) (amount : Q) (recipient : string) : Email :=
  let x := resolvePayment isRemainingPayment booking in
  if isReservationPayment x then
    {| kind := ReservationConfirmedEmail;
       recipientEmail := recipient;
       emailBookingId := bookingId booking;
       emailAmount := Some amount;
       emailToken := Some (expectedToken x);
       emailTxHash := hash;
       emailChainId := chain |}
  else if isRemainingPayment then
    {| kind := ConfirmationEmail;
       recipientEmail := recipient;
       emailBookingId := bookingId booking;
       emailAmount := Some (Qplus (orZero (reservationAmount booking)) amount);
       emailToken := Some (expectedToken x);
       emailTxHash := hash;
       emailChainId := chain |}
  else
    {| kind := ConfirmationEmail;
       recipientEmail := recipient;
       emailBookingId := bookingId booking;
       emailAmount := paymentAmount booking;
       emailToken := paymentToken booking;
       emailTxHash := hash;
       emailChainId := chain |}.

(** Whether the booking has someone to write to: [booking.user?.email &&
    booking.stay]. *)
Definition reachable (booking : Booking) : bool :=
  truthyOptString (userEmail booking) && stay booking.

(** The mail a settled booking is sent, if it has someone to write to. *)
Definition settlementMailOf (hash : string) (chain : Z) (isRemainingPayment : bool)
    (booking : Booking) (amount : Q) : option Email :=
  match userEmail booking with
  | Some recipient =>
      if truthyString recipient && stay booking
      then Some (settlementMail hash chain isRemainingPayment booking amount recipient)
      else None
  | None => None
  end.

(** The activity log entries a failing mail service leaves: one, and only
    after a reservation payment. *)
Definition mailFailures (env : Env) (hash : string) (chain : Z)
    (isRemainingPayment : bool) (booking : Booking) (amount : Q) : list ActivityLog :=
  match settlementMailOf hash chain isRemainingPayment booking amount with
  | Some mail =>
      match sendEmail env mail with
      | Some message =>
          if isReservationPayment (resolvePayment isRemainingPayment booking)
          then [successLog booking "email_failed"
                  [("error", JString message);
                   ("type", JString "reservation_confirmation_email")]]
          else []
      | None => []
      end
  | None => []
  end.

(** The store with further effects on its trace. *)
Definition emitAll (es : list Effect) (w : World) : World :=
  {| bookings := bookings w; activityLog := activityLog w; trace := trace w ++ es |}.



(** Whether an effect is one of the given verification: a read of its
    transaction on its chain, a wait of its delay, or a mail. *)
Definition ofVerification (chain : Z) (hash : string) (delay : Z) (e : Effect) : bool :=
  match e with
  | FetchReceipt c h => bool_decide (c = chain) && bool_decide (h = hash)
  | FetchTransaction c h => bool_decide (c = chain) && bool_decide (h = hash)
  | Sleep ms => bool_decide (ms = delay)
  | SendEmail _ => true
  end.

(** Booking "A" after the verification of its full payment. *)
Definition paidInFull : World :=
  snd (verifyPayment (sampleEnv (ReceiptFound okReceipt)) "A" sampleHash 10143
         false 10 3000 oneBooking).

(** ** Vocabulary for submissions *)

(** Every column but [chainId] and the three transaction-hash columns
    agrees. *)
Definition sameExceptSubmission (b b' : Booking) : Prop :=
  id b' = id b /\ bookingId b' = bookingId b /\ userId b' = userId b
  /\ userEmail b' = userEmail b /\ stay b' = stay b /\ status b' = status b
  /\ requiresReservation b' = requiresReservation b
  /\ paymentToken b' = paymentToken b /\ paymentAmount b' = paymentAmount b
  /\ reservationAmount b' = reservationAmount b
  /\ reservationToken b' = reservationToken b
  /\ reservationPaid b' = reservationPaid b
  /\ reservationPaidAt b' = reservationPaidAt b
  /\ reservationChainId b' = reservationChainId b
  /\ remainingAmount b' = remainingAmount b
  /\ remainingToken b' = remainingToken b
  /\ remainingPaid b' = remainingPaid b
  /\ remainingPaidAt b' = remainingPaidAt b
  /\ remainingChainId b' = remainingChainId b
  /\ confirmedAt b' = confirmedAt b /\ totalPaid b' = totalPaid b
  /\ blockNumber b' = blockNumber b /\ senderAddress b' = senderAddress b
  /\ receiverAddress b' = receiverAddress b /\ gasUsed b' = gasUsed b
  /\ gasFeeUSD b' = gasFeeUSD b.

(** The request body with another [paymentToken]. *)
Definition withToken (token : option string) (body : SubmitBody) : SubmitBody :=
  {| bodyBookingId := bodyBookingId body;
     bodyTxHash := bodyTxHash body;
     bodyChainId := bodyChainId body;
     bodyPaymentToken := token;
     bodyIsRemainingPayment := bodyIsRemainingPayment body |}.

(** A remaining-payment submission for booking "A", which needs no
    reservation. *)
Definition remainingForFull : Server :=
  serve (sampleEnv (ReceiptFound okReceipt)) (freshServer oneBooking)
    [Submit (sampleBody "A" true); Run 0].

(** ** The client table ([lib/web3-client.ts]) *)

(** [clients[chainId] !== null]: the entry of a chain without one is
    [undefined], which is not [null]. *)
Definition isChainSupported (env : Env) (chainId : Z) : bool :=
  match clients env !! chainId with
  | Some ready => ready
  | None => true
  end.

(** [Object.keys(clients).map(Number).filter(chainId => clients[chainId] !==
    null)]; the keys come in the order of the table's representation. *)
Definition getSupportedChainIds (env : Env) : list Z :=
  List.filter (isChainSupported env) (map fst (map_to_list (clients env))).

(** ** The booking page ([handlePay] of the payment page) *)

Module Page.

(** [booking.requiresReservation && !booking.reservationPaid] *)
Definition isReservationPayment (booking : Booking) : bool :=
  requiresReservation booking && negb (reservationPaid booking).

(** [booking.requiresReservation && booking.reservationPaid &&
    !booking.remainingPaid] *)
Definition isRemainingPayment (booking : Booking) : bool :=
  requiresReservation booking && reservationPaid booking
  && negb (remainingPaid booking).

(** The body that the page posts to [/api/payments/submit-payment] once the
    wallet has returned the hash [tx]. *)
Definition submission (booking : Booking) (tx : string) (selectedChain : Z)
    (selectedToken : string) : SubmitBody :=
  {| bodyBookingId := Some (bookingId booking);
     bodyTxHash := Some tx;
     bodyChainId := Some selectedChain;
     bodyPaymentToken := Some selectedToken;
     bodyIsRemainingPayment := Some (isRemainingPayment booking) |}.

End Page.

(** ** Rejection of a waitlisted booking
    ([POST /api/admin/bookings/[bookingId]/reject]) *)

(** The responses of the handler: 404, 409 with the current status, and
    the success object with [emailSent] and the booking's id and status. *)
Inductive RejectResponse :=
  | RejectNotFound
  | RejectConflict (message : string) (currentStatus : BookingStatus)
  | RejectDone (emailSent : bool) (key : string) (newStatus : BookingStatus)
  | RejectError (message : string).

Definition rejectStatus (response : RejectResponse) : Z :=
  match response with
  | RejectNotFound => 404
  | RejectConflict _ _ => 409
  | RejectDone _ _ _ => 200
  | RejectError _ => 500
  end.

(** The handler, for the [reason] of the body ([None] when the body has
    none, which the destructuring replaces by its default). *)
Definition rejectBooking (key : string) (reason : option JSON) (w : World)
    : RejectResponse * World :=
  let reason := default (JString "Application rejected by admin") reason in
  match bookings w !! key with
  | None => (RejectNotFound, w)
  | Some booking =>
      if negb (bool_decide (status booking = WAITLISTED)) then
        (RejectConflict
           ("Cannot reject. Booking status is: " +:+ statusName (status booking))
           (status booking), w)
      else
        match bookingUpdate key [set_status CANCELLED] w with
        | None => (RejectError recordNotFound, w)
        | Some w1 =>
            let updatedBooking := bookings w1 !! key in
            let w2 :=
              activityLogCreate
                {| logBookingId := id booking;
                   logUserId := userId booking;
                   action := "waitlist_rejected";
                   entity := "booking";
                   entityId := id booking;
                   details :=
                     [("previousStatus", JString (statusName WAITLISTED));
                      ("newStatus", JString (statusName CANCELLED));
                      ("reason", reason)] |} w1 in
            let emailSent := truthyOptString (userEmail booking) in
            match updatedBooking with
            | Some updated =>
                (RejectDone emailSent (bookingId updated) (status updated), w2)
            | None => (RejectError recordNotFound, w2)
            end
        end
  end.

(** A waitlisted booking "A". *)
Definition waitlisted : World := sampleWorld [sampleBooking "A" WAITLISTED false].

(** The receipt with other logs. *)
Definition withLogs (entries : list Log) (receipt : Receipt) : Receipt :=
  {| receiptStatus := receiptStatus receipt;
     receiptBlockNumber := receiptBlockNumber receipt;
     receiptGasUsed := receiptGasUsed receipt;
     logs := entries |}.

(** Whether two nullable strings agree up to the case of their letters. *)
Definition sameLetters (a b : option string) : Prop :=
  toLowerCase <$> a = toLowerCase <$> b.

(** Booking "A" submitted with the sample hash and confirmed. *)
Definition submittedAndPaid : World :=
  world (serve (sampleEnv (ReceiptFound okReceipt)) (freshServer oneBooking)
           [Submit (sampleBody "A" false); Run 0]).

(** ** Vocabulary for the audit trail *)

(** The [action]s of the activity log entries that a verification writes. *)
Definition verificationActions : list string :=
  ["payment_failed"; "reservation_paid"; "remaining_payment_confirmed";
   "payment_confirmed"; "email_failed"].

(** An activity log entry of a verification of the booking [b]. *)
Definition verificationEntry (b : Booking) (e : ActivityLog) : bool :=
  bool_decide (logBookingId e = id b) && bool_decide (logUserId e = userId b)
  && bool_decide (entity e = "booking") && bool_decide (entityId e = id b)
  && bool_decide (action e ∈ verificationActions).

(** The activity log has gained one or two entries about [b]. *)
Definition Logged (b : Booking) (w w' : World) : Prop :=
  exists entries,
    activityLog w' = (activityLog w ++ entries)%list
    /\ (1 <= length entries <= 2)%nat
    /\ forallb (verificationEntry b) entries = true.

(** Bookings and activity log are as they were. *)
Definition Untouched (w w' : World) : Prop :=
  bookings w' = bookings w /\ activityLog w' = activityLog w.

(** A second transaction hash, and a submission of it for booking "A". *)
Definition otherHash : string :=
  "0x3333333333333333333333333333333333333333333333333333333333333333".

Definition otherBody : SubmitBody :=
  {| bodyBookingId := Some "A";
     bodyTxHash := Some otherHash;
     bodyChainId := Some 10143;
     bodyPaymentToken := Some "USDC";
     bodyIsRemainingPayment := Some false |}.

(** Booking "A" submitted with the sample hash and then, before any
    verification has run, with the other hash. *)
Definition twiceSubmitted : World :=
  world (serve (sampleEnv (ReceiptFound okReceipt)) (freshServer oneBooking)
           [Submit (sampleBody "A" false); Submit otherBody]).

(** ** Loyalty ([GET /api/user/check-loyalty]) *)

(** The responses of the handler: 401, 400, and the two 200 answers. *)
Inductive LoyaltyResponse :=
  | LoyaltyUnauthenticated
  | LoyaltyNoUser
  | LoyaltyNone
  | LoyaltyGranted (discountPercent : Z) (previousBookingsCount : nat) (tier : string).

(** The filter [{ userId, status: 'CONFIRMED' }]. *)
Definition isConfirmedFor (user : string) (b : Booking) : bool :=
  bool_decide (userId b = Some user) && bool_decide (status b = CONFIRMED).

(** [prisma.booking.findMany({ where: { userId, status: 'CONFIRMED' } })],
    on the [booking] table of the payment flow; of the rows found the handler
    uses the number only. *)
Definition confirmedBookings (user : string) (w : World) : gmap string Booking :=
  filter (fun row => isConfirmedFor user row.2 = true) (bookings w).

(** The handler, for the session of the request: [None] without session or
    user, [Some None] for a user without id. *)
Definition checkLoyalty (session : option (option string)) (w : World)
    : LoyaltyResponse :=
  match session with
  | None => LoyaltyUnauthenticated
  | Some user =>
      if negb (truthyOptString user) then LoyaltyNoUser
      else
        let bookingCount := size (confirmedBookings (default "" user) w) in
        if (1 <=? bookingCount)%nat then
          LoyaltyGranted
            (if (5 <=? bookingCount)%nat then 25
             else if (3 <=? bookingCount)%nat then 20 else 20)
            bookingCount
            (if (5 <=? bookingCount)%nat then "platinum"
             else if (3 <=? bookingCount)%nat then "gold" else "silver")
        else LoyaltyNone
  end.

(** One for a row that counts for [user], zero for one that does not. *)
Definition counts (user : string) (b : Booking) : nat :=
  if isConfirmedFor user b then 1 else 0.

(** The reservation of "B" submitted twice before it is verified, and both
    verifications run. *)
Definition doubleSubmission : Server :=
  serve (sampleEnv (ReceiptFound okReceipt))
    (freshServer (sampleWorld [sampleBooking "B" PENDING true]))
    [Submit (sampleBody "B" false); Submit (sampleBody "B" false); Run 0; Run 0].

(** A reservation booking that agrees with [b] on what the remainder is,
    with the same [amount] as reservation and as locked payment amount. *)
Definition reserves (b : Booking) (amount : Q) (paid : bool)
    (current : BookingStatus) (b' : Booking) : Prop :=
  requiresReservation b' = true /\ reservationPaid b' = paid
  /\ status b' = current
  /\ reservationAmount b' = Some amount /\ paymentAmount b' = Some amount
  /\ paymentToken b' = paymentToken b
  /\ remainingPaid b' = remainingPaid b /\ remainingAmount b' = remainingAmount b.

(** * Properties *)

(** ** Rows and updates *)

Lemma set_status_same (v : BookingStatus) (b : Booking) :
  sameExceptStatus b (set_status v b).
Proof. destruct b; repeat split. Qed.

Lemma set_status_status (v : BookingStatus) (b : Booking) :
  status (set_status v b) = v.
Proof. by destruct b. Qed.

Lemma set_status_id (v : BookingStatus) (b : Booking) :
  id (set_status v b) = id b /\ userId (set_status v b) = userId b.
Proof. by destruct b. Qed.

Lemma bookingUpdate_found (key : string) (data : list (Booking -> Booking))
    (w : World) (b : Booking) :
  bookings w !! key = Some b ->
  bookingUpdate key data w
  = Some (withBookings (<[key := applyData data b]> (bookings w)) w).
Proof. intros Hb. unfold bookingUpdate. by rewrite Hb. Qed.

Lemma updateBookingStatus_found (key : string) (v : BookingStatus)
    (details : list (string * JSON)) (w : World) (b : Booking) :
  bookings w !! key = Some b ->
  updateBookingStatus key v details w
  = Some {| bookings := <[key := set_status v b]> (bookings w);
            activityLog :=
              activityLog w
              ++ [{| logBookingId := id b;
                     logUserId := userId b;
                     action := "payment_" +:+ toLowerCase (statusName v);
                     entity := "booking";
                     entityId := id b;
                     details := details |}];
            trace := trace w |}.
Proof.
  intros Hb. unfold updateBookingStatus.
  rewrite (bookingUpdate_found _ _ _ _ Hb). cbn [withBookings bookings applyData fold_left].
  rewrite lookup_insert_eq.
  destruct (set_status_id v b) as [-> ->]. reflexivity.
Qed.

Lemma updateBookingStatus_failed (key : string) (details : list (string * JSON))
    (w : World) (b : Booking) :
  bookings w !! key = Some b ->
  updateBookingStatus key FAILED details w = Some (failedWorld key b details w).
Proof. intros Hb. by rewrite (updateBookingStatus_found _ _ _ _ _ Hb). Qed.

(** C10: [updateBookingStatus] replaces the status of the row under
    [bookingId] by the given value, whatever the row's current status and
    flags, and leaves every other column of that row, and every other row,
    as it was; it appends one activity log entry. *)
Theorem updateBookingStatus_frame (key : string) (newStatus : BookingStatus)
    (details : list (string * JSON)) (w : World) (b : Booking) :
  bookings w !! key = Some b ->
  exists w' b',
    updateBookingStatus key newStatus details w = Some w'
    /\ bookings w' !! key = Some b'
    /\ status b' = newStatus
    /\ sameExceptStatus b b'
    /\ (forall other, other <> key -> bookings w' !! other = bookings w !! other)
    /\ length (activityLog w') = S (length (activityLog w))
    /\ trace w' = trace w.
Proof.
  intros Hb. eexists _, (set_status newStatus b).
  split; [exact (updateBookingStatus_found _ _ details _ _ Hb)|].
  cbn [bookings activityLog trace].
  split; [apply lookup_insert_eq|].
  split; [apply set_status_status|].
  split; [apply set_status_same|].
  split; [intros other Hne; by apply lookup_insert_ne|].
  split; [|reflexivity].
  rewrite length_app. cbn. lia.
Qed.

Lemma updateBookingStatus_frame_witness :
  exists w' b',
    updateBookingStatus "A" FAILED []
      (sampleWorld [sampleBooking "A" CONFIRMED true]) = Some w'
    /\ bookings w' !! "A" = Some b'
    /\ status b' = FAILED
    /\ sameExceptStatus (sampleBooking "A" CONFIRMED true) b'
    /\ (forall other, other <> "A" ->
        bookings w' !! other
        = bookings (sampleWorld [sampleBooking "A" CONFIRMED true]) !! other)
    /\ length (activityLog w')
       = S (length (activityLog (sampleWorld [sampleBooking "A" CONFIRMED true])))
    /\ trace w' = trace (sampleWorld [sampleBooking "A" CONFIRMED true]).
Proof.
  apply (updateBookingStatus_frame "A" FAILED []
           (sampleWorld [sampleBooking "A" CONFIRMED true])
           (sampleBooking "A" CONFIRMED true)).
  vm_compute. reflexivity.
Defined.

(** ** Idempotency guard *)

Lemma usesTransaction_spec (hash : string) (b : Booking) :
  usesTransaction hash b = true <->
  (txHash b = Some hash /\ status b = CONFIRMED)
  \/ (reservationTxHash b = Some hash /\ reservationPaid b = true)
  \/ (remainingTxHash b = Some hash /\ remainingPaid b = true).
Proof.
  unfold usesTransaction.
  rewrite !orb_true_iff, !andb_true_iff, !bool_decide_eq_true. tauto.
Qed.

Lemma checkTransactionUsed_spec (hash : string) (w : World) :
  checkTransactionUsed hash w = true <->
  exists key b, bookings w !! key = Some b /\ usesTransaction hash b = true.
Proof. unfold checkTransactionUsed. by rewrite bool_decide_eq_true. Qed.

Lemma consumed_spec (hash key : string) (phase : Phase) (w : World) :
  consumed hash key phase w = true <->
  exists b, bookings w !! key = Some b
    /\ match phase with
       | FullPayment => txHash b = Some hash /\ status b = CONFIRMED
       | ReservationPhase => reservationTxHash b = Some hash /\ reservationPaid b = true
       | RemainingPhase => remainingTxHash b = Some hash /\ remainingPaid b = true
       end.
Proof.
  unfold consumed, binds. destruct (bookings w !! key) as [b|].
  - destruct phase; rewrite andb_true_iff, ?bool_decide_eq_true;
      (split; [intros H; by exists b | by intros (b' & [= <-] & H)]).
  - split; [discriminate | by intros (b' & [=] & _)].
Qed.

Lemma checkTransactionUsed_consumed (hash : string) (w : World) :
  checkTransactionUsed hash w = true <->
  exists key phase, consumed hash key phase w = true.
Proof.
  rewrite checkTransactionUsed_spec. split.
  - intros (key & b & Hb & Hu). exists key.
    apply usesTransaction_spec in Hu as [H|[H|H]];
      [exists FullPayment | exists ReservationPhase | exists RemainingPhase];
      apply consumed_spec; eauto.
  - intros (key & phase & Hc). apply consumed_spec in Hc as (b & Hb & Hc).
    exists key, b. split; [done|]. apply usesTransaction_spec.
    destruct phase; tauto.
Qed.

Lemma POST_used (body : SubmitBody) (w : World) (key hash : string) (chain : Z)
    (token : string) :
  requiredFields body = Some (key, hash, chain, token) ->
  isTxHashFormat hash = true ->
  checkTransactionUsed hash w = true ->
  POST body w
  = (errorResponse 409 "This transaction has already been used for another payment"
       [("code", JString "TRANSACTION_ALREADY_USED")], w, None).
Proof. intros Hf Hx Hu. unfold POST. by rewrite Hf, Hx, Hu. Qed.

Lemma requiredFields_txHash (body : SubmitBody) (key hash : string) (chain : Z)
    (token : string) :
  requiredFields body = Some (key, hash, chain, token) ->
  bodyTxHash body = Some hash.
Proof.
  unfold requiredFields.
  destruct (bodyBookingId body), (bodyTxHash body), (bodyChainId body),
    (bodyPaymentToken body); try discriminate.
  case_match; congruence.
Qed.

(** C8: the guard answers [true] exactly when some booking holds the hash as
    its full-payment hash with status [CONFIRMED], or as its reservation hash
    with [reservationPaid], or as its remaining hash with [remainingPaid];
    and a submission that reaches the guard with such a hash is answered 409
    with code [TRANSACTION_ALREADY_USED], the store being left as it was and
    no verification started. *)
Theorem isTransactionUsed_guard (hash : string) (w : World) :
  (checkTransactionUsed hash w = true <->
   exists key b, bookings w !! key = Some b
     /\ ((txHash b = Some hash /\ status b = CONFIRMED)
         \/ (reservationTxHash b = Some hash /\ reservationPaid b = true)
         \/ (remainingTxHash b = Some hash /\ remainingPaid b = true)))
  /\ (forall body key chain token,
        requiredFields body = Some (key, hash, chain, token) ->
        isTxHashFormat hash = true ->
        checkTransactionUsed hash w = true ->
        exists response,
          POST body w = (response, w, None)
          /\ httpStatus response = 409
          /\ In ("code", JString "TRANSACTION_ALREADY_USED") (responseBody response)).
Proof.
  split.
  - rewrite checkTransactionUsed_spec.
    split; intros (key & b & Hb & H); exists key, b; split; try done;
      by apply usesTransaction_spec.
  - intros body key chain token Hf Hx Hu. eexists. split.
    + exact (POST_used _ _ _ _ _ _ Hf Hx Hu).
    + split; [reflexivity|]. cbn. auto.
Qed.

Lemma isTransactionUsed_guard_witness :
  exists response,
    POST (sampleBody "B" false) spentWorld = (response, spentWorld, None)
    /\ httpStatus response = 409
    /\ In ("code", JString "TRANSACTION_ALREADY_USED") (responseBody response).
Proof.
  apply (proj2 (isTransactionUsed_guard sampleHash spentWorld) (sampleBody "B" false)
           "B" 10143 "USDC"); vm_compute; reflexivity.
Defined.

(** ** Amount and token resolver *)

Lemma orElse_spec (a : option string) (d : string) :
  orElse a d = if truthyOptString a then default d a else d.
Proof. by destruct a as [[|c s]|]. Qed.

(** C7, as the code has it: the three rules apply in priority order, each
    token falling back to the booking's [paymentToken] and then to "USDC";
    the remaining phase throws when [reservationPaid] is false. *)
Theorem resolvePayment_rules (isRemainingPayment : bool) (booking : Booking) :
  let x := resolvePayment isRemainingPayment booking in
  (requiresReservation booking = true -> reservationPaid booking = false ->
   isRemainingPayment = false ->
     isReservationPayment x = true
     /\ expectedAmount x = reservationAmount booking
     /\ expectedToken x
        = orElse (reservationToken booking) (orElse (paymentToken booking) "USDC"))
  /\ (~ (requiresReservation booking = true /\ reservationPaid booking = false
         /\ isRemainingPayment = false) ->
      isRemainingPayment = true ->
        isReservationPayment x = false
        /\ expectedAmount x = remainingAmount booking
        /\ expectedToken x
           = orElse (remainingToken booking) (orElse (paymentToken booking) "USDC")
        /\ (reservationPaid booking = false -> gate x = Violation PhaseOrderViolation)
        /\ (reservationPaid booking = true -> gate x <> Violation PhaseOrderViolation))
  /\ (~ (requiresReservation booking = true /\ reservationPaid booking = false
         /\ isRemainingPayment = false) ->
      isRemainingPayment = false ->
        isReservationPayment x = false
        /\ expectedAmount x = paymentAmount booking
        /\ expectedToken x = orElse (paymentToken booking) "USDC").
Proof.
  unfold resolvePayment.
  destruct (requiresReservation booking), (reservationPaid booking),
    isRemainingPayment; cbn; repeat split; try done; try tauto;
    intros; case_match; try done.
Qed.

Lemma resolvePayment_rules_witness :
  let x := resolvePayment false (sampleBooking "A" PENDING true) in
  isReservationPayment x = true
  /\ expectedAmount x = Some (inject_Z 30)
  /\ expectedToken x = "USDC".
Proof.
  apply (proj1 (resolvePayment_rules false (sampleBooking "A" PENDING true)));
    reflexivity.
Defined.

(** C7 as stated fails on the token of rule 2: with no [remainingToken] the
    resolver yields the booking's [paymentToken], not an absent token. *)
Lemma resolvePayment_token_fallback_counterexample :
  reservationPaid reservedBooking = true
  /\ gate (resolvePayment true reservedBooking) = Proceed
  /\ remainingToken reservedBooking = None
  /\ expectedToken (resolvePayment true reservedBooking) = "USDC"
  /\ Some (expectedToken (resolvePayment true reservedBooking))
     <> remainingToken reservedBooking.
Proof. cbn. repeat split. discriminate. Qed.

(** ** One attempt *)

Section Attempt.

Variable env : Env.
Variables (key hash : string) (chain : Z) (isRemainingPayment : bool).
Variables (maxRetries : nat) (retryDelayMs : Z).

Local Abbreviation tryBlock' :=
  (tryBlock env key hash chain isRemainingPayment maxRetries retryDelayMs).
Local Abbreviation iteration' :=
  (iteration env key hash chain isRemainingPayment maxRetries retryDelayMs).
Local Abbreviation retryLoop' :=
  (retryLoop env key hash chain isRemainingPayment maxRetries retryDelayMs).

Lemma markFailed_found (details : list (string * JSON)) (retryCount : nat)
    (w : World) (b : Booking) :
  bookings w !! key = Some b ->
  markFailed key details retryCount w
  = (Returned, retryCount, failedWorld key b details w).
Proof.
  intros Hb. unfold markFailed. by rewrite (updateBookingStatus_failed _ _ _ _ Hb).
Qed.

(** An attempt on a booking that passes the phase checks, with its payment
    details locked and a client for the chain, reaches the receipt fetch. *)
Lemma tryBlock_fetch (retryCount : nat) (w : World) (booking : Booking) (amount : Q) :
  bookings w !! key = Some booking ->
  gate (resolvePayment isRemainingPayment booking) = Proceed ->
  lockedAmount (resolvePayment isRemainingPayment booking) = Some amount ->
  getPublicClient env chain = true ->
  tryBlock' retryCount w
  = let x := resolvePayment isRemainingPayment booking in
    let w1 := emit (FetchReceipt chain hash) w in
    match getTransactionReceipt env chain hash retryCount with
    | ReceiptError message => (Thrown message, retryCount, w1)
    | ReceiptNull =>
        if (S retryCount <? maxRetries)%nat then
          (Continued, S retryCount, emit (Sleep retryDelayMs) w1)
        else
          markFailed key
            (("error", JString VerificationTimeout) :: phaseFlags isRemainingPayment x)
            (S retryCount) w1
    | ReceiptFound receipt =>
        if negb (truthyString (receiptStatus receipt))
           || negb (bool_decide (receiptStatus receipt = "success"))
        then
          markFailed key
            (("error", JString TransactionReverted) :: phaseFlags isRemainingPayment x)
            retryCount w1
        else matchTransfer env key hash chain isRemainingPayment booking x amount
               receipt retryCount w1
    end.
Proof.
  intros Hb Hg Hl Hc. unfold tryBlock. rewrite Hb, Hg, Hl, Hc. reflexivity.
Qed.

Lemma retryLoop_exit (fuel retryCount : nat) (w w' : World) :
  (retryCount < maxRetries)%nat ->
  iteration' retryCount w = (Exit, w') ->
  retryLoop' (S fuel) retryCount w = (Resolved, w').
Proof.
  intros Hlt Hit. cbn [retryLoop].
  apply Nat.ltb_lt in Hlt. by rewrite Hlt, Hit.
Qed.

Lemma retryLoop_next (fuel retryCount retryCount' : nat) (w w' : World) :
  (retryCount < maxRetries)%nat ->
  iteration' retryCount w = (Next retryCount', w') ->
  retryLoop' (S fuel) retryCount w = retryLoop' fuel retryCount' w'.
Proof.
  intros Hlt Hit. cbn [retryLoop].
  apply Nat.ltb_lt in Hlt. by rewrite Hlt, Hit.
Qed.

Lemma retryLoop_done (fuel retryCount : nat) (w : World) :
  (maxRetries <= retryCount)%nat ->
  retryLoop' fuel retryCount w = (Resolved, w).
Proof.
  intros Hge. destruct fuel; [done|]. cbn [retryLoop].
  apply Nat.ltb_ge in Hge. by rewrite Hge.
Qed.

(** Every iteration that goes on has raised [retryCount]. *)
Lemma iteration_progress (retryCount retryCount' : nat) (w w' : World) :
  iteration' retryCount w = (Next retryCount', w') ->
  (retryCount < retryCount')%nat.
Proof.
  unfold iteration.
  destruct (tryBlock' retryCount w) as [[c n] w1] eqn:Htry.
  assert (retryCount <= n)%nat as Hle.
  { revert Htry. unfold tryBlock, matchTransfer, confirmPayment, markFailed.
    repeat case_match; intros [= <- <- <-]; lia. }
  destruct c; [discriminate| |].
  - intros [= <- <-].
    revert Htry. unfold tryBlock, matchTransfer, confirmPayment, markFailed.
    repeat case_match; intros [= <- <-]; lia.
  - repeat case_match; intros [= <- <-]; lia.
Qed.

(** [maxRetries] units of fuel are enough: more fuel gives the same result. *)
Lemma retryLoop_fuel (fuel retryCount : nat) (w : World) :
  (maxRetries <= fuel + retryCount)%nat ->
  retryLoop' (S fuel) retryCount w = retryLoop' fuel retryCount w.
Proof.
  revert retryCount w. induction fuel as [|fuel IH]; intros retryCount w Hle.
  - rewrite !retryLoop_done by lia. reflexivity.
  - destruct (decide (retryCount < maxRetries)%nat) as [Hlt|Hge].
    + destruct (iteration' retryCount w) as [[| n |m] w'] eqn:Hit.
      * by rewrite !(retryLoop_exit _ _ _ _ Hlt Hit).
      * rewrite (retryLoop_next (S fuel) _ _ _ _ Hlt Hit).
        rewrite (retryLoop_next fuel _ _ _ _ Hlt Hit).
        apply IH. apply iteration_progress in Hit. lia.
      * cbn [retryLoop]. apply Nat.ltb_lt in Hlt. by rewrite Hlt, Hit.
    + rewrite !retryLoop_done by lia. reflexivity.
Qed.

Lemma verifyPayment_fuel (extra : nat) (w : World) :
  retryLoop' (extra + maxRetries) 0 w
  = verifyPayment env key hash chain isRemainingPayment maxRetries retryDelayMs w.
Proof.
  unfold verifyPayment. induction extra as [|extra IH]; [done|].
  cbn [Nat.add]. rewrite retryLoop_fuel by lia. exact IH.
Qed.

End Attempt.

(** ** Retry budget *)

Section Exhaustion.

Variable env : Env.
Variables (key hash : string) (chain : Z) (isRemainingPayment : bool).
Variables (maxRetries : nat) (retryDelayMs : Z).
Variables (booking : Booking) (amount : Q).

Hypothesis Hgate : gate (resolvePayment isRemainingPayment booking) = Proceed.
Hypothesis Hlocked :
  lockedAmount (resolvePayment isRemainingPayment booking) = Some amount.
Hypothesis Hclient : getPublicClient env chain = true.
Hypothesis Hnull : forall n, (n < maxRetries)%nat ->
  getTransactionReceipt env chain hash n = ReceiptNull.

Local Abbreviation iteration' :=
  (iteration env key hash chain isRemainingPayment maxRetries retryDelayMs).
Local Abbreviation retryLoop' :=
  (retryLoop env key hash chain isRemainingPayment maxRetries retryDelayMs).







End Exhaustion.


(** ** Receipt checks and transfer-log matching *)

Lemma failedWorld_status (key : string) (booking : Booking)
    (details : list (string * JSON)) (w : World) :
  status <$> bookings (failedWorld key booking details w) !! key = Some FAILED.
Proof.
  cbn [failedWorld bookings]. rewrite lookup_insert_eq. cbn.
  by rewrite set_status_status.
Qed.

Lemma reverted_test (outcome : string) :
  negb (truthyString outcome) || negb (bool_decide (outcome = "success")) = true
  <-> outcome <> "success".
Proof.
  rewrite orb_true_iff, !negb_true_iff, bool_decide_eq_false.
  split; [|tauto]. intros [H|H]; [|done]. by destruct outcome.
Qed.

Section Matching.

Variable env : Env.
Variables (key hash : string) (chain : Z) (isRemainingPayment : bool).
Variables (maxRetries : nat) (retryDelayMs : Z).
Variables (booking : Booking) (amount : Q) (receipt : Receipt).
Variables (retryCount : nat) (w : World).

Hypothesis Hrow : bookings w !! key = Some booking.
Hypothesis Hgate : gate (resolvePayment isRemainingPayment booking) = Proceed.
Hypothesis Hlocked :
  lockedAmount (resolvePayment isRemainingPayment booking) = Some amount.
Hypothesis Hclient : getPublicClient env chain = true.
Hypothesis Hreceipt :
  getTransactionReceipt env chain hash retryCount = ReceiptFound receipt.
Hypothesis Hbudget : (retryCount < maxRetries)%nat.

Local Abbreviation x := (resolvePayment isRemainingPayment booking).
Local Abbreviation w1 := (emit (FetchReceipt chain hash) w).
Local Abbreviation tryBlock' :=
  (tryBlock env key hash chain isRemainingPayment maxRetries retryDelayMs).
Local Abbreviation iteration' :=
  (iteration env key hash chain isRemainingPayment maxRetries retryDelayMs).
Local Abbreviation retryLoop' :=
  (retryLoop env key hash chain isRemainingPayment maxRetries retryDelayMs).

Lemma tryBlock_reverted :
  receiptStatus receipt <> "success" ->
  tryBlock' retryCount w
  = (Returned, retryCount,
     failedWorld key booking
       (("error", JString TransactionReverted) :: phaseFlags isRemainingPayment x) w1).
Proof.
  intros Hrev.
  rewrite (tryBlock_fetch _ _ _ _ _ _ _ _ _ _ _ Hrow Hgate Hlocked Hclient).
  cbn zeta. rewrite Hreceipt.
  apply reverted_test in Hrev. rewrite Hrev.
  by apply markFailed_found.
Qed.

Lemma tryBlock_success :
  receiptStatus receipt = "success" ->
  tryBlock' retryCount w
  = matchTransfer env key hash chain isRemainingPayment booking x amount receipt
      retryCount w1.
Proof.
  intros Hok.
  rewrite (tryBlock_fetch _ _ _ _ _ _ _ _ _ _ _ Hrow Hgate Hlocked Hclient).
  cbn zeta. rewrite Hreceipt.
  destruct (negb (truthyString (receiptStatus receipt))
            || negb (bool_decide (receiptStatus receipt = "success"))) eqn:Htest;
    [|done].
  by apply reverted_test in Htest.
Qed.

Lemma returned_stops (w' : World) (fuel : nat) :
  tryBlock' retryCount w = (Returned, retryCount, w') ->
  retryLoop' (S fuel) retryCount w = (Resolved, w').
Proof.
  intros Htry. apply retryLoop_exit; [done|]. unfold iteration. by rewrite Htry.
Qed.

Section Configured.

Variables (chainInfo : ChainConfig) (tokenInfo : TokenConfig) (expectedBaseUnits : Z).

Hypothesis Hsuccess : receiptStatus receipt = "success".
Hypothesis Hchain : chainConfig !! chain = Some chainInfo.
Hypothesis Htoken : tokens chainInfo !! expectedToken x = Some tokenInfo.
Hypothesis Hunits : parseUnits env amount (decimals tokenInfo) = Some expectedBaseUnits.

Local Abbreviation transferLogs :=
  (List.filter (isTransferLog (toLowerCase (tokenAddress tokenInfo))) (logs receipt)).

Lemma tryBlock_no_transfer :
  transferLogs = [] ->
  tryBlock' retryCount w
  = (Returned, retryCount,
     failedWorld key booking
       ([("error", JString NoTransferEvent);
         ("chainId", JNumber (inject_Z chain));
         ("tokenAddress", JString (tokenAddress tokenInfo));
         ("txHash", JString hash)] ++ phaseFlags isRemainingPayment x) w1).
Proof.
  intros Hnone. rewrite (tryBlock_success Hsuccess). unfold matchTransfer.
  rewrite Hchain, Htoken, Hunits, Hnone. cbn [length Nat.eqb].
  by apply markFailed_found.
Qed.

Lemma tryBlock_wrong_recipient :
  transferLogs <> [] ->
  (forall log, In log transferLogs -> isToTreasury log = false) ->
  tryBlock' retryCount w
  = (Returned, retryCount,
     failedWorld key booking
       ([("error", JString WrongRecipient);
         ("expectedTreasury", JString treasuryAddress)]
        ++ phaseFlags isRemainingPayment x) w1).
Proof.
  intros Hsome Hnone. rewrite (tryBlock_success Hsuccess). unfold matchTransfer.
  rewrite Hchain, Htoken, Hunits.
  destruct transferLogs as [|l ls] eqn:Hlogs; [done|]. cbn [length Nat.eqb].
  destruct (List.find isToTreasury (l :: ls)) as [log|] eqn:Hfind.
  - apply find_some in Hfind as [Hin Hto]. rewrite (Hnone log Hin) in Hto. done.
  - by apply markFailed_found.
Qed.



End Configured.

(** C6: a receipt whose status is not [success] fails the booking at once,
    whatever its logs; a successful receipt with no Transfer log of the
    token contract fails it with the no-transfer error, and one whose
    Transfer logs of the token all go elsewhere than the treasury fails it
    with the wrong-recipient error.  In each case the loop ends at this
    attempt: the trace gains the one receipt fetch and no wait. *)
Theorem matcher_failures (fuel : nat) :
  (receiptStatus receipt <> "success" ->
   exists w',
     retryLoop' (S fuel) retryCount w = (Resolved, w')
     /\ w' = failedWorld key booking
               (("error", JString TransactionReverted)
                :: phaseFlags isRemainingPayment x) w1
     /\ status <$> bookings w' !! key = Some FAILED
     /\ trace w' = (trace w ++ [FetchReceipt chain hash])%list)
  /\ (forall chainInfo tokenInfo expectedBaseUnits,
        receiptStatus receipt = "success" ->
        chainConfig !! chain = Some chainInfo ->
        tokens chainInfo !! expectedToken x = Some tokenInfo ->
        parseUnits env amount (decimals tokenInfo) = Some expectedBaseUnits ->
        let transferLogs :=
          List.filter (isTransferLog (toLowerCase (tokenAddress tokenInfo)))
            (logs receipt) in
        (transferLogs = [] ->
         exists w',
           retryLoop' (S fuel) retryCount w = (Resolved, w')
           /\ w' = failedWorld key booking
                     ([("error", JString NoTransferEvent);
                       ("chainId", JNumber (inject_Z chain));
                       ("tokenAddress", JString (tokenAddress tokenInfo));
                       ("txHash", JString hash)]
                      ++ phaseFlags isRemainingPayment x) w1
           /\ status <$> bookings w' !! key = Some FAILED
           /\ trace w' = (trace w ++ [FetchReceipt chain hash])%list)
        /\ (transferLogs <> [] ->
            (forall log, In log transferLogs -> isToTreasury log = false) ->
            exists w',
              retryLoop' (S fuel) retryCount w = (Resolved, w')
              /\ w' = failedWorld key booking
                        ([("error", JString WrongRecipient);
                          ("expectedTreasury", JString treasuryAddress)]
                         ++ phaseFlags isRemainingPayment x) w1
              /\ status <$> bookings w' !! key = Some FAILED
              /\ trace w' = (trace w ++ [FetchReceipt chain hash])%list)).
Proof.
  split; [|intros chainInfo tokenInfo units Hok Hchain Htoken Hunits; split].
  - intros Hrev. eexists. split; [apply returned_stops; by apply tryBlock_reverted|].
    split; [reflexivity|]. by rewrite failedWorld_status.
  - intros Hnone. eexists. split.
    + apply returned_stops.
      by apply (tryBlock_no_transfer chainInfo tokenInfo units).
    + split; [reflexivity|]. by rewrite failedWorld_status.
  - intros Hsome Hnone. eexists. split.
    + apply returned_stops.
      by apply (tryBlock_wrong_recipient chainInfo tokenInfo units).
    + split; [reflexivity|]. by rewrite failedWorld_status.
Qed.

End Matching.


Lemma matcher_failures_witness :
  exists w',
    verifyPayment (sampleEnv (ReceiptFound revertedReceipt)) "A" sampleHash 10143
      false 10 3000 oneBooking = (Resolved, w')
    /\ status <$> bookings w' !! "A" = Some FAILED
    /\ trace w' = [FetchReceipt 10143 sampleHash].
Proof.
  destruct (proj1 (matcher_failures (sampleEnv (ReceiptFound revertedReceipt)) "A"
              sampleHash 10143 false 10 3000 (sampleBooking "A" PENDING false)
              (inject_Z 30) revertedReceipt 0%nat oneBooking
              eq_refl eq_refl eq_refl eq_refl eq_refl ltac:(lia) 9%nat))
    as (w' & Hrun & _ & Hst & Htr); [discriminate|].
  exists w'. by split.
Defined.

Example silent_receipt_fails :
  let w' := snd (verifyPayment (sampleEnv (ReceiptFound silentReceipt)) "A" sampleHash
                   10143 false 10 3000 oneBooking) in
  status <$> bookings w' !! "A" = Some FAILED
  /\ map details (activityLog w')
     = [[("error", JString NoTransferEvent);
         ("chainId", JNumber (inject_Z 10143));
         ("tokenAddress", JString MONAD_TESTNET_USDC);
         ("txHash", JString sampleHash);
         ("isReservationPayment", JBool false);
         ("isRemainingPayment", JBool false)]]
  /\ trace w' = [FetchReceipt 10143 sampleHash].
Proof. by vm_compute. Qed.

Example elsewhere_receipt_fails :
  let w' := snd (verifyPayment (sampleEnv (ReceiptFound elsewhereReceipt)) "A"
                   sampleHash 10143 false 10 3000 oneBooking) in
  status <$> bookings w' !! "A" = Some FAILED
  /\ map details (activityLog w')
     = [[("error", JString WrongRecipient);
         ("expectedTreasury", JString treasuryAddress);
         ("isReservationPayment", JBool false);
         ("isRemainingPayment", JBool false)]]
  /\ trace w' = [FetchReceipt 10143 sampleHash].
Proof. by vm_compute. Qed.

Example paid_receipt_confirms :
  let w' := snd (verifyPayment (sampleEnv (ReceiptFound okReceipt)) "A" sampleHash
                   10143 false 10 3000 oneBooking) in
  status <$> bookings w' !! "A" = Some CONFIRMED
  /\ map action (activityLog w') = ["payment_confirmed"].
Proof. by vm_compute. Qed.

(** ** Configuration errors at verification time *)

Section Configuration.

Variable env : Env.
Variables (key hash : string) (chain : Z) (isRemainingPayment : bool).
Variables (maxRetries : nat) (retryDelayMs : Z).
Variables (booking : Booking) (amount : Q).
Variables (retryCount : nat) (w : World).

Hypothesis Hrow : bookings w !! key = Some booking.
Hypothesis Hgate : gate (resolvePayment isRemainingPayment booking) = Proceed.
Hypothesis Hlocked :
  lockedAmount (resolvePayment isRemainingPayment booking) = Some amount.

Local Abbreviation x := (resolvePayment isRemainingPayment booking).
Local Abbreviation w1 := (emit (FetchReceipt chain hash) w).
Local Abbreviation tryBlock' :=
  (tryBlock env key hash chain isRemainingPayment maxRetries retryDelayMs).
Local Abbreviation iteration' :=
  (iteration env key hash chain isRemainingPayment maxRetries retryDelayMs).






End Configuration.



(** ** Re-verification *)

Lemma gate_already_verified (isRemainingPayment : bool) (booking : Booking) :
  gate (resolvePayment isRemainingPayment booking) = AlreadyVerified <->
  (requiresReservation booking = true /\ reservationPaid booking = false
   /\ isRemainingPayment = false /\ status booking = RESERVED)
  \/ (isRemainingPayment = true /\ reservationPaid booking = true
      /\ (status booking = CONFIRMED \/ remainingPaid booking = true))
  \/ (isRemainingPayment = false
      /\ (requiresReservation booking = false \/ reservationPaid booking = true)
      /\ status booking = CONFIRMED).
Proof.
  unfold resolvePayment.
  destruct (requiresReservation booking), (reservationPaid booking),
    isRemainingPayment, (remainingPaid booking); cbn;
    repeat case_bool_decide; cbn; intuition congruence.
Qed.

(** Where the phase checks answer "already verified", a verification writes
    nothing, calls nothing and sends nothing. *)
Lemma already_verified_noop (env : Env) (key hash : string) (chain : Z)
    (isRemainingPayment : bool) (maxRetries : nat) (retryDelayMs : Z)
    (w : World) (booking : Booking) :
  bookings w !! key = Some booking ->
  gate (resolvePayment isRemainingPayment booking) = AlreadyVerified ->
  verifyPayment env key hash chain isRemainingPayment maxRetries retryDelayMs w
  = (Resolved, w).
Proof.
  intros Hb Hg. unfold verifyPayment.
  destruct maxRetries as [|n]; [done|].
  apply retryLoop_exit; [lia|]. unfold iteration, tryBlock. by rewrite Hb, Hg.
Qed.

(** C2 fails on the code, on the booking the first reservation
    verification leaves behind.  With [reservationPaid] set the second call
    is no reservation payment any more: it runs as a full payment against
    [paymentAmount], finds the 30 USDC of the reservation, moves the booking
    from [RESERVED] to [CONFIRMED], appends an activity log entry and sends a
    confirmation mail. *)
Theorem reverification_changes_state :
  status <$> bookings verifiedOnce !! "B" = Some RESERVED
  /\ reservationPaid <$> bookings verifiedOnce !! "B" = Some true
  /\ status <$> bookings verifiedTwice !! "B" = Some CONFIRMED
  /\ map action (activityLog verifiedOnce) = ["reservation_paid"]
  /\ map action (activityLog verifiedTwice) = ["reservation_paid"; "payment_confirmed"]
  /\ length (List.filter (fun e => match e with SendEmail _ => true | _ => false end)
               (trace verifiedOnce)) = 1%nat
  /\ length (List.filter (fun e => match e with SendEmail _ => true | _ => false end)
               (trace verifiedTwice)) = 2%nat.
Proof. repeat split; by vm_compute. Qed.

(** ** Submission guards *)

Lemma POST_validated (body : SubmitBody) (w : World) (key hash : string)
    (chain : Z) (token : string) (booking : Booking) (response : Response) :
  requiredFields body = Some (key, hash, chain, token) ->
  isTxHashFormat hash = true ->
  checkTransactionUsed hash w = false ->
  bookings w !! key = Some booking ->
  validateSubmission booking (default false (bodyIsRemainingPayment body)) token
  = Some response ->
  POST body w = (response, w, None).
Proof. intros Hf Hx Hu Hb Hv. unfold POST. by rewrite Hf, Hx, Hu, Hb, Hv. Qed.

(** C4, as the code has it: once the body's fields, the hash format, the
    replay check and the booking lookup have passed, the handler rejects,
    with the store untouched and no verification started,
    - with 400 a remaining payment on a reservation booking whose
      [reservationPaid] is false, whatever the status;
    - with 409 a remaining payment on a reservation booking whose status is
      not [RESERVED];
    - with 409 a reservation payment whose booking is not [PENDING];
    - with 409 a payment on a booking without reservation that is not
      [PENDING]. *)
Theorem submitPayment_status_guard (body : SubmitBody) (w : World)
    (key hash : string) (chain : Z) (token : string) (booking : Booking) :
  requiredFields body = Some (key, hash, chain, token) ->
  isTxHashFormat hash = true ->
  checkTransactionUsed hash w = false ->
  bookings w !! key = Some booking ->
  let isRemainingPayment := default false (bodyIsRemainingPayment body) in
  let rejected (code : Z) :=
    exists response, POST body w = (response, w, None) /\ httpStatus response = code in
  (requiresReservation booking = true -> isRemainingPayment = true ->
   reservationPaid booking = false -> rejected 400)
  /\ (requiresReservation booking = true -> isRemainingPayment = true ->
      reservationPaid booking = true -> status booking <> RESERVED -> rejected 409)
  /\ (requiresReservation booking = true -> isRemainingPayment = false ->
      status booking <> PENDING -> rejected 409)
  /\ (requiresReservation booking = false ->
      status booking <> PENDING -> rejected 409).
Proof.
  intros Hf Hx Hu Hb. cbn zeta.
  repeat split.
  - intros Hr Hrem Hpaid. eexists. split.
    + eapply POST_validated; try done. unfold validateSubmission.
      by rewrite Hr, Hrem, Hpaid.
    + done.
  - intros Hr Hrem Hpaid Hst. eexists. split.
    + eapply POST_validated; try done. unfold validateSubmission.
      rewrite Hr, Hrem, Hpaid. cbn [negb]. by rewrite bool_decide_eq_false_2.
    + done.
  - intros Hr Hrem Hst. eexists. split.
    + eapply POST_validated; try done. unfold validateSubmission.
      rewrite Hr, Hrem. by rewrite bool_decide_eq_false_2.
    + done.
  - intros Hr Hst. eexists. split.
    + eapply POST_validated; try done. unfold validateSubmission.
      rewrite Hr. by rewrite bool_decide_eq_false_2.
    + done.
Qed.

(** C4 as stated fails: a remaining payment submitted for a pending
    reservation booking whose reservation is unpaid is answered 400, not
    409. *)
Lemma remaining_before_reservation_counterexample :
  status <$> bookings twoBookings !! "B" = Some PENDING
  /\ reservationPaid <$> bookings twoBookings !! "B" = Some false
  /\ httpStatus (fst (fst (POST (sampleBody "B" true) twoBookings))) = 400
  /\ httpStatus (fst (fst (POST (sampleBody "B" true) twoBookings))) <> 409.
Proof. split; [|split; [|split]]; [by vm_compute..|by vm_compute]. Qed.

Lemma submitPayment_status_guard_witness :
  exists response,
    POST (sampleBody "B" true) twoBookings = (response, twoBookings, None)
    /\ httpStatus response = 400.
Proof.
  apply (proj1 (submitPayment_status_guard (sampleBody "B" true) twoBookings
                  "B" sampleHash 10143 "USDC" (sampleBooking "B" PENDING true)
                  eq_refl eq_refl eq_refl eq_refl)); reflexivity.
Defined.

(** ** Replay across bookings *)

Lemma POST_replay (hash : string) (body : SubmitBody) (w : World) :
  checkTransactionUsed hash w = true ->
  bodyTxHash body = Some hash ->
  exists response,
    POST body w = (response, w, None)
    /\ (httpStatus response = 400 \/ httpStatus response = 409).
Proof.
  intros Hu Hh. unfold POST.
  destruct (requiredFields body) as [[[[key hash'] chain] token]|] eqn:Hf.
  - apply requiredFields_txHash in Hf as Hh'. rewrite Hh in Hh'.
    injection Hh' as <-.
    destruct (isTxHashFormat hash); cbn [negb].
    + rewrite Hu. eexists. split; [reflexivity|]. by right.
    + eexists. split; [reflexivity|]. by left.
  - eexists. split; [reflexivity|]. by left.
Qed.

(** ** What a verification changes *)

Lemma bookingUpdate_Some (key : string) (data : list (Booking -> Booking))
    (w w' : World) :
  bookingUpdate key data w = Some w' ->
  exists b, bookings w !! key = Some b
    /\ bookings w' = <[key := applyData data b]> (bookings w).
Proof.
  unfold bookingUpdate. destruct (bookings w !! key) as [b|]; [|done].
  intros [= <-]. by exists b.
Qed.

Lemma updateBookingStatus_Some (key : string) (v : BookingStatus)
    (details : list (string * JSON)) (w w' : World) :
  updateBookingStatus key v details w = Some w' ->
  exists b, bookings w !! key = Some b
    /\ bookings w' = <[key := set_status v b]> (bookings w).
Proof.
  destruct (bookings w !! key) as [b|] eqn:Hb.
  - rewrite (updateBookingStatus_found _ _ _ _ _ Hb). intros [= <-]. by exists b.
  - unfold updateBookingStatus, bookingUpdate. by rewrite Hb.
Qed.

Lemma dispatch_bookings (env : Env) (booking : Booking) (mail : string -> Email)
    (onError : string -> World -> World) (w : World) :
  (forall message w0, bookings (onError message w0) = bookings w0) ->
  bookings (dispatch env booking mail onError w) = bookings w.
Proof.
  intros Hon. unfold dispatch. repeat case_match; try done. by rewrite Hon.
Qed.

Lemma reservationData_settles (env : Env) (hash : string) (chain : Z)
    (token : string) (receipt : Receipt) (tx : Transaction) (b : Booking) :
  let b' := applyData (reservationData env hash chain token receipt tx) b in
  requiresReservation b' = requiresReservation b /\ txHash b' = txHash b
  /\ status b' = RESERVED
  /\ reservationPaid b' = true /\ reservationTxHash b' = Some hash
  /\ remainingPaid b' = remainingPaid b /\ remainingTxHash b' = remainingTxHash b.
Proof. by destruct b. Qed.

Lemma remainingData_settles (env : Env) (hash : string) (chain : Z)
    (booking : Booking) (amount : Q) (token : string) (b : Booking) :
  let b' := applyData (remainingData env hash chain booking amount token) b in
  requiresReservation b' = requiresReservation b /\ txHash b' = txHash b
  /\ status b' = CONFIRMED
  /\ remainingPaid b' = true /\ remainingTxHash b' = Some hash
  /\ reservationPaid b' = reservationPaid b
  /\ reservationTxHash b' = reservationTxHash b.
Proof. by destruct b. Qed.

Lemma fullData_settles (env : Env) (booking : Booking) (receipt : Receipt)
    (tx : Transaction) (b : Booking) :
  let b' := applyData (fullData env booking receipt tx) b in
  requiresReservation b' = requiresReservation b /\ txHash b' = txHash b
  /\ status b' = CONFIRMED
  /\ reservationPaid b' = reservationPaid b
  /\ reservationTxHash b' = reservationTxHash b
  /\ remainingPaid b' = remainingPaid b /\ remainingTxHash b' = remainingTxHash b.
Proof. by destruct b. Qed.

Section Effects.

Variable env : Env.
Variables (key hash : string) (chain : Z).
Variables (maxRetries : nat) (retryDelayMs : Z).

Local Abbreviation Changed' :=
  (fun isRemainingPayment => Changed isRemainingPayment hash key).

Lemma markFailed_effect (isRemainingPayment : bool) (details : list (string * JSON))
    (retryCount : nat) (w : World) (c : Completion) (n : nat) (w' : World) :
  markFailed key details retryCount w = (c, n, w') ->
  bookings w' = bookings w
  \/ (c = Returned /\ Changed' isRemainingPayment (bookings w) (bookings w')).
Proof.
  unfold markFailed.
  destruct (updateBookingStatus key FAILED details w) as [w1|] eqn:Hup.
  - intros [= <- <- <-]. right. split; [done|].
    apply updateBookingStatus_Some in Hup as (b & Hb & Hm).
    by apply (ChangedFailed _ _ _ _ _ b).
  - intros [= <- <- <-]. by left.
Qed.

Lemma confirmPayment_effect (isRemainingPayment : bool) (booking : Booking)
    (amount : Q) (receipt : Receipt) (retryCount : nat) (w : World)
    (c : Completion) (n : nat) (w' : World) :
  bookings w !! key = Some booking ->
  gate (resolvePayment isRemainingPayment booking) = Proceed ->
  confirmPayment env key hash chain isRemainingPayment booking
    (resolvePayment isRemainingPayment booking) amount receipt retryCount w
  = (c, n, w') ->
  bookings w' = bookings w
  \/ (c = Returned /\ Changed' isRemainingPayment (bookings w) (bookings w')).
Proof.
  intros Hb Hg. unfold confirmPayment.
  destruct (getTransaction env chain hash retryCount) as [tx|message];
    [|intros [= <- <- <-]; by left].
  assert (bookings (emit (FetchTransaction chain hash) w) !! key = Some booking)
    as Hb0 by done.
  destruct (isReservationPayment (resolvePayment isRemainingPayment booking))
    eqn:Hres; [|destruct isRemainingPayment].
  - rewrite (bookingUpdate_found _ _ _ _ Hb0). intros [= <- <- <-].
    right. split; [done|].
    apply (ChangedSettled _ _ _ _ _ booking
             (applyData (reservationData env hash chain
                           (expectedToken (resolvePayment isRemainingPayment booking)) receipt tx)
                booking)); try done.
    + unfold Settled. rewrite Hres.
      pose proof (reservationData_settles env hash chain
                    (expectedToken (resolvePayment isRemainingPayment booking)) receipt tx booking)
        as H. cbn zeta in H. tauto.
    + rewrite dispatch_bookings; [reflexivity|]. by intros.
  - rewrite (bookingUpdate_found _ _ _ _ Hb0). intros [= <- <- <-].
    right. split; [done|].
    apply (ChangedSettled _ _ _ _ _ booking
             (applyData (remainingData env hash chain booking amount
                           (expectedToken (resolvePayment true booking))) booking));
      try done.
    + unfold Settled. rewrite Hres.
      pose proof (remainingData_settles env hash chain booking amount
                    (expectedToken (resolvePayment true booking)) booking) as H.
      cbn zeta in H. tauto.
    + rewrite dispatch_bookings; [reflexivity|]. by intros.
  - rewrite (bookingUpdate_found _ _ _ _ Hb0). intros [= <- <- <-].
    right. split; [done|].
    apply (ChangedSettled _ _ _ _ _ booking
             (applyData (fullData env booking receipt tx) booking)); try done.
    + unfold Settled. rewrite Hres.
      pose proof (fullData_settles env booking receipt tx booking) as H.
      cbn zeta in H. tauto.
    + rewrite dispatch_bookings; [reflexivity|]. by intros.
Qed.

Lemma matchTransfer_effect (isRemainingPayment : bool) (booking : Booking)
    (amount : Q) (receipt : Receipt) (retryCount : nat) (w : World)
    (c : Completion) (n : nat) (w' : World) :
  bookings w !! key = Some booking ->
  gate (resolvePayment isRemainingPayment booking) = Proceed ->
  matchTransfer env key hash chain isRemainingPayment booking
    (resolvePayment isRemainingPayment booking) amount receipt retryCount w
  = (c, n, w') ->
  bookings w' = bookings w
  \/ (c = Returned /\ Changed' isRemainingPayment (bookings w) (bookings w')).
Proof.
  intros Hb Hg. unfold matchTransfer.
  repeat case_match;
    try (intros [= <- <- <-]; by left);
    try (by apply markFailed_effect).
  by apply confirmPayment_effect.
Qed.

Lemma tryBlock_effect (isRemainingPayment : bool) (retryCount : nat) (w : World)
    (c : Completion) (n : nat) (w' : World) :
  tryBlock env key hash chain isRemainingPayment maxRetries retryDelayMs retryCount w
  = (c, n, w') ->
  bookings w' = bookings w
  \/ (c = Returned /\ Changed' isRemainingPayment (bookings w) (bookings w')).
Proof.
  unfold tryBlock.
  destruct (bookings w !! key) as [booking|] eqn:Hb;
    [|intros [= <- <- <-]; by left].
  destruct (gate (resolvePayment isRemainingPayment booking)) eqn:Hg;
    try (intros [= <- <- <-]; by left).
  repeat case_match;
    try (intros [= <- <- <-]; by left);
    intros Hrun;
    try (apply (markFailed_effect isRemainingPayment) in Hrun; exact Hrun).
  apply matchTransfer_effect in Hrun; [exact Hrun|exact Hb|exact Hg].
Qed.




End Effects.

(** ** What a submission changes *)

Lemma validateSubmission_None (b : Booking) (isRemainingPayment : bool)
    (token : string) :
  validateSubmission b isRemainingPayment token = None ->
  if requiresReservation b then
    if isRemainingPayment then
      reservationPaid b = true /\ status b = RESERVED /\ remainingPaid b = false
    else status b = PENDING /\ reservationPaid b = false
  else status b = PENDING.
Proof.
  unfold validateSubmission.
  destruct (requiresReservation b), isRemainingPayment,
    (reservationPaid b), (remainingPaid b);
    cbn; repeat case_bool_decide; cbn; try done.
Qed.


(** The row a submission writes: the hash goes to the slot of the phase,
    the rest of what decides consumption stays. *)
Lemma submissionData_row (b : Booking) (hash : string) (chain : Z)
    (isRemainingPayment : bool) :
  let b1 := applyData (submissionData b hash chain isRemainingPayment) b in
  requiresReservation b1 = requiresReservation b
  /\ status b1 = status b
  /\ reservationPaid b1 = reservationPaid b
  /\ remainingPaid b1 = remainingPaid b
  /\ (if isRemainingPayment then
        remainingTxHash b1 = Some hash
        /\ txHash b1 = txHash b /\ reservationTxHash b1 = reservationTxHash b
      else if requiresReservation b then
        reservationTxHash b1 = Some hash
        /\ txHash b1 = txHash b /\ remainingTxHash b1 = remainingTxHash b
      else
        txHash b1 = Some hash
        /\ reservationTxHash b1 = reservationTxHash b
        /\ remainingTxHash b1 = remainingTxHash b).
Proof.
  unfold submissionData.
  destruct isRemainingPayment; [by destruct b|].
  destruct (requiresReservation b) eqn:Hr; destruct b; cbn in *; by subst.
Qed.

(** ** Consumption under row updates *)

Lemma unused_spec (hash : string) (w : World) :
  checkTransactionUsed hash w = false <->
  forall key phase, consumed hash key phase w = false.
Proof.
  split.
  - intros Hu key phase. apply not_true_is_false. intros Hc.
    assert (checkTransactionUsed hash w = true) as Ht
      by (apply checkTransactionUsed_consumed; eauto).
    congruence.
  - intros Hnone. apply not_true_is_false. intros Ht.
    apply checkTransactionUsed_consumed in Ht as (key & phase & Hc).
    rewrite Hnone in Hc. done.
Qed.

Lemma consumed_insert (hash key key' : string) (phase : Phase) (w w' : World)
    (b' : Booking) :
  bookings w' = <[key := b']> (bookings w) ->
  consumed hash key' phase w'
  = if decide (key = key') then binds hash phase b' else consumed hash key' phase w.
Proof.
  intros Hm. unfold consumed. rewrite Hm, lookup_insert. by case_decide.
Qed.

Lemma consumed_insert_same (w w' : World) (key : string) (b b' : Booking) :
  bookings w !! key = Some b ->
  bookings w' = <[key := b']> (bookings w) ->
  (forall hash phase, binds hash phase b' = binds hash phase b) ->
  forall hash key' phase, consumed hash key' phase w' = consumed hash key' phase w.
Proof.
  intros Hb Hm Hsame hash key' phase.
  rewrite (consumed_insert _ _ _ _ _ _ _ Hm). case_decide as Hk; [|done].
  subst key'. unfold consumed. by rewrite Hb, Hsame.
Qed.



(** ** Sequential runs *)













(** In that sequential run the second submission of the hash is refused. *)
Example sequential_replay_refused :
  checkTransactionUsed sampleHash
    (submitAndVerify (sampleEnv (ReceiptFound okReceipt)) (sampleBody "A" false)
       twoBookings) = true
  /\ status <$> bookings (serveSequential sequentialRequests twoBookings) !! "B"
     = Some PENDING
  /\ reservationTxHash <$> bookings (serveSequential sequentialRequests twoBookings)
                           !! "B"
     = Some None.
Proof. by vm_compute. Qed.


(** * Further properties of verification *)

(** ** Every write of a verification *)

Section Writes.

Variable env : Env.
Variables (key hash : string) (chain : Z).
Variables (maxRetries : nat) (retryDelayMs : Z).

Local Abbreviation Wrote := (Wrote hash key).

Lemma markFailed_wrote (details : list (string * JSON)) (retryCount : nat)
    (w : World) (c : Completion) (n : nat) (w' : World) :
  markFailed key details retryCount w = (c, n, w') ->
  Wrote (bookings w) (bookings w').
Proof.
  unfold markFailed.
  destruct (updateBookingStatus key FAILED details w) as [w1|] eqn:Hup;
    intros [= <- <- <-]; [|by left].
  apply updateBookingStatus_Some in Hup as (b & Hb & Hm).
  right. exists b, [set_status FAILED]. split; [done|]. split; [constructor|done].
Qed.

Lemma confirmPayment_wrote (isRemainingPayment : bool) (booking : Booking)
    (x : Expectation) (amount : Q) (receipt : Receipt) (retryCount : nat)
    (w : World) (c : Completion) (n : nat) (w' : World) :
  bookings w !! key = Some booking ->
  confirmPayment env key hash chain isRemainingPayment booking x amount receipt
    retryCount w = (c, n, w') ->
  Wrote (bookings w) (bookings w').
Proof.
  intros Hb. unfold confirmPayment.
  destruct (getTransaction env chain hash retryCount) as [tx|message];
    [|intros [= <- <- <-]; by left].
  assert (bookings (emit (FetchTransaction chain hash) w) !! key = Some booking)
    as Hb0 by done.
  destruct (isReservationPayment x); [|destruct isRemainingPayment];
    rewrite (bookingUpdate_found _ _ _ _ Hb0); intros [= <- <- <-];
    right; exists booking; eexists; (split; [done|]);
    (split; [constructor|]);
    (rewrite dispatch_bookings; [reflexivity|by intros]).
Qed.

Lemma tryBlock_wrote (isRemainingPayment : bool) (retryCount : nat) (w : World)
    (c : Completion) (n : nat) (w' : World) :
  tryBlock env key hash chain isRemainingPayment maxRetries retryDelayMs retryCount w
  = (c, n, w') ->
  Wrote (bookings w) (bookings w').
Proof.
  unfold tryBlock, matchTransfer.
  destruct (bookings w !! key) as [booking|] eqn:Hb;
    [|intros [= <- <- <-]; by left].
  repeat case_match;
    try (intros [= <- <- <-]; by left);
    intros Hrun;
    try (apply markFailed_wrote in Hrun; exact Hrun).
  apply confirmPayment_wrote in Hrun; [exact Hrun|exact Hb].
Qed.

Lemma iteration_wrote (isRemainingPayment : bool) (retryCount : nat) (w : World)
    (step : Step) (w' : World) :
  iteration env key hash chain isRemainingPayment maxRetries retryDelayMs retryCount w
  = (step, w') ->
  bookings w' = bookings w
  \/ ((step = Exit \/ exists n, step = Next n /\ (maxRetries <= n)%nat)
      /\ Wrote (bookings w) (bookings w')).
Proof.
  unfold iteration.
  destruct (tryBlock env key hash chain isRemainingPayment maxRetries retryDelayMs
              retryCount w) as [[c n] w1] eqn:Htry.
  pose proof (tryBlock_effect _ _ _ _ _ _ _ _ _ _ _ _ Htry) as Heff.
  apply tryBlock_wrote in Htry as Hw.
  destruct Heff as [Hsame|[-> _]].
  - destruct c.
    + intros [= <- <-]. by left.
    + intros [= <- <-]. by left.
    + destruct (maxRetries <=? S n)%nat eqn:Hcmp; [|intros [= <- <-]; by left].
      destruct (updateBookingStatus key FAILED _ w1) as [w2|] eqn:Hup;
        [|intros [= <- <-]; by left].
      intros [= <- <-]. right. split.
      * right. exists (S n). split; [done|]. by apply Nat.leb_le.
      * apply updateBookingStatus_Some in Hup as (b & Hb & Hm).
        rewrite Hsame in Hb, Hm. right. exists b, [set_status FAILED].
        split; [done|]. split; [constructor|done].
  - intros [= <- <-]. right. split; [by left|done].
Qed.

Lemma retryLoop_wrote (isRemainingPayment : bool) (fuel : nat) :
  forall (retryCount : nat) (w : World),
    Wrote (bookings w)
      (bookings (snd (retryLoop env key hash chain isRemainingPayment maxRetries
                        retryDelayMs fuel retryCount w))).
Proof.
  induction fuel as [|fuel IH]; intros retryCount w; [by left|].
  cbn [retryLoop]. destruct (retryCount <? maxRetries)%nat; [|by left].
  destruct (iteration env key hash chain isRemainingPayment maxRetries retryDelayMs
              retryCount w) as [step w1] eqn:Hit.
  apply iteration_wrote in Hit as [Hsame|[Hstop Hw]].
  - destruct step; cbn [snd]; [left; by rewrite Hsame| |left; by rewrite Hsame].
    rewrite <- Hsame. apply IH.
  - destruct Hstop as [->|(n & -> & Hn)]; [done|].
    by rewrite retryLoop_done.
Qed.

End Writes.

Lemma write_keeps (hash : string) (b : Booking) (data : list (Booking -> Booking)) :
  VerificationWrite hash b data ->
  keepsObligation b (applyData data b).
Proof.
  intros [|env chain token receipt tx|env chain amount token|env receipt tx];
    destruct b; cbn; repeat split; auto.
Qed.

Lemma keepsObligation_refl (b : Booking) : keepsObligation b b.
Proof. unfold keepsObligation. repeat split; auto. Qed.

(** X1.  Whatever the node answers and however the run ends, a
    verification touches no row but its own, neither creates nor deletes a
    row, and leaves in its own row every amount, the payment token,
    [requiresReservation], the full-payment hash and the chain id recorded
    at submission as they were; a paid flag that was set stays set, and the
    status is the old one or one of FAILED, RESERVED and CONFIRMED. *)
Theorem verification_keeps_obligations (env : Env) (key hash : string) (chain : Z)
    (isRemainingPayment : bool) (maxRetries : nat) (retryDelayMs : Z) (w : World) :
  let w' := snd (verifyPayment env key hash chain isRemainingPayment maxRetries
                   retryDelayMs w) in
  (forall other, other <> key -> bookings w' !! other = bookings w !! other)
  /\ (bookings w !! key = None <-> bookings w' !! key = None)
  /\ (forall b, bookings w !! key = Some b ->
        exists b', bookings w' !! key = Some b' /\ keepsObligation b b').
Proof.
  cbn zeta. unfold verifyPayment.
  destruct (retryLoop_wrote env key hash chain maxRetries retryDelayMs
              isRemainingPayment maxRetries 0%nat w)
    as [->|(b & data & Hb & Hw & ->)].
  - split; [done|]. split; [done|]. intros b Hb. exists b.
    split; [done|apply keepsObligation_refl].
  - split; [intros other Hne; by rewrite lookup_insert_ne|].
    split.
    + rewrite lookup_insert_eq, Hb. split; discriminate.
    + intros b0 Hb0. rewrite Hb in Hb0. injection Hb0 as <-.
      exists (applyData data b). split; [apply lookup_insert_eq|].
      by apply (write_keeps hash).
Qed.

(** ** The success path *)

Section Success.

Variable env : Env.
Variables (key hash : string) (chain : Z).
Variables (maxRetries : nat) (retryDelayMs : Z).

Lemma confirmPayment_found (isRemainingPayment : bool) (booking : Booking)
    (amount : Q) (receipt : Receipt) (tx : Transaction) (retryCount : nat)
    (w : World) :
  bookings w !! key = Some booking ->
  getTransaction env chain hash retryCount = TransactionFound tx ->
  exists entry,
    confirmPayment env key hash chain isRemainingPayment booking
      (resolvePayment isRemainingPayment booking) amount receipt retryCount w
    = (Returned, retryCount,
       {| bookings :=
            <[key := applyData
                       (settlementData env hash chain isRemainingPayment booking
                          amount receipt tx) booking]> (bookings w);
          activityLog :=
            (activityLog w ++ entry
             :: mailFailures env hash chain isRemainingPayment booking amount)%list;
          trace :=
            (trace w ++ FetchTransaction chain hash
             :: option_list
                  (SendEmail <$> settlementMailOf hash chain isRemainingPayment
                                   booking amount))%list |})
    /\ action entry = settlementAction isRemainingPayment booking
    /\ logBookingId entry = id booking
    /\ In ("txHash", JString hash) (details entry).
Proof.
  intros Hb Htx.
  assert (bookings (emit (FetchTransaction chain hash) w) !! key = Some booking)
    as Hb0 by done.
  unfold confirmPayment, settlementData, settlementAction, mailFailures,
    settlementMailOf, settlementMail, dispatch.
  rewrite Htx.
  destruct (isReservationPayment (resolvePayment isRemainingPayment booking));
    [|destruct isRemainingPayment];
    rewrite (bookingUpdate_found _ _ _ _ Hb0);
    (eexists; split;
     [destruct (userEmail booking) as [recipient|];
      try (destruct (truthyString recipient && stay booking));
      try (destruct (sendEmail env _));
      unfold activityLogCreate, emit, withBookings; cbn;
      by rewrite <- ?app_assoc
     |split; [reflexivity|split; [reflexivity|cbn; auto]]]).
Qed.


End Success.


(** ** Attempts that find no receipt yet *)

Lemma emitAll_emit (e : Effect) (es : list Effect) (w : World) :
  emitAll es (emit e w) = emitAll (e :: es) w.
Proof. unfold emitAll, emit. cbn. by rewrite <- app_assoc. Qed.

Lemma emitAll_nil (w : World) : emitAll [] w = w.
Proof. destruct w. unfold emitAll. cbn. by rewrite app_nil_r. Qed.

Section NotYet.

Variable env : Env.
Variables (key hash : string) (chain : Z) (isRemainingPayment : bool).
Variables (maxRetries : nat) (retryDelayMs : Z).
Variables (booking : Booking) (amount : Q).

Hypothesis Hgate : gate (resolvePayment isRemainingPayment booking) = Proceed.
Hypothesis Hlocked :
  lockedAmount (resolvePayment isRemainingPayment booking) = Some amount.
Hypothesis Hclient : getPublicClient env chain = true.




End NotYet.


(** ** The calls of a verification *)

Lemma countIf_app (p : Effect -> bool) (s t : list Effect) :
  countIf p (s ++ t) = (countIf p s + countIf p t)%nat.
Proof. unfold countIf. by rewrite List.filter_app, length_app. Qed.

Lemma updateBookingStatus_trace (key : string) (v : BookingStatus)
    (details : list (string * JSON)) (w w' : World) :
  updateBookingStatus key v details w = Some w' -> trace w' = trace w.
Proof.
  destruct (bookings w !! key) as [b|] eqn:Hb.
  - rewrite (updateBookingStatus_found _ _ _ _ _ Hb). by intros [= <-].
  - unfold updateBookingStatus, bookingUpdate. by rewrite Hb.
Qed.

Lemma bookingUpdate_trace (key : string) (data : list (Booking -> Booking))
    (w w' : World) :
  bookingUpdate key data w = Some w' -> trace w' = trace w.
Proof.
  unfold bookingUpdate. destruct (bookings w !! key); [|done]. by intros [= <-].
Qed.

Section Calls.

Variable env : Env.
Variables (key hash : string) (chain : Z).
Variables (maxRetries : nat) (retryDelayMs : Z).

Lemma markFailed_trace (details : list (string * JSON)) (retryCount : nat)
    (w : World) (c : Completion) (n : nat) (w' : World) :
  markFailed key details retryCount w = (c, n, w') ->
  trace w' = trace w /\ c <> Continued /\ n = retryCount.
Proof.
  unfold markFailed.
  destruct (updateBookingStatus key FAILED details w) as [w1|] eqn:Hup;
    intros [= <- <- <-]; [|done].
  split; [|done]. by apply updateBookingStatus_trace in Hup.
Qed.

Lemma dispatch_trace (booking : Booking) (mail : string -> Email)
    (onError : string -> World -> World) (w : World) :
  (forall message w0, trace (onError message w0) = trace w0) ->
  trace (dispatch env booking mail onError w) = trace w
  \/ exists m, trace (dispatch env booking mail onError w)
               = (trace w ++ [SendEmail m])%list.
Proof.
  intros Hon. unfold dispatch. repeat case_match; try (by left); right.
  - eexists. by rewrite Hon.
  - by eexists.
Qed.

Lemma confirmPayment_trace (isRemainingPayment : bool) (booking : Booking)
    (x : Expectation) (amount : Q) (receipt : Receipt) (retryCount : nat)
    (w : World) (c : Completion) (n : nat) (w' : World) :
  confirmPayment env key hash chain isRemainingPayment booking x amount receipt
    retryCount w = (c, n, w') ->
  n = retryCount
  /\ ((c <> Continued
       /\ trace w' = (trace w ++ [FetchTransaction chain hash])%list)
      \/ exists mail,
           c = Returned
           /\ trace w'
              = (trace w ++ [FetchTransaction chain hash; SendEmail mail])%list).
Proof.
  unfold confirmPayment.
  destruct (getTransaction env chain hash retryCount) as [tx|message];
    [|intros [= <- <- <-]; split; [done|]; by left].
  assert (forall data name details mail onError,
            (forall message w0, trace (onError message w0) = trace w0) ->
            match bookingUpdate key data (emit (FetchTransaction chain hash) w) with
            | Some w1 =>
                (Returned, retryCount,
                 dispatch env booking mail onError
                   (activityLogCreate (successLog booking name details) w1))
            | None =>
                (Thrown recordNotFound, retryCount,
                 emit (FetchTransaction chain hash) w)
            end = (c, n, w') ->
            n = retryCount
            /\ ((c <> Continued
                 /\ trace w' = (trace w ++ [FetchTransaction chain hash])%list)
                \/ exists m,
                     c = Returned
                     /\ trace w'
                        = (trace w ++ [FetchTransaction chain hash; SendEmail m])%list))
    as Hcase.
  { intros data name details mail onError Hon.
    destruct (bookingUpdate key data _) as [w1|] eqn:Hup;
      [|intros [= <- <- <-]; split; [done|]; by left].
    apply bookingUpdate_trace in Hup. cbn [emit trace] in Hup.
    intros [= <- <- <-]. split; [done|].
    destruct (dispatch_trace booking mail onError
                (activityLogCreate (successLog booking name details) w1) Hon)
      as [Hd|[m Hd]]; rewrite Hd; cbn [activityLogCreate trace]; rewrite Hup.
    - by left.
    - right. exists m. split; [done|]. by rewrite <- app_assoc. }
  destruct (isReservationPayment x); [|destruct isRemainingPayment];
    apply Hcase; by intros.
Qed.

Lemma matchTransfer_trace (isRemainingPayment : bool) (booking : Booking)
    (x : Expectation) (amount : Q) (receipt : Receipt) (retryCount : nat)
    (w : World) (c : Completion) (n : nat) (w' : World) :
  matchTransfer env key hash chain isRemainingPayment booking x amount receipt
    retryCount w = (c, n, w') ->
  n = retryCount
  /\ ((c <> Continued /\ trace w' = trace w)
      \/ (c <> Continued
          /\ trace w' = (trace w ++ [FetchTransaction chain hash])%list)
      \/ exists mail,
           c = Returned
           /\ trace w'
              = (trace w ++ [FetchTransaction chain hash; SendEmail mail])%list).
Proof.
  unfold matchTransfer.
  repeat case_match;
    try (intros [= <- <- <-]; split; [done|]; by left);
    try (intros Hrun; apply markFailed_trace in Hrun as (-> & Hc & ->);
         split; [done|]; by left).
  intros Hrun. apply confirmPayment_trace in Hrun as [-> Hrun].
  split; [done|]. by right.
Qed.

(** One pass through the [try] block adds one of five effect sequences to
    the trace, and only a pass that fetched and found nothing goes on. *)
Lemma tryBlock_trace (isRemainingPayment : bool) (retryCount : nat) (w : World)
    (c : Completion) (n : nat) (w' : World) :
  tryBlock env key hash chain isRemainingPayment maxRetries retryDelayMs retryCount w
  = (c, n, w') ->
  exists extra,
    trace w' = (trace w ++ extra)%list
    /\ AttemptTrace chain hash retryDelayMs c extra
    /\ (retryCount <= n)%nat
    /\ (c = Continued -> (n < maxRetries)%nat /\ n = S retryCount).
Proof.
  unfold tryBlock.
  destruct (bookings w !! key) as [booking|];
    [|intros [= <- <- <-]; exists []; rewrite app_nil_r;
      split; [done|]; split; [by constructor|]; split; [lia|done]].
  destruct (gate (resolvePayment isRemainingPayment booking));
    try (intros [= <- <- <-]; exists []; rewrite app_nil_r;
         split; [done|]; split; [by constructor|]; split; [lia|done]).
  destruct (lockedAmount (resolvePayment isRemainingPayment booking)) as [amount|].
  2:{ intros Hrun. apply markFailed_trace in Hrun as (-> & Hc & ->).
      exists []. rewrite app_nil_r. split; [done|]. split; [by constructor|].
      split; [lia|done]. }
  destruct (negb (getPublicClient env chain));
    [intros [= <- <- <-]; exists []; rewrite app_nil_r;
     split; [done|]; split; [by constructor|]; split; [lia|done]|].
  destruct (getTransactionReceipt env chain hash retryCount) as [receipt| |message].
  - destruct (negb (truthyString (receiptStatus receipt))
              || negb (bool_decide (receiptStatus receipt = "success"))).
    + intros Hrun. apply markFailed_trace in Hrun as (-> & Hc & ->).
      exists [FetchReceipt chain hash]. split; [done|].
      split; [by constructor|]. split; [lia|done].
    + intros Hrun.
      apply matchTransfer_trace in Hrun as (-> & [[Hc ->]|[[Hc ->]|(m & -> & ->)]]).
      * exists [FetchReceipt chain hash]. split; [done|].
        split; [by constructor|]. split; [lia|done].
      * exists [FetchReceipt chain hash; FetchTransaction chain hash].
        split; [cbn; by rewrite <- app_assoc|]. split; [by constructor|].
        split; [lia|done].
      * exists [FetchReceipt chain hash; FetchTransaction chain hash; SendEmail m].
        split; [cbn; by rewrite <- app_assoc|]. split; [constructor|].
        split; [lia|done].
  - destruct (S retryCount <? maxRetries)%nat eqn:Hcmp.
    + intros [= <- <- <-]. exists [FetchReceipt chain hash; Sleep retryDelayMs].
      split; [cbn; by rewrite <- app_assoc|]. split; [constructor|].
      split; [lia|]. intros _. split; [by apply Nat.ltb_lt|done].
    + intros Hrun. apply markFailed_trace in Hrun as (-> & Hc & ->).
      exists [FetchReceipt chain hash]. split; [done|].
      split; [by constructor|]. split; [lia|done].
  - intros [= <- <- <-]. exists [FetchReceipt chain hash]. split; [done|].
    split; [by constructor|]. split; [lia|done].
Qed.

End Calls.

Lemma AttemptTrace_counts (chain : Z) (hash : string) (delay : Z)
    (c : Completion) (extra : list Effect) :
  AttemptTrace chain hash delay c extra ->
  (countIf isFetch extra <= 1)%nat
  /\ (countIf isTransactionRead extra <= countIf isFetch extra)%nat
  /\ (countIf isMail extra <= if c is Returned then 1 else 0)%nat
  /\ countIf isSleep extra = (if c is Continued then 1 else 0)%nat
  /\ forallb (ofVerification chain hash delay) extra = true.
Proof.
  intros [c' Hc|c' Hc| |c' Hc|mail]; cbn;
    rewrite ?bool_decide_eq_true_2 by done;
    repeat split; try lia; try done; destruct c'; try done; lia.
Qed.

Section Budget.

Variable env : Env.
Variables (key hash : string) (chain : Z) (isRemainingPayment : bool).
Variables (maxRetries : nat) (retryDelayMs : Z).

Local Abbreviation iteration' :=
  (iteration env key hash chain isRemainingPayment maxRetries retryDelayMs).
Local Abbreviation retryLoop' :=
  (retryLoop env key hash chain isRemainingPayment maxRetries retryDelayMs).

Lemma iteration_calls (retryCount : nat) (w : World) (step : Step) (w' : World) :
  iteration' retryCount w = (step, w') ->
  exists extra,
    trace w' = (trace w ++ extra)%list
    /\ (countIf isFetch extra <= 1)%nat
    /\ (countIf isTransactionRead extra <= countIf isFetch extra)%nat
    /\ (countIf isMail extra <= if step is Exit then 1 else 0)%nat
    /\ (countIf isSleep extra <= 1)%nat
    /\ forallb (ofVerification chain hash retryDelayMs) extra = true
    /\ match step with
       | Next n =>
           (retryCount < n)%nat
           /\ (countIf isSleep extra = 1%nat -> (n < maxRetries)%nat)
       | _ => countIf isSleep extra = 0%nat
       end.
Proof.
  unfold iteration.
  destruct (tryBlock env key hash chain isRemainingPayment maxRetries retryDelayMs
              retryCount w) as [[c n] w1] eqn:Htry.
  apply tryBlock_trace in Htry as (extra & Htr & Hat & Hn & Hcont).
  apply AttemptTrace_counts in Hat as (Hf & Hr & Hm & Hs & Hall).
  destruct c.
  - intros [= <- <-]. exists extra. repeat split; try done; lia.
  - intros [= <- <-]. exists extra.
    destruct (Hcont eq_refl) as [Hlt ->].
    repeat split; try done; try lia.
  - destruct (maxRetries <=? S n)%nat eqn:Hcmp.
    + destruct (updateBookingStatus key FAILED _ w1) as [w2|] eqn:Hup.
      * intros [= <- <-]. apply updateBookingStatus_trace in Hup.
        exists extra. rewrite Hup. repeat split; try done; lia.
      * intros [= <- <-]. exists extra. repeat split; try done; lia.
    + intros [= <- <-]. exists (extra ++ [Sleep retryDelayMs])%list.
      apply Nat.leb_gt in Hcmp.
      rewrite !countIf_app, forallb_app, Hall. cbn.
      rewrite bool_decide_eq_true_2 by done.
      split; [by rewrite Htr, app_assoc|]. repeat split; try done; lia.
Qed.

Lemma retryLoop_calls (fuel : nat) :
  forall (retryCount : nat) (w : World),
    let w' := snd (retryLoop' fuel retryCount w) in
    exists extra,
      trace w' = (trace w ++ extra)%list
      /\ (countIf isFetch extra <= maxRetries - retryCount)%nat
      /\ (countIf isTransactionRead extra <= countIf isFetch extra)%nat
      /\ (countIf isMail extra <= 1)%nat
      /\ (countIf isSleep extra <= maxRetries - 1 - retryCount)%nat
      /\ forallb (ofVerification chain hash retryDelayMs) extra = true.
Proof.
  assert (forall w : World,
            exists extra,
              trace w = (trace w ++ extra)%list
              /\ (countIf isFetch extra <= 0)%nat
              /\ (countIf isTransactionRead extra <= countIf isFetch extra)%nat
              /\ (countIf isMail extra <= 1)%nat
              /\ (countIf isSleep extra <= 0)%nat
              /\ forallb (ofVerification chain hash retryDelayMs) extra = true)
    as Hnone.
  { intros w. exists []. rewrite app_nil_r. cbn. repeat split; lia. }
  induction fuel as [|fuel IH]; intros retryCount w; cbn zeta.
  - destruct (Hnone w) as (extra & ? & ? & ? & ? & ? & ?).
    exists extra. cbn [retryLoop snd]. repeat split; try done; lia.
  - cbn [retryLoop]. destruct (retryCount <? maxRetries)%nat eqn:Hlt.
    2:{ destruct (Hnone w) as (extra & ? & ? & ? & ? & ? & ?).
        exists extra. cbn [snd]. repeat split; try done; lia. }
    apply Nat.ltb_lt in Hlt.
    destruct (iteration' retryCount w) as [step w1] eqn:Hit.
    apply iteration_calls in Hit
      as (extra & Htr & Hf & Hr & Hm & Hs & Hall & Hstep).
    destruct step as [|n|message].
    + exists extra. cbn [snd]. repeat split; try done; lia.
    + destruct Hstep as [Hn Hwait].
      destruct (IH n w1) as (rest & Htr' & Hf' & Hr' & Hm' & Hs' & Hall').
      exists (extra ++ rest)%list.
      rewrite !countIf_app, forallb_app, Hall, Hall'.
      split; [by rewrite Htr', Htr, app_assoc|].
      repeat split; try done; lia.
    + exists extra. cbn [snd]. repeat split; try done; lia.
Qed.

(** X4.  Whatever the chain, the store and the mail service answer, one
    call of [verifyPayment] only appends to the trace of effects; it asks
    for the receipt at most [maxRetries] times, reads the transaction at most
    as often as it found a receipt to ask about, waits at most
    [maxRetries - 1] times, sends at most one mail, and every RPC read is for
    its own transaction hash on its own chain and every wait lasts
    [retryDelayMs]. *)
Theorem verification_call_budget (w : World) :
  let w' := snd (verifyPayment env key hash chain isRemainingPayment maxRetries
                   retryDelayMs w) in
  exists extra,
    trace w' = (trace w ++ extra)%list
    /\ (countIf isFetch extra <= maxRetries)%nat
    /\ (countIf isTransactionRead extra <= countIf isFetch extra)%nat
    /\ (countIf isMail extra <= 1)%nat
    /\ (countIf isSleep extra <= maxRetries - 1)%nat
    /\ forallb (ofVerification chain hash retryDelayMs) extra = true.
Proof.
  cbn zeta. unfold verifyPayment.
  destruct (retryLoop_calls maxRetries 0 w)
    as (extra & Htr & Hf & Hr & Hm & Hs & Hall).
  exists extra. repeat split; try done; lia.
Qed.

End Budget.

(** ** Errors raised before the receipt is asked for *)

Section EarlyErrors.

Variable env : Env.
Variables (key hash : string) (chain : Z) (isRemainingPayment : bool).
Variables (maxRetries : nat) (retryDelayMs : Z).

Local Abbreviation tryBlock' :=
  (tryBlock env key hash chain isRemainingPayment maxRetries retryDelayMs).
Local Abbreviation retryLoop' :=
  (retryLoop env key hash chain isRemainingPayment maxRetries retryDelayMs).
Local Abbreviation waits := (fun k => replicate k (Sleep retryDelayMs)).

(** The loop, from an attempt on, when every attempt throws [message]
    before it touches anything: the [catch] clause waits after every attempt
    but the last, and after the last it calls [updateBookingStatus], whose
    own failure leaves the function as a rejected promise. *)
Lemma retryLoop_throwing (message : string) (m : gmap string Booking) :
  (forall n w, bookings w = m -> tryBlock' n w = (Thrown message, n, w)) ->
  forall (k retryCount : nat) (w : World),
    bookings w = m ->
    (retryCount + S k = maxRetries)%nat ->
    retryLoop' (S k) retryCount w
    = match updateBookingStatus key FAILED
              [("error", JString message);
               ("attempts", JNumber (inject_Z (Z.of_nat maxRetries)))]
              (emitAll (waits k) w) with
      | Some w' => (Resolved, w')
      | None => (Rejected recordNotFound, emitAll (waits k) w)
      end.
Proof.
  intros Hthrow. induction k as [|k IH]; intros retryCount w Hm Hsum.
  - cbn [replicate]. rewrite emitAll_nil. cbn [retryLoop].
    assert ((retryCount <? maxRetries)%nat = true) as -> by (apply Nat.ltb_lt; lia).
    unfold iteration. rewrite (Hthrow _ _ Hm).
    assert ((maxRetries <=? S retryCount)%nat = true) as -> by (apply Nat.leb_le; lia).
    replace (S retryCount) with maxRetries by lia.
    by destruct (updateBookingStatus key FAILED _ w).
  - rewrite (retryLoop_next _ _ _ _ _ _ _ (S k) retryCount (S retryCount) w
               (emit (Sleep retryDelayMs) w)); [|lia|].
    + rewrite IH; [|done|lia]. by rewrite emitAll_emit.
    + unfold iteration. rewrite (Hthrow _ _ Hm).
      by assert ((maxRetries <=? S retryCount)%nat = false) as ->
        by (apply Nat.leb_gt; lia).
Qed.

(** X5.  A verification for a [bookingId] that has no row never reaches
    the chain: each attempt throws, the [catch] clause waits [retryDelayMs]
    after each attempt but the last, and the final [updateBookingStatus] fails
    in its turn, so that the promise is rejected with the error of the
    update; bookings and activity log are as before. *)
Theorem missing_booking_rejects (w : World) :
  bookings w !! key = None ->
  (0 < maxRetries)%nat ->
  verifyPayment env key hash chain isRemainingPayment maxRetries retryDelayMs w
  = (Rejected recordNotFound, emitAll (waits (maxRetries - 1)%nat) w).
Proof.
  intros Hnone Hpos. unfold verifyPayment.
  replace maxRetries with (S (maxRetries - 1))%nat at 2 by lia.
  rewrite (retryLoop_throwing "Booking not found" (bookings w)); [| |done|lia].
  - unfold updateBookingStatus, bookingUpdate. cbn [emitAll bookings].
    by rewrite Hnone.
  - intros n w0 Hw0. unfold tryBlock. by rewrite Hw0, Hnone.
Qed.

(** X6.  A remaining-payment verification of a booking whose reservation
    is not paid never reaches the chain, whatever the status of the booking:
    all [maxRetries] attempts throw the phase-order error, with a wait after
    each but the last, and then the booking is set to [FAILED], with the
    error and the number of attempts in the activity log. *)
Theorem phase_violation_fails (w : World) (booking : Booking) :
  bookings w !! key = Some booking ->
  isRemainingPayment = true ->
  reservationPaid booking = false ->
  (0 < maxRetries)%nat ->
  verifyPayment env key hash chain isRemainingPayment maxRetries retryDelayMs w
  = (Resolved,
     failedWorld key booking
       [("error", JString PhaseOrderViolation);
        ("attempts", JNumber (inject_Z (Z.of_nat maxRetries)))]
       (emitAll (waits (maxRetries - 1)%nat) w)).
Proof.
  intros Hb Hrem Hpaid Hpos. unfold verifyPayment.
  replace maxRetries with (S (maxRetries - 1))%nat at 2 by lia.
  rewrite (retryLoop_throwing PhaseOrderViolation (bookings w)); [| |done|lia].
  - by rewrite (updateBookingStatus_failed _ _ _ booking).
  - intros n w0 Hw0. unfold tryBlock, resolvePayment.
    rewrite Hw0, Hb, Hrem, Hpaid, andb_false_r. done.
Qed.

End EarlyErrors.

Lemma missing_booking_rejects_witness :
  verifyPayment (sampleEnv (ReceiptFound okReceipt)) "Z" sampleHash 10143 false
    10 3000 oneBooking
  = (Rejected recordNotFound, emitAll (replicate 9 (Sleep 3000)) oneBooking).
Proof.
  apply (missing_booking_rejects (sampleEnv (ReceiptFound okReceipt)) "Z"
           sampleHash 10143 false 10 3000 oneBooking); [reflexivity|lia].
Defined.

Lemma phase_violation_fails_witness :
  status <$> bookings
    (snd (verifyPayment (sampleEnv (ReceiptFound okReceipt)) "A" sampleHash 10143
            true 10 3000
            (sampleWorld [sampleBooking "A" CONFIRMED false]))) !! "A"
  = Some FAILED.
Proof.
  rewrite (phase_violation_fails (sampleEnv (ReceiptFound okReceipt)) "A"
             sampleHash 10143 true 10 3000
             (sampleWorld [sampleBooking "A" CONFIRMED false])
             (sampleBooking "A" CONFIRMED false));
    [reflexivity|reflexivity|reflexivity|reflexivity|lia].
Defined.

(** ** The lock check *)

Lemma orElse_truthy (a : option string) (d : string) :
  truthyString d = true -> truthyString (orElse a d) = true.
Proof. by destruct a as [[|c s]|]. Qed.

Lemma expectedToken_truthy (isRemainingPayment : bool) (booking : Booking) :
  truthyString (expectedToken (resolvePayment isRemainingPayment booking)) = true.
Proof.
  unfold resolvePayment. repeat case_match; cbn [expectedToken];
    repeat apply orElse_truthy; done.
Qed.

(** X7.  The check [!paymentToken || !expectedAmount] can fail on the
    amount only, since the token has fallen back to "USDC" by then.  When the
    amount of the phase is missing or zero, the first attempt sets the
    booking to [FAILED] and ends the verification, which has made no RPC
    read, has not waited and has sent no mail. *)
Theorem unlocked_payment_fails_at_once (env : Env) (key hash : string) (chain : Z)
    (isRemainingPayment : bool) (maxRetries : nat) (retryDelayMs : Z)
    (w : World) (booking : Booking) :
  let x := resolvePayment isRemainingPayment booking in
  (lockedAmount x = None <-> truthyNumber (expectedAmount x) = false)
  /\ (bookings w !! key = Some booking ->
      gate x = Proceed ->
      truthyNumber (expectedAmount x) = false ->
      (0 < maxRetries)%nat ->
      verifyPayment env key hash chain isRemainingPayment maxRetries retryDelayMs w
      = (Resolved,
         failedWorld key booking
           (("error", JString PaymentNotLocked) :: phaseFlags isRemainingPayment x) w)).
Proof.
  cbn zeta.
  assert (lockedAmount (resolvePayment isRemainingPayment booking) = None <->
          truthyNumber (expectedAmount (resolvePayment isRemainingPayment booking))
          = false) as Hiff.
  { unfold lockedAmount. rewrite expectedToken_truthy. cbn [negb orb].
    destruct (expectedAmount (resolvePayment isRemainingPayment booking)) as [q|];
      [|done].
    cbn [truthyNumber]. destruct (negb (Qnum q =? 0)%Z); cbn; split; done. }
  split; [exact Hiff|].
  intros Hb Hg Hamount Hpos. apply Hiff in Hamount.
  unfold verifyPayment. destruct maxRetries as [|n]; [lia|].
  apply retryLoop_exit; [lia|]. unfold iteration, tryBlock.
  rewrite Hb, Hg, Hamount. by rewrite (markFailed_found _ _ _ _ _ Hb).
Qed.

Lemma unlocked_payment_fails_at_once_witness :
  exists w',
    verifyPayment (sampleEnv (ReceiptFound okReceipt)) "B" sampleHash 10143
      true 10 3000
      (sampleWorld [set_reservationPaid true (sampleBooking "B" PENDING false)])
    = (Resolved, w')
    /\ trace w' = [] /\ status <$> bookings w' !! "B" = Some FAILED.
Proof.
  eexists. split; [|split].
  - apply (proj2 (unlocked_payment_fails_at_once (sampleEnv (ReceiptFound okReceipt))
                    "B" sampleHash 10143 true 10 3000
                    (sampleWorld
                       [set_reservationPaid true (sampleBooking "B" PENDING false)])
                    (set_reservationPaid true (sampleBooking "B" PENDING false))));
      [reflexivity|reflexivity|reflexivity|lia].
  - reflexivity.
  - reflexivity.
Defined.

(** ** After the last payment *)

(** X8.  Once a full payment or a remaining payment has been confirmed,
    a later verification of the booking in the same phase returns at once,
    whatever transaction, chain and budget it is given and whatever the node
    answers: the store and the trace stay as they are. *)
Theorem confirmed_phase_is_final (env env' : Env) (key hash hash' : string)
    (chain chain' : Z) (isRemainingPayment : bool) (maxRetries : nat)
    (retryDelayMs : Z) (booking : Booking) (amount : Q) (receipt : Receipt)
    (tx : Transaction) (w : World) :
  gate (resolvePayment isRemainingPayment booking) = Proceed ->
  isReservationPayment (resolvePayment isRemainingPayment booking) = false ->
  bookings w !! key
  = Some (applyData
            (settlementData env hash chain isRemainingPayment booking amount
               receipt tx) booking) ->
  verifyPayment env' key hash' chain' isRemainingPayment maxRetries retryDelayMs w
  = (Resolved, w).
Proof.
  intros Hg Hres Hb.
  apply (already_verified_noop _ _ _ _ _ _ _ _ _ Hb).
  apply gate_already_verified. unfold settlementData. rewrite Hres.
  assert (if isRemainingPayment then reservationPaid booking = true
          else requiresReservation booking = false
               \/ reservationPaid booking = true) as Hphase.
  { revert Hg Hres. unfold resolvePayment.
    destruct isRemainingPayment, (requiresReservation booking),
      (reservationPaid booking); cbn; auto; done. }
  clear Hg Hres. destruct isRemainingPayment.
  - destruct (remainingData_settles env hash chain booking amount
                (expectedToken (resolvePayment true booking)) booking)
      as (_ & _ & Hst & _ & _ & Hpaid & _).
    right. left. rewrite Hpaid. by auto.
  - destruct (fullData_settles env booking receipt tx booking)
      as (Hrr & _ & Hst & Hpaid & _).
    right. right. rewrite Hrr, Hpaid. by auto.
Qed.

Lemma confirmed_phase_is_final_witness :
  status <$> bookings paidInFull !! "A" = Some CONFIRMED
  /\ verifyPayment (sampleEnv ReceiptNull) "A" thirtyUSDC 1 false 10 3000
       paidInFull
     = (Resolved, paidInFull).
Proof.
  split; [reflexivity|].
  apply (confirmed_phase_is_final (sampleEnv (ReceiptFound okReceipt))
           (sampleEnv ReceiptNull) "A" sampleHash thirtyUSDC 10143 1 false 10 3000
           (sampleBooking "A" PENDING false) (inject_Z 30) okReceipt
           {| from := samplePayer; gasPrice := Some 50 |});
    reflexivity.
Defined.

(** * Further properties of submission *)

Lemma tokenMismatch_code (expected : option string) (token : string)
    (response : Response) :
  tokenMismatch expected token = Some response -> httpStatus response = 400.
Proof. unfold tokenMismatch. repeat case_match; by intros [= <-]. Qed.

Lemma validateSubmission_code (booking : Booking) (isRemainingPayment : bool)
    (token : string) (response : Response) :
  validateSubmission booking isRemainingPayment token = Some response ->
  httpStatus response = 400 \/ httpStatus response = 409.
Proof.
  unfold validateSubmission.
  repeat case_match;
    try discriminate;
    try (intros [= <-]; (by left) || (by right));
    try (intros Hm; apply tokenMismatch_code in Hm; by left).
Qed.



Lemma submissionData_same (b : Booking) (hash : string) (chain : Z)
    (isRemainingPayment : bool) :
  let b1 := applyData (submissionData b hash chain isRemainingPayment) b in
  sameExceptSubmission b b1 /\ chainId b1 = Some chain.
Proof.
  unfold sameExceptSubmission, submissionData.
  destruct b, isRemainingPayment; cbn; [by repeat split|].
  destruct requiresReservation0; cbn; by repeat split.
Qed.

(** X10.  What the handler hands over when it accepts: the hash has the
    format of a transaction hash and is not in use, the booking exists and
    is PENDING, or RESERVED with its reservation paid for a remaining
    payment; the row has got the chain id and, in the column of the phase,
    the hash, and every other column, the status and the paid flags among
    them, is as it was; the verification gets the body's booking, hash,
    chain and phase flag, with 10 attempts 3000 ms apart. *)
Theorem accepted_submission_frame (body : SubmitBody) (w : World)
    (response : Response) (w' : World) (call : VerificationCall) :
  POST body w = (response, w', Some call) ->
  let key := callBookingId call in
  let hash := callTxHash call in
  bodyBookingId body = Some key /\ bodyTxHash body = Some hash
  /\ bodyChainId body = Some (callChainId call)
  /\ callIsRemainingPayment call = default false (bodyIsRemainingPayment body)
  /\ callMaxRetries call = 10%nat /\ callRetryDelayMs call = 3000
  /\ isTxHashFormat hash = true
  /\ checkTransactionUsed hash w = false
  /\ exists b b',
       bookings w !! key = Some b
       /\ bookings w' = <[key := b']> (bookings w)
       /\ sameExceptSubmission b b'
       /\ chainId b' = Some (callChainId call)
       /\ (if callIsRemainingPayment call then
             remainingTxHash b' = Some hash
             /\ txHash b' = txHash b /\ reservationTxHash b' = reservationTxHash b
           else if requiresReservation b then
             reservationTxHash b' = Some hash
             /\ txHash b' = txHash b /\ remainingTxHash b' = remainingTxHash b
           else
             txHash b' = Some hash
             /\ reservationTxHash b' = reservationTxHash b
             /\ remainingTxHash b' = remainingTxHash b)
       /\ (status b = PENDING
           \/ (status b = RESERVED /\ requiresReservation b = true
               /\ reservationPaid b = true /\ remainingPaid b = false
               /\ callIsRemainingPayment call = true)).
Proof.
  unfold POST.
  destruct (requiredFields body) as [[[[key hash] chain] token]|] eqn:Hreq;
    [|discriminate].
  destruct (isTxHashFormat hash) eqn:Hformat; cbn [negb]; [|discriminate].
  destruct (checkTransactionUsed hash w) eqn:Hu; [discriminate|].
  destruct (bookings w !! key) as [b|] eqn:Hb; [|discriminate].
  destruct (validateSubmission b _ token) eqn:Hv; [discriminate|].
  rewrite (bookingUpdate_found _ _ _ _ Hb). intros [= <- <- <-]. cbn.
  assert (bodyBookingId body = Some key /\ bodyTxHash body = Some hash
          /\ bodyChainId body = Some chain) as (Hk & Hh & Hc).
  { revert Hreq. unfold requiredFields. repeat case_match; try discriminate.
    by intros [= <- <- <- <-]. }
  do 8 (split; [done|]).
  exists b, (applyData (submissionData b hash chain
                          (default false (bodyIsRemainingPayment body))) b).
  destruct (submissionData_same b hash chain
              (default false (bodyIsRemainingPayment body))) as [Hsame Hchain].
  destruct (submissionData_row b hash chain
              (default false (bodyIsRemainingPayment body)))
    as (_ & _ & _ & _ & Hslot).
  do 5 (split; [done|]).
  apply validateSubmission_None in Hv.
  destruct (requiresReservation b);
    [destruct (default false (bodyIsRemainingPayment body))|];
    [right|left|left]; tauto.
Qed.

Lemma accepted_submission_frame_witness :
  exists b',
    bookings (snd (fst (POST (sampleBody "A" false) oneBooking))) !! "A" = Some b'
    /\ txHash b' = Some sampleHash /\ status b' = PENDING.
Proof.
  destruct (POST (sampleBody "A" false) oneBooking) as [[response w'] [call|]] eqn:Hrun;
    [|revert Hrun; by vm_compute].
  destruct (accepted_submission_frame _ _ _ _ _ Hrun)
    as (Hk & Hh & _ & Hflag & _ & _ & _ & _ & b & b' & Hb & Hm & Hsame & _ & Hslot & _).
  cbn in Hk, Hh, Hflag. injection Hk as Hk. injection Hh as Hh.
  cbv zeta in Hb, Hm, Hslot. rewrite <- Hk in Hb, Hm. rewrite <- Hh, Hflag in Hslot.
  assert (bookings oneBooking !! "A" = Some (sampleBooking "A" PENDING false))
    as Hrow by (vm_compute; reflexivity).
  rewrite Hrow in Hb. injection Hb as Hb. subst b.
  exists b'. cbn [fst snd]. rewrite Hm, lookup_insert_eq.
  cbn in Hslot. split; [done|]. split; [tauto|].
  destruct Hsame as (_ & _ & _ & _ & _ & -> & _). reflexivity.
Defined.

(** X11.  The handler takes a booking that needs no reservation through
    its full-payment checks whatever the body's [isRemainingPayment] says,
    but writes the hash and starts the verification by that flag.  A
    remaining-payment submission for a PENDING booking without reservation is
    therefore accepted with 200 and answered as [remaining]; the hash goes to
    [remainingTxHash], and the verification it starts fails on the phase
    order at each of its 10 attempts, so that the booking ends FAILED after
    nine waits without one read of the chain. *)
Theorem remaining_flag_without_reservation (env : Env) (body : SubmitBody)
    (w : World) (key hash : string) (chain : Z) (token : string)
    (booking : Booking) :
  requiredFields body = Some (key, hash, chain, token) ->
  isTxHashFormat hash = true ->
  checkTransactionUsed hash w = false ->
  bookings w !! key = Some booking ->
  bodyIsRemainingPayment body = Some true ->
  requiresReservation booking = false ->
  reservationPaid booking = false ->
  status booking = PENDING ->
  truthyOptString (paymentToken booking) = true ->
  truthyNumber (paymentAmount booking) = true ->
  exists response w1 call w2 b2,
    POST body w = (response, w1, Some call)
    /\ httpStatus response = 200
    /\ In ("paymentType", JString "remaining") (responseBody response)
    /\ runVerification env call w1 = (Resolved, w2)
    /\ bookings w2 !! key = Some b2
    /\ status b2 = FAILED
    /\ remainingTxHash b2 = Some hash /\ txHash b2 = txHash booking
    /\ trace w2 = (trace w ++ replicate 9 (Sleep 3000))%list.
Proof.
  intros Hreq Hformat Hunused Hb Hflag Hres Hpaid Hst Htoken Hamount.
  unfold POST. rewrite Hreq, Hformat, Hunused, Hb, Hflag.
  change (default false (Some true)) with true. cbn [negb].
  assert (validateSubmission booking true token = None) as ->.
  { unfold validateSubmission. rewrite Hres, Hst, Htoken, Hamount.
    by rewrite bool_decide_eq_true_2. }
  rewrite (bookingUpdate_found _ _ _ _ Hb).
  set (b1 := applyData (submissionData booking hash chain true) booking).
  destruct (submissionData_row booking hash chain true)
    as (_ & Hst1 & Hpaid1 & _ & Hslot & Htx & _).
  fold b1 in Hst1, Hpaid1, Hslot, Htx.
  match goal with
  | |- context [Some {| callBookingId := key; callTxHash := hash;
                        callChainId := chain; callIsRemainingPayment := true;
                        callMaxRetries := ?n; callRetryDelayMs := ?d |}] =>
      set (call := {| callBookingId := key; callTxHash := hash;
                      callChainId := chain; callIsRemainingPayment := true;
                      callMaxRetries := n; callRetryDelayMs := d |})
  end.
  match goal with
  | |- context [(_, ?v, Some call)] => set (w1 := v)
  end.
  assert (bookings w1 !! key = Some b1) as Hb1
    by (subst w1; cbn; by rewrite lookup_insert_eq).
  eexists _, w1, call, _, (set_status FAILED b1).
  split; [reflexivity|]. split; [reflexivity|].
  split; [cbn; tauto|].
  split.
  { unfold runVerification, verifyPayment. subst call. cbn [callBookingId
      callTxHash callChainId callIsRemainingPayment callMaxRetries callRetryDelayMs].
    rewrite (retryLoop_throwing env key hash chain true 10 3000
               PhaseOrderViolation (bookings w1)); [|..|done|lia].
    - rewrite (updateBookingStatus_failed _ _ _ b1); [reflexivity|exact Hb1].
    - intros n w0 Hw0. unfold tryBlock, resolvePayment.
      rewrite Hw0, Hb1, Hpaid1, Hpaid, andb_false_r. done. }
  cbn [failedWorld bookings trace emitAll].
  rewrite lookup_insert_eq.
  split; [done|]. split; [apply set_status_status|].
  pose proof (set_status_same FAILED b1) as Hsame.
  unfold sameExceptStatus in Hsame.
  split; [|split].
  - transitivity (remainingTxHash b1); [tauto|exact Hslot].
  - transitivity (txHash b1); [tauto|exact Htx].
  - subst w1. reflexivity.
Qed.

Lemma remaining_flag_without_reservation_witness :
  map httpStatus (responses remainingForFull) = [200]
  /\ exists b2,
       bookings (world remainingForFull) !! "A" = Some b2
       /\ status b2 = FAILED /\ remainingTxHash b2 = Some sampleHash
       /\ trace (world remainingForFull) = replicate 9 (Sleep 3000).
Proof.
  destruct (remaining_flag_without_reservation (sampleEnv (ReceiptFound okReceipt))
              (sampleBody "A" true) oneBooking "A" sampleHash 10143 "USDC"
              (sampleBooking "A" PENDING false))
    as (response & w1 & call & w2 & b2 & Hpost & Hcode & _ & Hrun & Hb2 & Hst
        & Hslot & _ & Htr);
    try reflexivity.
  unfold remainingForFull, serve, freshServer. cbn [fold_left act world].
  rewrite Hpost. cbn [world pending responses app option_list lookup].
  cbn. rewrite Hrun. cbn [snd].
  split; [by rewrite Hcode|]. exists b2. by rewrite Htr.
Defined.

Lemma requiredFields_withToken (body : SubmitBody) (key hash : string) (chain : Z)
    (token token' : string) :
  requiredFields body = Some (key, hash, chain, token) ->
  truthyString token' = true ->
  requiredFields (withToken (Some token') body) = Some (key, hash, chain, token').
Proof.
  unfold requiredFields, withToken. cbn.
  destruct (bodyBookingId body) as [k|], (bodyTxHash body) as [h|],
    (bodyChainId body) as [c|], (bodyPaymentToken body) as [t|]; try done.
  intros Hreq ->. revert Hreq.
  destruct (truthyString k && truthyString h && negb (c =? 0)%Z); cbn;
    [|by rewrite ?andb_false_r].
  destruct (truthyString t); [|done]. by intros [= <- <- <- <-].
Qed.

(** X12.  For a booking that needs no reservation the [paymentToken] of
    the body is required to be present and is written to the activity log,
    and that is all: it is compared with nothing, so that two submissions
    that differ in it alone get the same response, leave the same bookings
    and start the same verification. *)
Theorem submitted_token_unchecked (body : SubmitBody) (w : World)
    (key hash : string) (chain : Z) (token token' : string) :
  requiredFields body = Some (key, hash, chain, token) ->
  truthyString token' = true ->
  (forall b, bookings w !! key = Some b -> requiresReservation b = false) ->
  let result := POST body w in
  let result' := POST (withToken (Some token') body) w in
  fst (fst result') = fst (fst result)
  /\ bookings (snd (fst result')) = bookings (snd (fst result))
  /\ snd result' = snd result.
Proof.
  intros Hreq Htoken Hfull. cbn zeta. unfold POST.
  rewrite (requiredFields_withToken _ _ _ _ _ _ Hreq Htoken), Hreq.
  change (bodyIsRemainingPayment (withToken (Some token') body))
    with (bodyIsRemainingPayment body).
  destruct (isTxHashFormat hash); cbn [negb]; [|done].
  destruct (checkTransactionUsed hash w); [done|].
  destruct (bookings w !! key) as [b|] eqn:Hb; [|done].
  assert (forall t, validateSubmission b (default false (bodyIsRemainingPayment body)) t
                    = validateSubmission b (default false (bodyIsRemainingPayment body))
                        token) as Hsame.
  { intros t. unfold validateSubmission. by rewrite (Hfull b eq_refl). }
  rewrite (Hsame token').
  destruct (validateSubmission b _ token); [done|].
  rewrite (bookingUpdate_found _ _ _ _ Hb). done.
Qed.

Lemma submitted_token_unchecked_witness :
  httpStatus (fst (fst (POST (withToken (Some "DAI") (sampleBody "A" false))
                          oneBooking))) = 200
  /\ snd (POST (withToken (Some "DAI") (sampleBody "A" false)) oneBooking)
     = snd (POST (sampleBody "A" false) oneBooking).
Proof.
  destruct (submitted_token_unchecked (sampleBody "A" false) oneBooking "A"
              sampleHash 10143 "USDC" "DAI" eq_refl eq_refl) as (Hr & _ & Hc).
  - intros b. vm_compute. by intros [= <-].
  - split; [rewrite Hr; reflexivity|exact Hc].
Defined.

(** * The client table *)

(** X13.  [getSupportedChainIds] lists exactly the chains for which
    [getPublicClient] yields a client, and [isChainSupported] holds for each
    of them; but [isChainSupported] also holds for every chain that has no
    entry in the table at all, for which [getPublicClient] yields [null]. *)
Theorem chain_support_agreement (env : Env) (chainId : Z) :
  (In chainId (getSupportedChainIds env) <-> getPublicClient env chainId = true)
  /\ (getPublicClient env chainId = true -> isChainSupported env chainId = true)
  /\ (clients env !! chainId = None <->
      isChainSupported env chainId = true /\ getPublicClient env chainId = false).
Proof.
  unfold getSupportedChainIds, getPublicClient, isChainSupported.
  split; [|split].
  - rewrite List.filter_In, <- list_elem_of_In, list_elem_of_fmap.
    split.
    + intros [([c ready] & -> & Hin) Hready]. cbn in Hready |- *.
      apply elem_of_map_to_list in Hin. rewrite Hin in Hready |- *. exact Hready.
    + destruct (clients env !! chainId) as [ready|] eqn:Hc; [|done].
      intros ->. split; [|done].
      exists (chainId, true). split; [done|]. by apply elem_of_map_to_list.
  - by destruct (clients env !! chainId).
  - destruct (clients env !! chainId) as [[]|]; split; try done;
      intros [? ?]; done.
Qed.

Section NoClient.

Variable env : Env.
Variables (key hash : string) (chain : Z) (isRemainingPayment : bool).
Variables (maxRetries : nat) (retryDelayMs : Z).

Hypothesis Hnone : getPublicClient env chain = false.

Lemma tryBlock_no_client_trace (retryCount : nat) (w : World) :
  exists c w',
    tryBlock env key hash chain isRemainingPayment maxRetries retryDelayMs retryCount w
    = (c, retryCount, w')
    /\ trace w' = trace w /\ c <> Continued.
Proof.
  unfold tryBlock.
  destruct (bookings w !! key) as [booking|]; [|by eexists _, _].
  destruct (gate (resolvePayment isRemainingPayment booking)); try by eexists _, _.
  destruct (lockedAmount (resolvePayment isRemainingPayment booking)).
  - rewrite Hnone. cbn [negb]. by eexists _, _.
  - destruct (markFailed key _ retryCount w) as [[c n] w'] eqn:Hrun.
    apply markFailed_trace in Hrun as (Htr & Hc & ->). by exists c, w'.
Qed.

Lemma retryLoop_no_client (fuel : nat) : forall (retryCount : nat) (w : World),
  exists k,
    trace (snd (retryLoop env key hash chain isRemainingPayment maxRetries
                  retryDelayMs fuel retryCount w))
    = (trace w ++ replicate k (Sleep retryDelayMs))%list
    /\ (k <= maxRetries - 1 - retryCount)%nat.
Proof.
  induction fuel as [|fuel IH]; intros retryCount w.
  - exists 0%nat. cbn. rewrite app_nil_r. split; [done|lia].
  - cbn [retryLoop]. destruct (retryCount <? maxRetries)%nat eqn:Hlt.
    2:{ exists 0%nat. cbn. rewrite app_nil_r. split; [done|lia]. }
    apply Nat.ltb_lt in Hlt. unfold iteration.
    destruct (tryBlock_no_client_trace retryCount w) as (c & w1 & -> & Htr & Hc).
    destruct c as [| |message]; [|done|].
    + exists 0%nat. cbn. rewrite app_nil_r. split; [done|lia].
    + destruct (maxRetries <=? S retryCount)%nat eqn:Hcmp.
      * destruct (updateBookingStatus key FAILED _ w1) as [w2|] eqn:Hup.
        -- apply updateBookingStatus_trace in Hup.
           rewrite retryLoop_done by by apply Nat.leb_le.
           exists 0%nat. cbn. rewrite app_nil_r, Hup. split; [done|lia].
        -- exists 0%nat. cbn. rewrite app_nil_r. split; [done|lia].
      * apply Nat.leb_gt in Hcmp.
        destruct (IH (S retryCount) (emit (Sleep retryDelayMs) w1)) as (k & Hk & Hle).
        exists (S k). rewrite Hk. cbn [emit trace replicate].
        rewrite Htr, <- app_assoc. split; [done|lia].
Qed.

(** X14.  For a chain without client, a verification reads nothing from
    any chain and sends no mail: all it appends to the trace are waits of
    [retryDelayMs], at most [maxRetries - 1] of them. *)
Theorem no_client_no_reads (w : World) :
  exists k,
    trace (snd (verifyPayment env key hash chain isRemainingPayment maxRetries
                  retryDelayMs w))
    = (trace w ++ replicate k (Sleep retryDelayMs))%list
    /\ (k <= maxRetries - 1)%nat.
Proof.
  destruct (retryLoop_no_client maxRetries 0 w) as (k & Hk & Hle).
  exists k. split; [exact Hk|lia].
Qed.

End NoClient.

Lemma no_client_no_reads_witness :
  isChainSupported (sampleEnv (ReceiptFound okReceipt)) 1 = true
  /\ exists k,
       trace (snd (verifyPayment (sampleEnv (ReceiptFound okReceipt)) "A" sampleHash
                     1 false 10 3000 oneBooking))
       = replicate k (Sleep 3000)
       /\ (k <= 9)%nat.
Proof.
  split; [reflexivity|].
  apply (no_client_no_reads (sampleEnv (ReceiptFound okReceipt)) "A" sampleHash
           1 false 10 3000 eq_refl oneBooking).
Defined.

(** * The page and the handler *)

Lemma POST_accepted_status (body : SubmitBody) (w : World) (response : Response)
    (w' : World) (call : VerificationCall) :
  POST body w = (response, w', Some call) ->
  exists b,
    bookings w !! callBookingId call = Some b
    /\ (status b = PENDING \/ status b = RESERVED)
    /\ validateSubmission b (callIsRemainingPayment call)
         (default "" (bodyPaymentToken body)) = None
    /\ bookings w' !! callBookingId call
       = Some (applyData (submissionData b (callTxHash call) (callChainId call)
                            (callIsRemainingPayment call)) b).
Proof.
  unfold POST.
  destruct (requiredFields body) as [[[[key hash] chain] token]|] eqn:Hreq;
    [|discriminate].
  assert (bodyPaymentToken body = Some token) as ->.
  { revert Hreq. unfold requiredFields. repeat case_match; try discriminate.
    by intros [= <- <- <- <-]. }
  destruct (isTxHashFormat hash); cbn [negb]; [|discriminate].
  destruct (checkTransactionUsed hash w); [discriminate|].
  destruct (bookings w !! key) as [b|] eqn:Hb; [|discriminate].
  destruct (validateSubmission b _ token) eqn:Hv; [discriminate|].
  rewrite (bookingUpdate_found _ _ _ _ Hb). intros [= <- <- <-]. cbn.
  exists b. split; [done|]. split; [|split; [done|by rewrite lookup_insert_eq]].
  apply validateSubmission_None in Hv.
  destruct (requiresReservation b), (default false (bodyIsRemainingPayment body));
    tauto.
Qed.

(** X15.  The page computes the remaining-payment flag from the booking
    as [requiresReservation && reservationPaid && !remainingPaid].  With that
    flag the verifier resolves the reservation phase exactly when the page
    shows it, and neither the handler's nor the verifier's phase-order check
    can fail; a submission of the page that the handler accepts starts a
    verification whose phase checks, on the row as the handler left it, do
    not throw. *)
Theorem page_flag_agrees (booking : Booking) :
  let flag := Page.isRemainingPayment booking in
  isReservationPayment (resolvePayment flag booking)
  = Page.isReservationPayment booking
  /\ (forall message, gate (resolvePayment flag booking) <> Violation message)
  /\ (forall token,
        validateSubmission booking flag token
        <> Some (errorResponse 400
                   "Cannot submit remaining payment - reservation not paid yet" []))
  /\ (forall tx selectedChain selectedToken w response w' call,
        bookings w !! bookingId booking = Some booking ->
        POST (Page.submission booking tx selectedChain selectedToken) w
        = (response, w', Some call) ->
        exists b',
          bookings w' !! bookingId booking = Some b'
          /\ callIsRemainingPayment call = flag
          /\ isReservationPayment (resolvePayment flag b')
             = Page.isReservationPayment booking
          /\ forall message, gate (resolvePayment flag b') <> Violation message).
Proof.
  cbn zeta.
  assert (forall b : Booking,
            requiresReservation b = requiresReservation booking ->
            reservationPaid b = reservationPaid booking ->
            isReservationPayment
              (resolvePayment (Page.isRemainingPayment booking) b)
            = Page.isReservationPayment booking
            /\ forall message,
                 gate (resolvePayment (Page.isRemainingPayment booking) b)
                 <> Violation message) as Hphase.
  { intros b Hrr Hrp.
    unfold resolvePayment, Page.isRemainingPayment, Page.isReservationPayment.
    rewrite Hrr, Hrp.
    destruct (requiresReservation booking), (reservationPaid booking),
      (remainingPaid booking); cbn; split; try done;
      intros message; repeat case_match; done. }
  destruct (Hphase booking eq_refl eq_refl) as [Hres Hgate].
  split; [exact Hres|]. split; [exact Hgate|]. split.
  - intros token. unfold validateSubmission, Page.isRemainingPayment.
    destruct (requiresReservation booking), (reservationPaid booking),
      (remainingPaid booking); cbn; repeat case_match; try done;
      unfold tokenMismatch; repeat case_match; done.
  - intros tx selectedChain selectedToken w response w' call Hb Hpost.
    assert (callBookingId call = bookingId booking
            /\ callIsRemainingPayment call = Page.isRemainingPayment booking)
      as [Hkey Hflag].
    { unfold POST in Hpost.
      destruct (requiredFields (Page.submission booking tx selectedChain selectedToken))
        as [[[[key hash] chain] token]|] eqn:Hreq; [|discriminate].
      assert (key = bookingId booking) as ->.
      { revert Hreq. unfold requiredFields, Page.submission. cbn.
        repeat case_match; try discriminate; by intros [= <- _ _ _]. }
      change (default false (bodyIsRemainingPayment
                               (Page.submission booking tx selectedChain selectedToken)))
        with (Page.isRemainingPayment booking) in Hpost.
      destruct (negb (isTxHashFormat hash)); [discriminate|].
      destruct (checkTransactionUsed hash w); [discriminate|].
      destruct (bookings w !! bookingId booking) as [b|]; [|discriminate].
      destruct (validateSubmission b _ token); [discriminate|].
      destruct (bookingUpdate _ _ w); [|discriminate].
      by injection Hpost as _ _ <-. }
    apply POST_accepted_status in Hpost as (b & Hb' & _ & _ & Hrow).
    rewrite Hkey in Hb', Hrow. rewrite Hb in Hb'. injection Hb' as <-.
    eexists. split; [exact Hrow|]. split; [exact Hflag|].
    destruct (submissionData_row booking (callTxHash call) (callChainId call)
                (callIsRemainingPayment call)) as (Hrr & _ & Hrp & _).
    by apply Hphase.
Qed.

(** * Rejection *)

Lemma rejectBooking_waitlisted (key : string) (reason : option JSON) (w : World)
    (booking : Booking) :
  bookings w !! key = Some booking ->
  status booking = WAITLISTED ->
  rejectBooking key reason w
  = (RejectDone (truthyOptString (userEmail booking)) (bookingId booking) CANCELLED,
     {| bookings := <[key := set_status CANCELLED booking]> (bookings w);
        activityLog :=
          activityLog w
          ++ [{| logBookingId := id booking;
                 logUserId := userId booking;
                 action := "waitlist_rejected";
                 entity := "booking";
                 entityId := id booking;
                 details :=
                   [("previousStatus", JString "WAITLISTED");
                    ("newStatus", JString "CANCELLED");
                    ("reason",
                     default (JString "Application rejected by admin") reason)] |}];
        trace := trace w |}).
Proof.
  intros Hb Hst. unfold rejectBooking. rewrite Hb, Hst.
  rewrite bool_decide_eq_true_2 by done. cbn [negb].
  rewrite (bookingUpdate_found _ _ _ _ Hb).
  cbn [withBookings bookings applyData fold_left]. rewrite lookup_insert_eq.
  destruct (set_status_same CANCELLED booking) as (_ & -> & _).
  by rewrite set_status_status.
Qed.

(** X16.  The rejection handler changes the store exactly when the
    booking exists and is WAITLISTED: then the row becomes CANCELLED with
    every other column as it was, every other row stays, one
    [waitlist_rejected] entry is logged and the answer is 200.  A missing
    booking gets 404 and a booking in any other status 409 with that status,
    the store untouched in both cases.  No chain is read and no mail sent. *)
Theorem reject_only_waitlisted (key : string) (reason : option JSON) (w : World) :
  let response := fst (rejectBooking key reason w) in
  let w' := snd (rejectBooking key reason w) in
  trace w' = trace w
  /\ match bookings w !! key with
     | None => response = RejectNotFound /\ w' = w
     | Some booking =>
         if bool_decide (status booking = WAITLISTED) then
           rejectStatus response = 200
           /\ bookings w' = <[key := set_status CANCELLED booking]> (bookings w)
           /\ status (set_status CANCELLED booking) = CANCELLED
           /\ sameExceptStatus booking (set_status CANCELLED booking)
           /\ exists entry,
                activityLog w' = (activityLog w ++ [entry])%list
                /\ action entry = "waitlist_rejected"
         else
           rejectStatus response = 409 /\ w' = w
           /\ exists message, response = RejectConflict message (status booking)
     end.
Proof.
  cbn zeta. destruct (bookings w !! key) as [booking|] eqn:Hb.
  - case_bool_decide as Hst.
    + rewrite (rejectBooking_waitlisted _ _ _ _ Hb Hst). cbn [fst snd].
      split; [done|]. split; [done|]. split; [done|].
      split; [apply set_status_status|]. split; [apply set_status_same|].
      by eexists.
    + unfold rejectBooking. rewrite Hb.
      rewrite bool_decide_eq_false_2 by done. cbn.
      split; [done|]. split; [done|]. split; [done|]. by eexists.
  - unfold rejectBooking. by rewrite Hb.
Qed.

(** X17.  A rejected booking cannot be paid: after the rejection of a
    waitlisted booking, the submission handler refuses every submission for
    it, whatever hash, chain, token and phase flag it carries, leaves the
    store as it is and starts no verification; and a second rejection is
    answered 409 and changes nothing. *)
Theorem rejected_booking_cannot_pay (key : string) (reason reason' : option JSON)
    (w : World) (booking : Booking) (body : SubmitBody) :
  bookings w !! key = Some booking ->
  status booking = WAITLISTED ->
  bodyBookingId body = Some key ->
  let w' := snd (rejectBooking key reason w) in
  (exists response,
     POST body w' = (response, w', None)
     /\ In (httpStatus response) [400; 409])
  /\ rejectBooking key reason' w'
     = (RejectConflict "Cannot reject. Booking status is: CANCELLED" CANCELLED, w').
Proof.
  intros Hb Hst Hkey. cbn zeta.
  rewrite (rejectBooking_waitlisted _ _ _ _ Hb Hst). cbn [snd].
  set (w' := {| bookings := _; activityLog := _; trace := _ |}).
  assert (bookings w' !! key = Some (set_status CANCELLED booking)) as Hb'
    by (subst w'; cbn; by rewrite lookup_insert_eq).
  split.
  - unfold POST.
    destruct (requiredFields body) as [[[[k hash] chain] token]|] eqn:Hreq.
    2:{ eexists. split; [reflexivity|]. cbn. auto. }
    assert (k = key) as ->.
    { revert Hreq. unfold requiredFields. rewrite Hkey.
      repeat case_match; try discriminate; by intros [= <- _ _ _]. }
    destruct (isTxHashFormat hash); cbn [negb].
    2:{ eexists. split; [reflexivity|]. cbn. auto. }
    destruct (checkTransactionUsed hash w').
    { eexists. split; [reflexivity|]. cbn. auto. }
    rewrite Hb'.
    destruct (validateSubmission (set_status CANCELLED booking) _ token)
      as [response|] eqn:Hv.
    + exists response. split; [reflexivity|].
      apply validateSubmission_code in Hv. destruct Hv as [-> | ->]; cbn; auto.
    + apply validateSubmission_None in Hv.
      rewrite set_status_status in Hv. repeat case_match; intuition congruence.
  - unfold rejectBooking. rewrite Hb', set_status_status.
    by rewrite bool_decide_eq_false_2.
Qed.

Lemma rejected_booking_cannot_pay_witness :
  httpStatus (fst (fst (POST (sampleBody "A" false)
                          (snd (rejectBooking "A" None waitlisted))))) = 409
  /\ snd (POST (sampleBody "A" false) (snd (rejectBooking "A" None waitlisted)))
     = None.
Proof.
  destruct (rejected_booking_cannot_pay "A" None None waitlisted
              (sampleBooking "A" WAITLISTED false) (sampleBody "A" false)
              eq_refl eq_refl eq_refl) as [(response & Hpost & _) _].
  rewrite Hpost. split; [|reflexivity].
  revert Hpost. vm_compute. by intros [= <-].
Defined.

(** * Release of a transaction hash *)

(** X18.  Setting a booking to FAILED never makes a hash used, keeps
    the hashes of a paid reservation and of a paid remainder used, and
    releases the hash of the full payment: a hash that was in use only as
    the full payment of the booking is reported unused by
    [checkTransactionUsed] afterwards. *)
Theorem failure_releases_hash (key : string) (details : list (string * JSON))
    (w w' : World) :
  updateBookingStatus key FAILED details w = Some w' ->
  (forall hash, consumed hash key FullPayment w' = false)
  /\ (forall hash phase,
        phase <> FullPayment ->
        consumed hash key phase w' = consumed hash key phase w)
  /\ (forall hash other phase,
        other <> key -> consumed hash other phase w' = consumed hash other phase w)
  /\ (forall hash,
        (forall other phase,
           consumed hash other phase w = true -> other = key /\ phase = FullPayment) ->
        checkTransactionUsed hash w' = false).
Proof.
  intros Hup. apply updateBookingStatus_Some in Hup as (b & Hb & Hm).
  assert (forall hash, consumed hash key FullPayment w' = false) as Hfull.
  { intros hash. rewrite (consumed_insert _ _ _ _ _ _ _ Hm).
    rewrite decide_True by done. unfold binds.
    rewrite set_status_status. by rewrite andb_false_r. }
  assert (forall hash phase,
            phase <> FullPayment ->
            consumed hash key phase w' = consumed hash key phase w) as Hpaid.
  { intros hash phase Hphase. rewrite (consumed_insert _ _ _ _ _ _ _ Hm).
    rewrite decide_True by done. unfold consumed. rewrite Hb.
    pose proof (set_status_same FAILED b) as Hsame.
    unfold sameExceptStatus in Hsame.
    destruct phase; [done| |]; unfold binds.
    - by replace (reservationTxHash (set_status FAILED b))
        with (reservationTxHash b) by (symmetry; tauto);
      replace (reservationPaid (set_status FAILED b))
        with (reservationPaid b) by (symmetry; tauto).
    - by replace (remainingTxHash (set_status FAILED b))
        with (remainingTxHash b) by (symmetry; tauto);
      replace (remainingPaid (set_status FAILED b))
        with (remainingPaid b) by (symmetry; tauto). }
  assert (forall hash other phase,
            other <> key ->
            consumed hash other phase w' = consumed hash other phase w) as Hother.
  { intros hash other phase Hne. rewrite (consumed_insert _ _ _ _ _ _ _ Hm).
    by rewrite decide_False by done. }
  split; [exact Hfull|]. split; [exact Hpaid|]. split; [exact Hother|].
  intros hash Honly. apply unused_spec. intros other phase.
  destruct (decide (other = key)) as [->|Hne].
  - destruct phase; [apply Hfull| |]; rewrite Hpaid by done.
    + destruct (consumed hash key ReservationPhase w) eqn:Hc; [|done].
      by destruct (Honly _ _ Hc).
    + destruct (consumed hash key RemainingPhase w) eqn:Hc; [|done].
      by destruct (Honly _ _ Hc).
  - rewrite Hother by done.
    destruct (consumed hash other phase w) eqn:Hc; [|done].
    by destruct (Honly _ _ Hc).
Qed.

Lemma failure_releases_hash_witness :
  exists w',
    updateBookingStatus "A" FAILED [] submittedAndPaid = Some w'
    /\ checkTransactionUsed sampleHash submittedAndPaid = true
    /\ consumed sampleHash "A" FullPayment w' = false.
Proof.
  destruct (updateBookingStatus "A" FAILED [] submittedAndPaid) as [w'|] eqn:Hup;
    [|by vm_compute in Hup].
  exists w'. split; [reflexivity|]. split; [by vm_compute|].
  apply (proj1 (failure_releases_hash _ _ _ _ Hup)).
Defined.

(** * What the matcher reads *)

Lemma find_app_none {A : Type} (p : A -> bool) (l1 l2 : list A) :
  (forall x, In x l1 -> p x = false) ->
  List.find p (l1 ++ l2) = List.find p l2.
Proof.
  intros Hnone. induction l1 as [|x l1 IH]; [done|].
  cbn. rewrite (Hnone x) by (by left). apply IH. intros y Hy. apply Hnone. by right.
Qed.

Lemma confirmPayment_logs (env : Env) (key hash : string) (chain : Z)
    (isRemainingPayment : bool) (booking : Booking) (x : Expectation) (amount : Q)
    (receipt : Receipt) (entries : list Log) (retryCount : nat) (w : World) :
  confirmPayment env key hash chain isRemainingPayment booking x amount
    (withLogs entries receipt) retryCount w
  = confirmPayment env key hash chain isRemainingPayment booking x amount
      receipt retryCount w.
Proof. reflexivity. Qed.

(** X19.  The scan for the recipient stops at the first Transfer log of
    the token that goes to the treasury, and that log decides the attempt:
    whatever logs follow it in the receipt, further transfers to the treasury
    among them, the attempt ends and writes as if they were not there. *)
Theorem later_logs_ignored (env : Env) (key hash : string) (chain : Z)
    (isRemainingPayment : bool) (booking : Booking) (x : Expectation) (amount : Q)
    (receipt : Receipt) (retryCount : nat) (w : World)
    (chainInfo : ChainConfig) (tokenInfo : TokenConfig)
    (before : list Log) (log : Log) (after : list Log) :
  chainConfig !! chain = Some chainInfo ->
  tokens chainInfo !! expectedToken x = Some tokenInfo ->
  logs receipt = (before ++ log :: after)%list ->
  isTransferLog (toLowerCase (tokenAddress tokenInfo)) log = true ->
  isToTreasury log = true ->
  (forall l, In l before ->
     isTransferLog (toLowerCase (tokenAddress tokenInfo)) l && isToTreasury l = false) ->
  matchTransfer env key hash chain isRemainingPayment booking x amount receipt
    retryCount w
  = matchTransfer env key hash chain isRemainingPayment booking x amount
      (withLogs (before ++ [log]) receipt) retryCount w.
Proof.
  intros Hchain Htoken Hlogs Htransfer Hto Hbefore.
  unfold matchTransfer. rewrite Hchain, Htoken.
  destruct (parseUnits env amount (decimals tokenInfo)) as [units|]; [|done].
  cbn [withLogs logs]. rewrite Hlogs, !List.filter_app.
  cbn [List.filter]. rewrite Htransfer.
  assert (forall rest,
            List.find isToTreasury
              (List.filter (isTransferLog (toLowerCase (tokenAddress tokenInfo))) before
               ++ log :: rest)
            = Some log) as Hfind.
  { intros rest. rewrite find_app_none.
    - cbn. by rewrite Hto.
    - intros l Hl. apply List.filter_In in Hl as [Hin Htr].
      specialize (Hbefore l Hin). by rewrite Htr in Hbefore. }
  rewrite !Hfind.
  assert (forall rest,
            (length (List.filter (isTransferLog (toLowerCase (tokenAddress tokenInfo)))
                       before ++ log :: rest) =? 0)%nat = false) as Hlen.
  { intros rest. rewrite length_app. cbn. apply Nat.eqb_neq. lia. }
  rewrite !Hlen.
  destruct (BigInt (data log)) as [value|]; [|done].
  destruct (bool_decide (value <> units)); [done|].
  by rewrite confirmPayment_logs.
Qed.

Lemma later_logs_ignored_witness :
  matchTransfer (sampleEnv ReceiptNull) "A" sampleHash 10143 false
    (sampleBooking "A" PENDING false)
    (resolvePayment false (sampleBooking "A" PENDING false)) (inject_Z 30)
    (sampleReceipt "success"
       [sampleTransfer treasuryAddress thirtyUSDCLessOne;
        sampleTransfer treasuryAddress thirtyUSDC]) 0 oneBooking
  = matchTransfer (sampleEnv ReceiptNull) "A" sampleHash 10143 false
      (sampleBooking "A" PENDING false)
      (resolvePayment false (sampleBooking "A" PENDING false)) (inject_Z 30)
      shortReceipt 0 oneBooking.
Proof.
  apply (later_logs_ignored (sampleEnv ReceiptNull) "A" sampleHash 10143 false
           (sampleBooking "A" PENDING false)
           (resolvePayment false (sampleBooking "A" PENDING false)) (inject_Z 30)
           (sampleReceipt "success"
              [sampleTransfer treasuryAddress thirtyUSDCLessOne;
               sampleTransfer treasuryAddress thirtyUSDC]) 0 oneBooking
           monadTestnetConfig
           {| tokenAddress := MONAD_TESTNET_USDC; decimals := 6;
              symbol := "USDC"; tokenName := "USD Coin" |}
           [] (sampleTransfer treasuryAddress thirtyUSDCLessOne)
           [sampleTransfer treasuryAddress thirtyUSDC]);
    try reflexivity.
  intros l [].
Defined.

Lemma toLowerCase_0x (s : string) :
  toLowerCase ("0x" +:+ s) = "0x" +:+ toLowerCase s.
Proof. reflexivity. Qed.

(** X20.  Of a log the filter for Transfer events reads the emitting
    address, up to the case of its letters, and the first topic; the
    recipient test reads the third topic from its 27th character on, up to
    the case of its letters.  The second topic, which holds the sender, the
    upper twelve bytes of the third, any further topic and the data play no
    part in either test.  A log without a third topic is never taken for a
    transfer to the treasury. *)
Theorem matcher_reads (tokenAddressLower : string) (log log' : Log) :
  (topics log !! 2%nat = None -> isToTreasury log = false)
  /\ (sameLetters (Some (address log)) (Some (address log')) ->
      topics log !! 0%nat = topics log' !! 0%nat ->
      isTransferLog tokenAddressLower log = isTransferLog tokenAddressLower log')
  /\ (sameLetters (slice 26 <$> topics log !! 2%nat)
        (slice 26 <$> topics log' !! 2%nat) ->
      isToTreasury log = isToTreasury log').
Proof.
  unfold sameLetters, isTransferLog, isToTreasury, toAddress.
  split; [|split].
  - intros ->. by vm_compute.
  - intros [= ->] ->. reflexivity.
  - rewrite !toLowerCase_0x.
    destruct (topics log !! 2%nat) as [t|], (topics log' !! 2%nat) as [t'|];
      cbn; try done.
    by intros [= ->].
Qed.

Lemma matcher_reads_witness :
  isToTreasury
    {| address := "";
       topics := ["";
                  "";
                  "0xFFFFFFFFFFFFFFFFFFFFFFFF8895691124DF317ABA77549843F257F61A7C911A";
                  ""];
       data := "" |}
  = isToTreasury (sampleTransfer treasuryAddress thirtyUSDC).
Proof.
  apply (proj2 (proj2 (matcher_reads "" _ _))). reflexivity.
Defined.

(** * The audit trail of a verification *)

Lemma verificationEntry_intro (b : Booking) (e : ActivityLog) :
  logBookingId e = id b -> logUserId e = userId b -> entity e = "booking" ->
  entityId e = id b -> In (action e) verificationActions ->
  verificationEntry b e = true.
Proof.
  intros ? ? ? ? Hin. apply list_elem_of_In in Hin.
  unfold verificationEntry. by rewrite !bool_decide_eq_true_2.
Qed.

Lemma updateBookingStatus_logged (key : string) (details : list (string * JSON))
    (w : World) (b : Booking) :
  bookings w !! key = Some b ->
  exists w',
    updateBookingStatus key FAILED details w = Some w' /\ Logged b w w'.
Proof.
  intros Hb. rewrite (updateBookingStatus_failed _ _ _ _ Hb). eexists.
  split; [reflexivity|]. eexists. split; [reflexivity|].
  split; [cbn; lia|]. cbn [forallb]. rewrite verificationEntry_intro; try done.
  cbn. tauto.
Qed.

Section AuditTrail.

Variable env : Env.
Variables (key hash : string) (chain : Z) (isRemainingPayment : bool).
Variables (maxRetries : nat) (retryDelayMs : Z).
Variable b : Booking.

Lemma markFailed_logged (details : list (string * JSON)) (retryCount : nat)
    (w : World) (c : Completion) (n : nat) (w' : World) :
  bookings w !! key = Some b ->
  markFailed key details retryCount w = (c, n, w') ->
  c = Returned /\ Logged b w w'.
Proof.
  intros Hb. unfold markFailed.
  destruct (updateBookingStatus_logged key details w b Hb) as (w1 & -> & Hlog).
  by intros [= <- <- <-].
Qed.

Lemma dispatch_log (mail : string -> Email) (onError : string -> World -> World)
    (w : World) :
  (forall message w0,
     onError message w0 = w0
     \/ exists e, activityLog (onError message w0) = (activityLog w0 ++ [e])%list
                  /\ verificationEntry b e = true) ->
  activityLog (dispatch env b mail onError w) = activityLog w
  \/ exists e, activityLog (dispatch env b mail onError w) = (activityLog w ++ [e])%list
               /\ verificationEntry b e = true.
Proof.
  intros Hon. unfold dispatch.
  destruct (userEmail b) as [recipient|]; [|by left].
  destruct (truthyString recipient && stay b); [|by left].
  destruct (sendEmail env (mail recipient)) as [message|]; [|by left].
  destruct (Hon message (emit (SendEmail (mail recipient)) w))
    as [->|(e & He & Hok)]; [by left|right]. by exists e.
Qed.

Lemma confirmPayment_logged (x : Expectation) (amount : Q) (receipt : Receipt)
    (retryCount : nat) (w : World) (c : Completion) (n : nat) (w' : World) :
  bookings w !! key = Some b ->
  confirmPayment env key hash chain isRemainingPayment b x amount receipt
    retryCount w = (c, n, w') ->
  (c <> Continued /\ c <> Returned /\ Untouched w w')
  \/ (c = Returned /\ Logged b w w').
Proof.
  intros Hb. unfold confirmPayment.
  destruct (getTransaction env chain hash retryCount) as [tx|message];
    [|intros [= <- <- <-]; by left].
  assert (bookings (emit (FetchTransaction chain hash) w) !! key = Some b)
    as Hb0 by done.
  assert (forall data name details mail onError,
            In name verificationActions ->
            (forall message w0,
               onError message w0 = w0
               \/ exists e,
                    activityLog (onError message w0) = (activityLog w0 ++ [e])%list
                    /\ verificationEntry b e = true) ->
            match bookingUpdate key data (emit (FetchTransaction chain hash) w) with
            | Some w1 =>
                (Returned, retryCount,
                 dispatch env b mail onError
                   (activityLogCreate (successLog b name details) w1))
            | None =>
                (Thrown recordNotFound, retryCount,
                 emit (FetchTransaction chain hash) w)
            end = (c, n, w') ->
            (c <> Continued /\ c <> Returned /\ Untouched w w')
            \/ (c = Returned /\ Logged b w w')) as Hcase.
  { intros data name details mail onError Hname Hon.
    rewrite (bookingUpdate_found _ _ _ _ Hb0). intros [= <- <- <-].
    right. split; [done|].
    assert (verificationEntry b (successLog b name details) = true) as Hentry
      by by apply verificationEntry_intro.
    destruct (dispatch_log mail onError
                (activityLogCreate (successLog b name details)
                   (withBookings (<[key := applyData data b]> (bookings w))
                      (emit (FetchTransaction chain hash) w))) Hon)
      as [Hd|(e & Hd & He)].
    - eexists. split; [rewrite Hd; reflexivity|]. split; [cbn; lia|].
      cbn [forallb]. by rewrite Hentry.
    - exists [successLog b name details; e].
      split; [rewrite Hd; cbn; by rewrite <- app_assoc|]. split; [cbn; lia|].
      cbn [forallb]. by rewrite Hentry, He. }
  destruct (isReservationPayment x); [|destruct isRemainingPayment];
    apply Hcase; try (by intros; left); try (cbn; tauto).
  intros message w0. right. eexists. split; [reflexivity|].
  apply verificationEntry_intro; try done. cbn. tauto.
Qed.

Lemma tryBlock_logged (retryCount : nat) (w : World) (c : Completion) (n : nat)
    (w' : World) :
  bookings w !! key = Some b ->
  tryBlock env key hash chain isRemainingPayment maxRetries retryDelayMs retryCount w
  = (c, n, w') ->
  Untouched w w' \/ (c = Returned /\ Logged b w w').
Proof.
  intros Hb. unfold tryBlock, matchTransfer. rewrite Hb.
  assert (bookings (emit (FetchReceipt chain hash) w) !! key = Some b) as Hb1 by done.
  assert (forall v : World, Logged b (emit (FetchReceipt chain hash) w) v -> Logged b w v)
    as Hemit by (by intros v (entries & He & Hlen & Hall); exists entries).
  repeat case_match;
    try (intros [= <- <- <-]; by left);
    intros Hrun;
    try (apply (markFailed_logged _ _ _ _ _ _ Hb) in Hrun; by right);
    try (apply (markFailed_logged _ _ _ _ _ _ Hb1) in Hrun as [-> Hlog];
         right; split; [done|by apply Hemit]).
  apply (confirmPayment_logged _ _ _ _ _ _ _ _ Hb1) in Hrun
    as [(_ & _ & Hsame & Hlog)|[-> Hlog]]; [by left|].
  right. split; [done|by apply Hemit].
Qed.

Lemma iteration_logged (retryCount : nat) (w : World) (step : Step) (w' : World) :
  bookings w !! key = Some b ->
  iteration env key hash chain isRemainingPayment maxRetries retryDelayMs retryCount w
  = (step, w') ->
  ((step = Exit \/ exists n, step = Next n) /\ Untouched w w')
  \/ ((step = Exit \/ exists n, step = Next n /\ (maxRetries <= n)%nat)
      /\ Logged b w w').
Proof.
  intros Hb. unfold iteration.
  destruct (tryBlock env key hash chain isRemainingPayment maxRetries retryDelayMs
              retryCount w) as [[c n] w1] eqn:Htry.
  apply (tryBlock_logged _ _ _ _ _ Hb) in Htry as [[Hsame Hlog]|[-> Hlogged]].
  - destruct c.
    + intros [= <- <-]. left. split; [by left|done].
    + intros [= <- <-]. left. split; [right; by eexists|done].
    + destruct (maxRetries <=? S n)%nat eqn:Hcmp.
      * assert (bookings w1 !! key = Some b) as Hb1 by by rewrite Hsame.
        destruct (updateBookingStatus_logged key
                    [("error", JString message);
                     ("attempts", JNumber (inject_Z (Z.of_nat (S n))))] w1 b Hb1)
          as (w2 & -> & (entries & He & Hlen & Hall)).
        intros [= <- <-]. right. split.
        -- right. exists (S n). split; [done|]. by apply Nat.leb_le.
        -- exists entries. by rewrite He, Hlog.
      * intros [= <- <-]. left. split; [right; by eexists|done].
  - intros [= <- <-]. right. split; [by left|done].
Qed.

Lemma retryLoop_logged (fuel : nat) : forall (retryCount : nat) (w : World),
  bookings w !! key = Some b ->
  exists w',
    retryLoop env key hash chain isRemainingPayment maxRetries retryDelayMs fuel
      retryCount w = (Resolved, w')
    /\ (Untouched w w' \/ Logged b w w').
Proof.
  induction fuel as [|fuel IH]; intros retryCount w Hb.
  - exists w. split; [done|]. by left.
  - cbn [retryLoop]. destruct (retryCount <? maxRetries)%nat.
    2:{ exists w. split; [done|]. by left. }
    destruct (iteration env key hash chain isRemainingPayment maxRetries
                retryDelayMs retryCount w) as [step w1] eqn:Hit.
    apply (iteration_logged _ _ _ _ Hb) in Hit
      as [[Hstep [Hsame Hlog]]|[Hstep Hlogged]].
    + destruct Hstep as [->|[n ->]].
      * exists w1. split; [done|]. by left.
      * destruct (IH n w1) as (w' & Hrun & Hrest); [by rewrite Hsame|].
        exists w'. split; [exact Hrun|].
        destruct Hrest as [[Hsame' Hlog']|(entries & He & Hrest)].
        -- left. split; congruence.
        -- right. exists entries. by rewrite He, Hlog.
    + destruct Hstep as [->|(n & -> & Hn)].
      * exists w1. split; [done|]. by right.
      * rewrite retryLoop_done by done. exists w1. split; [done|]. by right.
Qed.

(** X21.  For a booking that exists, the promise of [verifyPayment]
    always resolves: every error of an attempt is caught.  Either bookings
    and activity log end as they began, or the activity log has gained one
    or two entries, each for this booking and its user, with [entity]
    "booking" and one of the five actions of a verification: the row is
    never written without an entry in the log. *)
Theorem verification_audit_trail (w : World) :
  bookings w !! key = Some b ->
  exists w',
    verifyPayment env key hash chain isRemainingPayment maxRetries retryDelayMs w
    = (Resolved, w')
    /\ (Untouched w w' \/ Logged b w w').
Proof. apply retryLoop_logged. Qed.

End AuditTrail.

Lemma verification_audit_trail_witness :
  exists w',
    verifyPayment (sampleEnv (ReceiptFound okReceipt)) "A" sampleHash 10143 false
      10 3000 oneBooking = (Resolved, w')
    /\ length (activityLog w') = 1%nat.
Proof.
  destruct (verification_audit_trail (sampleEnv (ReceiptFound okReceipt)) "A"
              sampleHash 10143 false 10 3000 (sampleBooking "A" PENDING false)
              oneBooking eq_refl) as (w' & Hrun & _).
  exists w'. split; [exact Hrun|].
  revert Hrun. vm_compute. by intros [= <-].
Defined.

(** * The hash that a full payment records *)

Section StoredHash.

Variable env : Env.
Variables (key hash : string) (chain : Z).
Variables (maxRetries : nat) (retryDelayMs : Z).

Lemma retryLoop_settles (isRemainingPayment : bool) (booking : Booking)
    (amount : Q) (receipt : Receipt) (tx : Transaction) (retryCount : nat)
    (w : World) (chainInfo : ChainConfig) (tokenInfo : TokenConfig)
    (expectedBaseUnits : Z) (log : Log) (fuel : nat) :
  (retryCount < maxRetries)%nat ->
  bookings w !! key = Some booking ->
  gate (resolvePayment isRemainingPayment booking) = Proceed ->
  lockedAmount (resolvePayment isRemainingPayment booking) = Some amount ->
  getPublicClient env chain = true ->
  getTransactionReceipt env chain hash retryCount = ReceiptFound receipt ->
  receiptStatus receipt = "success" ->
  chainConfig !! chain = Some chainInfo ->
  tokens chainInfo !! expectedToken (resolvePayment isRemainingPayment booking)
  = Some tokenInfo ->
  parseUnits env amount (decimals tokenInfo) = Some expectedBaseUnits ->
  List.find isToTreasury
    (List.filter (isTransferLog (toLowerCase (tokenAddress tokenInfo))) (logs receipt))
  = Some log ->
  BigInt (data log) = Some expectedBaseUnits ->
  getTransaction env chain hash retryCount = TransactionFound tx ->
  exists w',
    retryLoop env key hash chain isRemainingPayment maxRetries retryDelayMs
      (S fuel) retryCount w = (Resolved, w')
    /\ bookings w'
       = <[key := applyData
                    (settlementData env hash chain isRemainingPayment booking amount
                       receipt tx) booking]> (bookings w).
Proof.
  intros Hlt Hb Hg Hl Hc Hr Hok Hchain Htoken Hunits Hfind Hvalue Htx.
  destruct (confirmPayment_found env key hash chain isRemainingPayment booking
              amount receipt tx retryCount (emit (FetchReceipt chain hash) w))
    as (entry & Hrun & _); [done|done|].
  eexists. split.
  - apply retryLoop_exit; [done|]. unfold iteration.
    rewrite (tryBlock_success _ _ _ _ _ _ _ _ _ _ _ _ Hb Hg Hl Hc Hr Hok).
    unfold matchTransfer. rewrite Hchain, Htoken, Hunits.
    destruct (List.filter _ (logs receipt)) as [|l ls] eqn:Hlogs; [done|].
    cbn [length Nat.eqb]. rewrite Hfind, Hvalue.
    rewrite bool_decide_eq_false_2 by (intros Hne; by apply Hne).
    rewrite Hrun. reflexivity.
  - reflexivity.
Qed.

(** X22.  The update of a confirmed full payment does not write the
    hash that was verified: the hash that counts as used afterwards is the
    one the [txHash] column held, which the last accepted submission wrote.
    When that is another hash than the verified one, the verified hash is
    as unused after the confirmation as it was before. *)
Theorem full_payment_binds_stored_hash (booking : Booking)
    (amount : Q) (receipt : Receipt) (tx : Transaction) (retryCount : nat)
    (w : World) (chainInfo : ChainConfig) (tokenInfo : TokenConfig)
    (expectedBaseUnits : Z) (log : Log) (fuel : nat) :
  (retryCount < maxRetries)%nat ->
  bookings w !! key = Some booking ->
  isReservationPayment (resolvePayment false booking) = false ->
  gate (resolvePayment false booking) = Proceed ->
  lockedAmount (resolvePayment false booking) = Some amount ->
  getPublicClient env chain = true ->
  getTransactionReceipt env chain hash retryCount = ReceiptFound receipt ->
  receiptStatus receipt = "success" ->
  chainConfig !! chain = Some chainInfo ->
  tokens chainInfo !! expectedToken (resolvePayment false booking) = Some tokenInfo ->
  parseUnits env amount (decimals tokenInfo) = Some expectedBaseUnits ->
  List.find isToTreasury
    (List.filter (isTransferLog (toLowerCase (tokenAddress tokenInfo))) (logs receipt))
  = Some log ->
  BigInt (data log) = Some expectedBaseUnits ->
  getTransaction env chain hash retryCount = TransactionFound tx ->
  exists w',
    retryLoop env key hash chain false maxRetries retryDelayMs (S fuel) retryCount w
    = (Resolved, w')
    /\ status <$> bookings w' !! key = Some CONFIRMED
    /\ (forall h, consumed h key FullPayment w' = bool_decide (txHash booking = Some h))
    /\ (forall h other phase,
          other <> key \/ phase <> FullPayment ->
          consumed h other phase w' = consumed h other phase w)
    /\ (txHash booking <> Some hash ->
        checkTransactionUsed hash w' = checkTransactionUsed hash w).
Proof.
  intros Hlt Hb Hres Hg Hl Hc Hr Hok Hchain Htoken Hunits Hfind Hvalue Htx.
  destruct (retryLoop_settles false booking amount receipt tx retryCount w chainInfo
              tokenInfo expectedBaseUnits log fuel)
    as (w' & Hrun & Hm); try done.
  unfold settlementData in Hm. rewrite Hres in Hm.
  destruct (fullData_settles env booking receipt tx booking)
    as (_ & Htxh & Hst & Hrp & Hrh & Hmp & Hmh).
  set (b' := applyData (fullData env booking receipt tx) booking) in *.
  assert (forall h, consumed h key FullPayment w'
                    = bool_decide (txHash booking = Some h)) as Hfull.
  { intros h. rewrite (consumed_insert _ _ _ _ _ _ _ Hm).
    rewrite decide_True by done. unfold binds. rewrite Htxh, Hst.
    by rewrite (bool_decide_eq_true_2 (CONFIRMED = CONFIRMED)), andb_true_r. }
  assert (forall h other phase,
            other <> key \/ phase <> FullPayment ->
            consumed h other phase w' = consumed h other phase w) as Hrest.
  { intros h other phase Hne. rewrite (consumed_insert _ _ _ _ _ _ _ Hm).
    destruct (decide (key = other)) as [<-|Hother]; [|done].
    unfold consumed. rewrite Hb.
    destruct phase; unfold binds.
    - by destruct Hne.
    - by rewrite Hrp, Hrh.
    - by rewrite Hmp, Hmh. }
  exists w'. split; [exact Hrun|]. split.
  { rewrite Hm, lookup_insert_eq. change (Some (status b') = Some CONFIRMED).
    by rewrite Hst. }
  split; [exact Hfull|]. split; [exact Hrest|].
  intros Hne.
  assert (forall other phase,
            consumed hash other phase w' = consumed hash other phase w) as Hsame.
  { intros other phase.
    destruct (decide (other = key)) as [->|Hother]; [|apply Hrest; by left].
    destruct phase; [|apply Hrest; by right..].
    rewrite Hfull, bool_decide_eq_false_2 by done.
    unfold consumed, binds. rewrite Hb.
    by rewrite (bool_decide_eq_false_2 (txHash booking = Some hash)). }
  apply eq_true_iff_eq. rewrite !checkTransactionUsed_consumed.
  split; intros (other & phase & Hused); exists other, phase; congruence.
Qed.

End StoredHash.

Lemma full_payment_binds_stored_hash_witness :
  exists w',
    verifyPayment (sampleEnv (ReceiptFound okReceipt)) "A" sampleHash 10143 false
      10 3000 twiceSubmitted = (Resolved, w')
    /\ status <$> bookings w' !! "A" = Some CONFIRMED
    /\ checkTransactionUsed sampleHash w' = false
    /\ consumed otherHash "A" FullPayment w' = true.
Proof.
  destruct (full_payment_binds_stored_hash (sampleEnv (ReceiptFound okReceipt)) "A"
              sampleHash 10143 10 3000
              (set_txHash (Some otherHash)
                 (set_chainId (Some 10143) (sampleBooking "A" PENDING false)))
              (inject_Z 30) okReceipt {| from := samplePayer; gasPrice := Some 50 |}
              0%nat twiceSubmitted monadTestnetConfig
              {| tokenAddress := MONAD_TESTNET_USDC; decimals := 6;
                 symbol := "USDC"; tokenName := "USD Coin" |}
              30000000 (sampleTransfer treasuryAddress thirtyUSDC) 9%nat)
    as (w' & Hrun & Hst & Hfull & _ & Hunused);
    try (vm_compute; reflexivity); [lia|].
  exists w'. split; [exact Hrun|]. split; [exact Hst|]. split.
  - rewrite Hunused by discriminate. by vm_compute.
  - by rewrite Hfull.
Defined.

(** * Loyalty and verification *)

Lemma confirmedBookings_insert (user key : string) (b b' : Booking) (w w' : World) :
  bookings w !! key = Some b ->
  bookings w' = <[key := b']> (bookings w) ->
  (size (confirmedBookings user w') + counts user b
   = size (confirmedBookings user w) + counts user b')%nat.
Proof.
  intros Hb Hm. unfold confirmedBookings, counts. rewrite Hm.
  set (P := fun row : string * Booking => isConfirmedFor user row.2 = true).
  assert (filter P (bookings w) !! key
          = if isConfirmedFor user b then Some b else None) as Hold.
  { destruct (isConfirmedFor user b) eqn:Hc.
    - by apply map_lookup_filter_Some_2.
    - apply map_lookup_filter_None_2. right. intros x Hx.
      rewrite Hb in Hx. injection Hx as <-. unfold P. cbn. by rewrite Hc. }
  rewrite map_filter_insert. destruct (decide (P (key, b'))) as [Hnew|Hnew];
    unfold P in Hnew; cbn in Hnew.
  - rewrite Hnew, map_size_insert, Hold.
    destruct (isConfirmedFor user b); cbn; lia.
  - apply not_true_is_false in Hnew. rewrite Hnew.
    rewrite map_filter_delete, map_size_delete, Hold.
    destruct (isConfirmedFor user b) eqn:Hc; cbn; [|lia].
    assert (size (filter P (bookings w)) <> 0)%nat
      by (apply (map_size_ne_0_lookup_2 _ key); by rewrite Hold).
    lia.
Qed.

(** X23.  The loyalty count of a user is the number of CONFIRMED
    bookings of that user.  A verification changes it through its own
    booking only, by one at most: up when the booking becomes CONFIRMED,
    down when a CONFIRMED booking is set to FAILED; the booking stays with
    its user, and the answer of the loyalty check for any other user is the
    same after the verification as before. *)
Theorem verification_moves_loyalty (env : Env) (key hash : string) (chain : Z)
    (isRemainingPayment : bool) (maxRetries : nat) (retryDelayMs : Z) (w : World)
    (user : string) :
  let w' := snd (verifyPayment env key hash chain isRemainingPayment maxRetries
                   retryDelayMs w) in
  (bookings w !! key = None ->
   checkLoyalty (Some (Some user)) w' = checkLoyalty (Some (Some user)) w)
  /\ (forall b,
        bookings w !! key = Some b ->
        exists b',
          bookings w' !! key = Some b'
          /\ userId b' = userId b
          /\ (size (confirmedBookings user w') + counts user b
              = size (confirmedBookings user w) + counts user b')%nat
          /\ (userId b <> Some user ->
              checkLoyalty (Some (Some user)) w'
              = checkLoyalty (Some (Some user)) w)).
Proof.
  cbn zeta. unfold verifyPayment.
  destruct (retryLoop_wrote env key hash chain maxRetries retryDelayMs
              isRemainingPayment maxRetries 0 w)
    as [Hsame|(b0 & data & Hb0 & Hwrite & Hm)].
  - split.
    + intros _. unfold checkLoyalty, confirmedBookings. by rewrite Hsame.
    + intros b Hb. exists b. rewrite Hsame. split; [done|]. split; [done|].
      split; [unfold confirmedBookings; by rewrite Hsame|].
      intros _. unfold checkLoyalty, confirmedBookings. by rewrite Hsame.
  - split; [intros Hnone; by rewrite Hnone in Hb0|].
    intros b Hb. rewrite Hb in Hb0. injection Hb0 as <-.
    exists (applyData data b). rewrite Hm at 1. rewrite lookup_insert_eq.
    split; [done|].
    destruct (write_keeps hash b data Hwrite) as (_ & _ & Huser & _).
    split; [exact Huser|].
    pose proof (confirmedBookings_insert user key b (applyData data b) w _ Hb Hm)
      as Hcount.
    split; [exact Hcount|].
    intros Hother. unfold checkLoyalty. cbn [truthyOptString default].
    replace (size (confirmedBookings user
                     (snd (retryLoop env key hash chain isRemainingPayment
                             maxRetries retryDelayMs maxRetries 0 w))))
      with (size (confirmedBookings user w)); [done|].
    revert Hcount. unfold counts, isConfirmedFor. rewrite Huser.
    rewrite (bool_decide_eq_false_2 (userId b = Some user)) by done. cbn. lia.
Qed.

Lemma verification_moves_loyalty_witness :
  checkLoyalty (Some (Some "user-1")) oneBooking = LoyaltyNone
  /\ size (confirmedBookings "user-1" paidInFull) = 1%nat.
Proof.
  split; [by vm_compute|].
  destruct (proj2 (verification_moves_loyalty (sampleEnv (ReceiptFound okReceipt))
                     "A" sampleHash 10143 false 10 3000 oneBooking "user-1")
              (sampleBooking "A" PENDING false) eq_refl)
    as (b' & Hb' & _ & Hcount & _).
  fold paidInFull in Hb', Hcount.
  assert (b' = applyData
                 (fullData (sampleEnv (ReceiptFound okReceipt))
                    (sampleBooking "A" PENDING false) okReceipt
                    {| from := samplePayer; gasPrice := Some 50 |})
                 (sampleBooking "A" PENDING false)) as ->
    by (revert Hb'; vm_compute; by intros [= <-]).
  revert Hcount.
  change (size (confirmedBookings "user-1" oneBooking)) with 0%nat.
  change (counts "user-1" (sampleBooking "A" PENDING false)) with 0%nat.
  change (counts "user-1" _) with 1%nat. lia.
Defined.

(** * A reservation submitted twice *)

Lemma POST_accepted (body : SubmitBody) (w : World) (key hash : string) (chain : Z)
    (token : string) (b : Booking) :
  requiredFields body = Some (key, hash, chain, token) ->
  isTxHashFormat hash = true ->
  checkTransactionUsed hash w = false ->
  bookings w !! key = Some b ->
  validateSubmission b (default false (bodyIsRemainingPayment body)) token = None ->
  exists response w1,
    POST body w
    = (response, w1,
       Some {| callBookingId := key;
               callTxHash := hash;
               callChainId := chain;
               callIsRemainingPayment := default false (bodyIsRemainingPayment body);
               callMaxRetries := 10;
               callRetryDelayMs := 3000 |})
    /\ httpStatus response = 200
    /\ bookings w1
       = <[key := applyData
                    (submissionData b hash chain
                       (default false (bodyIsRemainingPayment body))) b]>
           (bookings w).
Proof.
  intros Hreq Hformat Hunused Hb Hv. unfold POST.
  rewrite Hreq, Hformat, Hunused, Hb, Hv. cbn [negb].
  rewrite (bookingUpdate_found _ _ _ _ Hb). by eexists _, _.
Qed.

Lemma checkTransactionUsed_same (hash : string) (w w' : World) :
  (forall key phase, consumed hash key phase w' = consumed hash key phase w) ->
  checkTransactionUsed hash w' = checkTransactionUsed hash w.
Proof.
  intros Hsame. apply eq_true_iff_eq. rewrite !checkTransactionUsed_consumed.
  split; intros (key & phase & Hused); exists key, phase; congruence.
Qed.

Section DoubleSubmission.

Variable env : Env.
Variables (body : SubmitBody) (w : World).
Variables (key hash : string) (chain : Z) (token : string).
Variables (b : Booking) (amount : Q).
Variables (receipt : Receipt) (tx : Transaction).
Variables (chainInfo : ChainConfig) (tokenInfo : TokenConfig).
Variables (expectedBaseUnits : Z) (log : Log).

Hypothesis Hreq : requiredFields body = Some (key, hash, chain, token).
Hypothesis Hflag : default false (bodyIsRemainingPayment body) = false.
Hypothesis Hformat : isTxHashFormat hash = true.
Hypothesis Hunused : checkTransactionUsed hash w = false.
Hypothesis Hb : bookings w !! key = Some b.
Hypothesis Hreservation : requiresReservation b = true.
Hypothesis Hunpaid : reservationPaid b = false.
Hypothesis Hpending : status b = PENDING.
Hypothesis Htoken : reservationToken b = None.
Hypothesis Hreserve : reservationAmount b = Some amount.
Hypothesis Hlocked : paymentAmount b = Some amount.
Hypothesis Hamount : truthyNumber (Some amount) = true.
Hypothesis Hclient : getPublicClient env chain = true.
Hypothesis Hreceipt : getTransactionReceipt env chain hash 0 = ReceiptFound receipt.
Hypothesis Hsuccess : receiptStatus receipt = "success".
Hypothesis Hchain : chainConfig !! chain = Some chainInfo.
Hypothesis Hinfo : tokens chainInfo !! orElse (paymentToken b) "USDC" = Some tokenInfo.
Hypothesis Hunits : parseUnits env amount (decimals tokenInfo) = Some expectedBaseUnits.
Hypothesis Hfind :
  List.find isToTreasury
    (List.filter (isTransferLog (toLowerCase (tokenAddress tokenInfo))) (logs receipt))
  = Some log.
Hypothesis Hvalue : BigInt (data log) = Some expectedBaseUnits.
Hypothesis Htx : getTransaction env chain hash 0 = TransactionFound tx.

Local Abbreviation reserves' := (reserves b amount).

Lemma submission_reserves (b1 : Booking) :
  reserves' false PENDING b1 ->
  reservationToken b1 = None ->
  validateSubmission b1 false token = None
  /\ reserves' false PENDING (applyData (submissionData b1 hash chain false) b1)
  /\ reservationToken (applyData (submissionData b1 hash chain false) b1) = None
  /\ forall h p,
       binds h p (applyData (submissionData b1 hash chain false) b1) = binds h p b1.
Proof.
  intros (Hrr & Hrp & Hst & Hra & Hpa & Hpt & Hmp & Hma) Hrt.
  split.
  { unfold validateSubmission. rewrite Hrr, Hst, Hrp, Hrt. cbn.
    by rewrite bool_decide_eq_true_2. }
  destruct (submissionData_same b1 hash chain false) as [Hsame _].
  destruct (submissionData_row b1 hash chain false) as (_ & _ & _ & _ & Hslot).
  rewrite Hrr in Hslot. destruct Hslot as (Hrh & Htxh & Hmh).
  destruct Hsame as (_ & _ & _ & _ & _ & Hs_st & Hs_rr & Hs_pt & Hs_pa & Hs_ra
                    & Hs_rt & Hs_rp & _ & _ & Hs_ma & _ & Hs_mp & _).
  set (b2 := applyData (submissionData b1 hash chain false) b1) in *.
  split; [|split].
  - unfold reserves. repeat split; congruence.
  - congruence.
  - intros h p. destruct p; unfold binds.
    + by rewrite Hs_st, Htxh.
    + by rewrite Hs_rp, Hrp, !andb_false_r.
    + by rewrite Hs_mp, Hmh.
Qed.

Lemma reservation_verified (w2 : World) (b2 : Booking) :
  bookings w2 !! key = Some b2 ->
  reserves' false PENDING b2 ->
  reservationToken b2 = None ->
  exists w3 b3,
    verifyPayment env key hash chain false 10 3000 w2 = (Resolved, w3)
    /\ bookings w3 = <[key := b3]> (bookings w2)
    /\ reserves' true RESERVED b3.
Proof.
  intros Hb2 (Hrr & Hrp & Hst & Hra & Hpa & Hpt & Hmp & Hma) Hrt.
  assert (resolvePayment false b2
          = {| isReservationPayment := true;
               expectedAmount := Some amount;
               expectedToken := orElse (paymentToken b) "USDC";
               gate := Proceed |}) as Hx.
  { unfold resolvePayment. rewrite Hrr, Hrp, Hst, Hra, Hrt, Hpt. cbn.
    by rewrite bool_decide_eq_false_2. }
  destruct (retryLoop_settles env key hash chain 10 3000 false b2 amount receipt tx
              0 w2 chainInfo tokenInfo expectedBaseUnits log 9)
    as (w3 & Hrun & Hm); try done; try (by rewrite Hx); [lia| |].
  { rewrite Hx. unfold lockedAmount. cbn [expectedToken expectedAmount].
    rewrite Hamount, orElse_truthy by done. done. }
  unfold settlementData in Hm. rewrite Hx in Hm. cbn [isReservationPayment] in Hm.
  eexists w3, _. split; [exact Hrun|]. split; [exact Hm|].
  destruct (reservationData_settles env hash chain
              (orElse (paymentToken b) "USDC") receipt tx b2)
    as (Hs_rr & _ & Hs_st & Hs_rp & _ & Hs_mp & _).
  destruct (write_keeps hash b2 _
              (WriteReservation hash b2 env chain (orElse (paymentToken b) "USDC")
                 receipt tx))
    as (_ & _ & _ & _ & _ & _ & Hk_pt & Hk_pa & Hk_ra & Hk_ma & _).
  unfold reserves. cbn [expectedToken]. repeat split; congruence.
Qed.

Lemma reservation_verified_again (w3 : World) (b3 : Booking) :
  bookings w3 !! key = Some b3 ->
  reserves' true RESERVED b3 ->
  exists w4 b4,
    verifyPayment env key hash chain false 10 3000 w3 = (Resolved, w4)
    /\ bookings w4 = <[key := b4]> (bookings w3)
    /\ reserves' true CONFIRMED b4.
Proof.
  intros Hb3 (Hrr & Hrp & Hst & Hra & Hpa & Hpt & Hmp & Hma).
  assert (resolvePayment false b3
          = {| isReservationPayment := false;
               expectedAmount := Some amount;
               expectedToken := orElse (paymentToken b) "USDC";
               gate := Proceed |}) as Hx.
  { unfold resolvePayment. rewrite Hrr, Hrp, Hst, Hpa, Hpt. cbn.
    by rewrite bool_decide_eq_false_2. }
  destruct (retryLoop_settles env key hash chain 10 3000 false b3 amount receipt tx
              0 w3 chainInfo tokenInfo expectedBaseUnits log 9)
    as (w4 & Hrun & Hm); try done; try (by rewrite Hx); [lia| |].
  { rewrite Hx. unfold lockedAmount. cbn [expectedToken expectedAmount].
    rewrite Hamount, orElse_truthy by done. done. }
  unfold settlementData in Hm. rewrite Hx in Hm. cbn [isReservationPayment] in Hm.
  eexists w4, _. split; [exact Hrun|]. split; [exact Hm|].
  destruct (fullData_settles env b3 receipt tx b3)
    as (Hs_rr & _ & Hs_st & Hs_rp & _ & Hs_mp & _).
  destruct (write_keeps hash b3 _ (WriteFull hash b3 env receipt tx))
    as (_ & _ & _ & _ & _ & _ & Hk_pt & Hk_pa & Hk_ra & Hk_ma & _).
  unfold reserves. repeat split; congruence.
Qed.

(** X24.  A reservation payment that is submitted twice before its
    verification has run is accepted twice, since the hash is not in use
    until a verification has set the paid flag.  When the locked payment
    amount is the reservation amount, the first verification finds the
    transfer and sets the booking to RESERVED; the second, started for the
    same transaction, finds the reservation paid, takes the payment for a
    full payment, finds the same transfer and sets the booking to CONFIRMED:
    the remainder is as unpaid as it was. *)
Theorem reservation_submitted_twice :
  let s := serve env (freshServer w) [Submit body; Submit body; Run 0; Run 0] in
  map httpStatus (responses s) = [200; 200]
  /\ pending s = []
  /\ exists b',
       bookings (world s) !! key = Some b'
       /\ status b' = CONFIRMED
       /\ reservationPaid b' = true
       /\ remainingPaid b' = remainingPaid b
       /\ remainingAmount b' = remainingAmount b.
Proof.
  cbn zeta.
  assert (reserves' false PENDING b) as Hb0 by (by unfold reserves).
  destruct (submission_reserves b Hb0 Htoken) as (Hv1 & Hb1 & Ht1 & Hbinds1).
  rewrite <- Hflag in Hv1 at 1.
  destruct (POST_accepted body w key hash chain token b Hreq Hformat Hunused Hb Hv1)
    as (r1 & w1 & Hpost1 & Hcode1 & Hm1).
  rewrite Hflag in Hpost1, Hm1.
  set (b1 := applyData (submissionData b hash chain false) b) in *.
  assert (bookings w1 !! key = Some b1) as Hrow1 by by rewrite Hm1, lookup_insert_eq.
  assert (checkTransactionUsed hash w1 = false) as Hunused1.
  { rewrite (checkTransactionUsed_same hash w w1); [done|].
    apply (consumed_insert_same w w1 key b b1 Hb Hm1). intros h p. apply Hbinds1. }
  destruct (submission_reserves b1 Hb1 Ht1) as (Hv2 & Hb2 & Ht2 & _).
  rewrite <- Hflag in Hv2 at 1.
  destruct (POST_accepted body w1 key hash chain token b1 Hreq Hformat Hunused1
              Hrow1 Hv2)
    as (r2 & w2 & Hpost2 & Hcode2 & Hm2).
  rewrite Hflag in Hpost2, Hm2.
  set (b2 := applyData (submissionData b1 hash chain false) b1) in *.
  assert (bookings w2 !! key = Some b2) as Hrow2 by by rewrite Hm2, lookup_insert_eq.
  destruct (reservation_verified w2 b2 Hrow2 Hb2 Ht2) as (w3 & b3 & Hrun3 & Hm3 & Hb3).
  assert (bookings w3 !! key = Some b3) as Hrow3 by by rewrite Hm3, lookup_insert_eq.
  destruct (reservation_verified_again w3 b3 Hrow3 Hb3)
    as (w4 & b4 & Hrun4 & Hm4 & Hb4).
  set (call := {| callBookingId := key; callTxHash := hash; callChainId := chain;
                  callIsRemainingPayment := false; callMaxRetries := 10;
                  callRetryDelayMs := 3000 |}) in *.
  assert (act env (freshServer w) (Submit body)
          = {| world := w1; pending := [call]; responses := [r1] |}) as Hs1
    by (unfold act, freshServer; cbn [world]; by rewrite Hpost1).
  assert (act env {| world := w1; pending := [call]; responses := [r1] |} (Submit body)
          = {| world := w2; pending := [call; call]; responses := [r1; r2] |}) as Hs2
    by (unfold act; cbn [world]; by rewrite Hpost2).
  assert (act env {| world := w2; pending := [call; call]; responses := [r1; r2] |}
            (Run 0)
          = {| world := w3; pending := [call]; responses := [r1; r2] |}) as Hs3.
  { unfold act. cbn [pending world responses]. cbn [lookup list_lookup].
    unfold runVerification, call. cbn [callBookingId callTxHash callChainId
      callIsRemainingPayment callMaxRetries callRetryDelayMs].
    by rewrite Hrun3. }
  assert (act env {| world := w3; pending := [call]; responses := [r1; r2] |} (Run 0)
          = {| world := w4; pending := []; responses := [r1; r2] |}) as Hs4.
  { unfold act. cbn [pending world responses]. cbn [lookup list_lookup].
    unfold runVerification, call. cbn [callBookingId callTxHash callChainId
      callIsRemainingPayment callMaxRetries callRetryDelayMs].
    by rewrite Hrun4. }
  unfold serve. cbn [fold_left]. rewrite Hs1, Hs2, Hs3, Hs4.
  cbn [world pending responses map]. rewrite Hcode1, Hcode2.
  split; [done|]. split; [done|].
  exists b4. rewrite Hm4, lookup_insert_eq.
  destruct Hb4 as (_ & Hrp & Hst & _ & _ & _ & Hmp & Hma). by repeat split.
Qed.

End DoubleSubmission.

Lemma reservation_submitted_twice_witness :
  status <$> bookings (world doubleSubmission) !! "B" = Some CONFIRMED
  /\ remainingPaid <$> bookings (world doubleSubmission) !! "B" = Some false.
Proof.
  destruct (reservation_submitted_twice (sampleEnv (ReceiptFound okReceipt))
              (sampleBody "B" false) (sampleWorld [sampleBooking "B" PENDING true])
              "B" sampleHash 10143 "USDC" (sampleBooking "B" PENDING true)
              (inject_Z 30) okReceipt {| from := samplePayer; gasPrice := Some 50 |}
              monadTestnetConfig
              {| tokenAddress := MONAD_TESTNET_USDC; decimals := 6;
                 symbol := "USDC"; tokenName := "USD Coin" |}
              30000000 (sampleTransfer treasuryAddress thirtyUSDC))
    as (_ & _ & b' & Hb' & Hst & _ & Hmp & _);
    try (vm_compute; reflexivity).
  fold doubleSubmission in Hb'. rewrite Hb'. cbn. by rewrite Hst, Hmp.
Defined.
